(** * MedlabWarehouse: the stock computation engine

    A shallow embedding of the ledger aggregation of
    [lib/stockCalculations.ts] (both checked-in versions), of the consistency
    sweep built on it and of the transfer form of [WarehouseTransfer.tsx],
    followed by the properties of the specification that concern them.

    Conventions of the embedding.
    - A ledger snapshot is a record of tables; a table is the list of its rows
      in the order in which the store returns them.  A [select] is a [filter]
      over that list, so one snapshot answers every query consistently; the
      store returns every matching row.
    - JavaScript numbers are embedded as [Z]: the exact, integral fragment of
      the arithmetic.  Rounding of binary floating point is outside the model.
    - Strings are [string]; a [Map] that is iterated is an association list in
      insertion order, a [Map] that is only looked up is a [gmap].
    - Columns that none of the embedded functions reads or writes
      ([created_at], [invoice_code], the generated ids of line rows, ...) are
      left out of the row records. *)

From Stdlib Require Import ZArith Lia Ascii.
From stdpp Require Import base tactics option list sorting strings gmap pretty.

Local Open Scope Z_scope.

(** ** JavaScript helpers *)

(** [x || ''] on a possibly missing string. *)
Definition or_empty_string (x : option string) : string :=
  match x with
  | Some (String c s) => String c s
  | _ => EmptyString
  end.

(** [x || 0] on a possibly missing number. *)
Definition or_zero (x : option Z) : Z :=
  match x with
  | Some n => n
  | None => 0
  end.

(** [data || []] on the [data] field of a response. *)
Definition or_empty {A} (data : option (list A)) : list A :=
  match data with
  | Some rows => rows
  | None => []
  end.

(** [s.split(sep)] for a one-character separator. *)
Fixpoint split (sep : ascii) (s : string) : list string :=
  match s with
  | EmptyString => [EmptyString]
  | String c rest =>
      if decide (c = sep) then EmptyString :: split sep rest
      else match split sep rest with
           | seg :: segs => String c seg :: segs
           | [] => [String c EmptyString]
           end
  end.

(** [const [first] = arr]. *)
Definition first_of (segs : list string) : string :=
  match segs with
  | seg :: _ => seg
  | [] => EmptyString
  end.

(** [a.localeCompare(b)].  The strings compared by the embedded code are
    ISO-8601 dates and product codes; on dates of the shape [YYYY-MM-DD] the
    collation order coincides with the code-point order used here. *)
Definition localeCompare (a b : string) : comparison := String.compare a b.

(** [Array.prototype.sort] with a comparator: the sort is stable, so the
    result is the one of this insertion sort ([Lt] is a negative, [Gt] a
    positive answer of the comparator). *)
Fixpoint sort_insert {A} (cmp : A → A → comparison) (x : A) (l : list A) : list A :=
  match l with
  | [] => [x]
  | y :: l' =>
      match cmp x y with
      | Gt => y :: sort_insert cmp x l'
      | _ => x :: y :: l'
      end
  end.

Definition sort {A} (cmp : A → A → comparison) (l : list A) : list A :=
  foldr (sort_insert cmp) [] l.

(** A [Set<string>]: iteration follows insertion order. *)
Definition set_add (x : string) (s : list string) : list string :=
  if decide (x ∈ s) then s else s ++ [x].

(** A [Map<string, V>] that is iterated: association list in insertion order.
    [set] on a present key replaces the value in place. *)
Module JsMap.
Section defs.
Context {V : Type}.

Fixpoint get (m : list (string * V)) (k : string) : option V :=
    match m with
    | [] => None
    | (k', v) :: m' => if decide (k' = k) then Some v else get m' k
    end.

Definition has (m : list (string * V)) (k : string) : bool :=
    match get m k with
    | Some _ => true
    | None => false
    end.

Fixpoint set (m : list (string * V)) (k : string) (v : V) : list (string * V) :=
    match m with
    | [] => [(k, v)]
    | (k', v') :: m' =>
        if decide (k' = k) then (k, v) :: m' else (k', v') :: set m' k v
    end.
End defs.
End JsMap.

(** ** Data model ([types/database.ts] and the schema migrations) *)

Inductive ProductType := reagent | consumable.

#[global] Instance ProductType_eq_dec : EqDecision ProductType.
Proof. solve_decision. Defined.

Module Warehouse.
Record t := mk { id : string; name : string }.
End Warehouse.

(** A row of [reagents] or of [consumables]. *)
Module CatalogRow.
Record t := mk { id : string; code : string; name : string }.
End CatalogRow.

Module Product.
Record t := mk { id : string; code : string; name : string; type : ProductType }.
End Product.

Module Invoice.
Record t := mk {
    id : string;
    supplier : string;
    warehouse_id : string;
    status : string
  }.
End Invoice.

Module InvoiceItem.
Record t := mk {
    invoice_id : string;
    product_type : ProductType;
    product_id : string;
    quantity : Z;
    unit_price : Z;
    batch_date : string
  }.
End InvoiceItem.

Module Transfer.
Record t := mk {
    id : string;
    from_warehouse_id : string;
    to_warehouse_id : string;
    date : string;
    total_amount : Z
  }.
End Transfer.

Module TransferItem.
Record t := mk {
    transfer_id : string;
    product_type : ProductType;
    product_id : string;
    batch_date : string;
    quantity : Z;
    unit_price : Z;
    total_price : Z
  }.
End TransferItem.

Module StockOut.
Record t := mk {
    id : string;
    warehouse_id : string;
    date : string;
    reason : string;
    total_amount : Z;
    transfer_id : option string
  }.
End StockOut.

Module StockOutItem.
Record t := mk {
    stockout_id : string;
    product_type : ProductType;
    product_id : string;
    batch_date : string;
    quantity : Z;
    unit_price : Z;
    total_price : Z
  }.
End StockOutItem.

(** The ledger snapshot.  The three catalogue tables are responses: [None] is
    a [data] of [null]. *)
Record Database := mkDatabase {
  tbl_warehouses : option (list Warehouse.t);
  tbl_reagents : option (list CatalogRow.t);
  tbl_consumables : option (list CatalogRow.t);
  tbl_invoices : list Invoice.t;
  tbl_invoice_items : list InvoiceItem.t;
  tbl_transfers : list Transfer.t;
  tbl_transfer_items : list TransferItem.t;
  tbl_stock_out : list StockOut.t;
  tbl_stock_out_items : list StockOutItem.t
}.

(** ** [lib/stockCalculations.ts] *)

Record Batch := mkBatch {
  batch_date : string;
  quantity : Z;
  unit_price : Z;
  total_price : Z;
  supplier : string
}.

Record StockCalculationResult := mkResult {
  totalQuantity : Z;
  totalValue : Z;
  batches : list Batch
}.

(** The value type of [batchMap]. *)
Record Bucket := mkBucket {
  bucket_quantity : Z;
  bucket_price : Z;
  bucket_invoiceIds : list string
}.

(** The template literal [`${batch_date}_${unit_price}`]. *)
Definition batch_key (date : string) (price : Z) : string :=
  date +:+ "_" +:+ pretty price.

(** Body of [(entries || []).forEach(...)]. *)
Definition add_entry (m : list (string * Bucket)) (entry : InvoiceItem.t)
    : list (string * Bucket) :=
  let key := batch_key (InvoiceItem.batch_date entry) (InvoiceItem.unit_price entry) in
  let m :=
    if JsMap.has m key then m
    else JsMap.set m key (mkBucket 0 (InvoiceItem.unit_price entry) []) in
  match JsMap.get m key with
  | Some current =>
      JsMap.set m key
        (mkBucket (bucket_quantity current + InvoiceItem.quantity entry)
                  (bucket_price current)
                  (set_add (InvoiceItem.invoice_id entry) (bucket_invoiceIds current)))
  | None => m
  end.

(** Body of [(transferItemsIn || []).forEach(...)]. *)
Definition add_transfer_in (m : list (string * Bucket)) (transfer : TransferItem.t)
    : list (string * Bucket) :=
  let key := batch_key (TransferItem.batch_date transfer) (TransferItem.unit_price transfer) in
  let m :=
    if JsMap.has m key then m
    else JsMap.set m key (mkBucket 0 (TransferItem.unit_price transfer) []) in
  match JsMap.get m key with
  | Some current =>
      JsMap.set m key
        (mkBucket (bucket_quantity current + TransferItem.quantity transfer)
                  (bucket_price current)
                  (bucket_invoiceIds current))
  | None => m
  end.

(** Body of the two [forEach] loops that fill [exitMap]. *)
Definition add_exit (m : gmap string Z) (date : string) (qty : Z) : gmap string Z :=
  let current := or_zero (m !! date) in
  <[date := current + qty]> m.

(** Body of [for (const [key, value] of batchMap)]; [resolveSupplier] is the
    part in which the two versions of the file differ. *)
Definition emit (resolveSupplier : list string → string) (exits : gmap string Z)
    (acc : StockCalculationResult) (kv : string * Bucket) : StockCalculationResult :=
  let '(key, value) := kv in
  let batchDate := first_of (split "_" key) in
  let exitQty := or_zero (exits !! batchDate) in
  let netQty := bucket_quantity value - exitQty in
  if decide (0 < netQty) then
    let invoiceIds := bucket_invoiceIds value in
    let supplier := resolveSupplier invoiceIds in
    mkResult (totalQuantity acc + netQty)
             (totalValue acc + netQty * bucket_price value)
             (batches acc ++
                [mkBatch batchDate netQty (bucket_price value)
                         (netQty * bucket_price value) supplier])
  else acc.

(** [.maybeSingle()]: the row when exactly one row matches. *)
Definition maybeSingle {A} (rows : list A) : option A :=
  match rows with
  | [row] => Some row
  | _ => None
  end.

Section stockCalculations.
Context (db : Database).
Context (warehouseId productId : string) (productType : ProductType).

  (** [from('invoices').eq('warehouse_id', ..).eq('status', 'active')] *)
Definition invoices : option (list Invoice.t) :=
    Some (filter (λ inv, Invoice.warehouse_id inv = warehouseId
                         ∧ Invoice.status inv = "active") (tbl_invoices db)).

Definition invoiceMap : gmap string string :=
    foldl (λ m inv, <[Invoice.id inv := or_empty_string (Some (Invoice.supplier inv))]> m)
          ∅ (or_empty invoices).

Definition invoiceIds : list string := Invoice.id <$> or_empty invoices.

Definition entries : option (list InvoiceItem.t) :=
    if decide (0 < length invoiceIds)%nat then
      Some (filter (λ it, InvoiceItem.product_type it = productType
                          ∧ InvoiceItem.product_id it = productId
                          ∧ InvoiceItem.invoice_id it ∈ invoiceIds)
                   (tbl_invoice_items db))
    else Some [].

Definition transfersIn : option (list Transfer.t) :=
    Some (filter (λ t, Transfer.to_warehouse_id t = warehouseId) (tbl_transfers db)).

  (** [from('stock_out').eq('warehouse_id', ..).neq('reason', 'transfer')] *)
Definition stockOuts : option (list StockOut.t) :=
    Some (filter (λ so, StockOut.warehouse_id so = warehouseId
                        ∧ StockOut.reason so ≠ "transfer") (tbl_stock_out db)).

Definition transfersOut : option (list Transfer.t) :=
    Some (filter (λ t, Transfer.from_warehouse_id t = warehouseId) (tbl_transfers db)).

Definition transferInIds : list string := Transfer.id <$> or_empty transfersIn.
Definition stockOutIds : list string := StockOut.id <$> or_empty stockOuts.
Definition transferOutIds : list string := Transfer.id <$> or_empty transfersOut.

Definition transferItemsIn : option (list TransferItem.t) :=
    if decide (0 < length transferInIds)%nat then
      Some (filter (λ it, TransferItem.product_type it = productType
                          ∧ TransferItem.product_id it = productId
                          ∧ TransferItem.transfer_id it ∈ transferInIds)
                   (tbl_transfer_items db))
    else Some [].

Definition stockOutItems : option (list StockOutItem.t) :=
    if decide (0 < length stockOutIds)%nat then
      Some (filter (λ it, StockOutItem.product_type it = productType
                          ∧ StockOutItem.product_id it = productId
                          ∧ StockOutItem.stockout_id it ∈ stockOutIds)
                   (tbl_stock_out_items db))
    else Some [].

Definition transferItemsOut : option (list TransferItem.t) :=
    if decide (0 < length transferOutIds)%nat then
      Some (filter (λ it, TransferItem.product_type it = productType
                          ∧ TransferItem.product_id it = productId
                          ∧ TransferItem.transfer_id it ∈ transferOutIds)
                   (tbl_transfer_items db))
    else Some [].

Definition batchMap : list (string * Bucket) :=
    foldl add_transfer_in (foldl add_entry [] (or_empty entries))
          (or_empty transferItemsIn).

Definition exitMap : gmap string Z :=
    foldl (λ m exit, add_exit m (TransferItem.batch_date exit) (TransferItem.quantity exit))
          (foldl (λ m exit, add_exit m (StockOutItem.batch_date exit)
                                     (StockOutItem.quantity exit))
                 ∅ (or_empty stockOutItems))
          (or_empty transferItemsOut).

  (** Supplier of an emitted batch, first version of the file: looked up in
      [invoiceMap]. *)
Definition supplier_of_map (invoiceIds : list string) : string :=
    match invoiceIds with
    | first :: _ => or_empty_string (invoiceMap !! first)
    | [] => EmptyString
    end.

  (** Supplier of an emitted batch, second version: one more query,
      [from('invoices').select('supplier').eq('id', invoiceIds[0]).maybeSingle()]. *)
Definition supplier_of_query (invoiceIds : list string) : string :=
    match invoiceIds with
    | first :: _ =>
        match maybeSingle (filter (λ inv, Invoice.id inv = first) (tbl_invoices db)) with
        | Some invoice => Invoice.supplier invoice
        | None => EmptyString
        end
    | [] => EmptyString
    end.

Definition by_batch_date_desc (a b : Batch) : comparison :=
    localeCompare (batch_date b) (batch_date a).

  (** The version that dispatches its fetches with [Promise.all] and reads
      suppliers from [invoiceMap]. *)
Definition calculateProductStockInWarehouse : StockCalculationResult :=
    let acc := foldl (emit supplier_of_map exitMap) (mkResult 0 0 []) batchMap in
    mkResult (totalQuantity acc) (totalValue acc)
             (sort by_batch_date_desc (batches acc)).

Definition validateStockAvailability (requestedQuantity : Z) : bool * Z :=
    let stock := calculateProductStockInWarehouse in
    (bool_decide (requestedQuantity ≤ totalQuantity stock), totalQuantity stock).
End stockCalculations.

(** The version that awaits its fetches one after the other and queries the
    supplier of each emitted batch.  The fetches are the same queries on the
    same snapshot; the aggregation differs in the supplier only. *)
Module Sequential.
Definition calculateProductStockInWarehouse (db : Database)
      (warehouseId productId : string) (productType : ProductType)
      : StockCalculationResult :=
    let acc :=
      foldl (emit (supplier_of_query db)
                  (exitMap db warehouseId productId productType))
            (mkResult 0 0 [])
            (batchMap db warehouseId productId productType) in
    mkResult (totalQuantity acc) (totalValue acc)
             (sort by_batch_date_desc (batches acc)).
End Sequential.

Record StockConsistencyIssue := mkIssue {
  issue_warehouse_id : string;
  issue_warehouse_name : string;
  issue_product_id : string;
  issue_product_code : string;
  issue_product_name : string;
  issue_product_type : ProductType;
  calculated_stock : Z;
  issue : string
}.

(** Body of the inner loop of [validateStockConsistency]. *)
Definition check_product (db : Database) (warehouse : Warehouse.t)
    (issues : list StockConsistencyIssue) (product : Product.t)
    : list StockConsistencyIssue :=
  let stock :=
    calculateProductStockInWarehouse db (Warehouse.id warehouse)
      (Product.id product) (Product.type product) in
  if decide (totalQuantity stock < 0) then
    issues ++
      [mkIssue (Warehouse.id warehouse) (Warehouse.name warehouse)
               (Product.id product) (Product.code product) (Product.name product)
               (Product.type product) (totalQuantity stock)
               "Negative stock detected"]
  else issues.

(** [[...reagents.map(..), ...consumables.map(..)]] *)
Definition allProducts (reagents consumables : list CatalogRow.t) : list Product.t :=
  ((λ r, Product.mk (CatalogRow.id r) (CatalogRow.code r) (CatalogRow.name r) reagent)
     <$> reagents)
  ++ ((λ c, Product.mk (CatalogRow.id c) (CatalogRow.code c) (CatalogRow.name c) consumable)
        <$> consumables).

Definition validateStockConsistency (db : Database) : list StockConsistencyIssue :=
  match tbl_warehouses db, tbl_reagents db, tbl_consumables db with
  | Some warehouses, Some reagents, Some consumables =>
      foldl (λ issues warehouse,
               foldl (check_product db warehouse) issues
                     (allProducts reagents consumables))
            [] warehouses
  | _, _, _ => []
  end.

(** ** [components/WarehouseTransfer.tsx] *)

Module TransferRow.
Record t := mk {
  product_id : string;
  product_code : string;
  product_name : string;
  product_type : ProductType;
  batch_date : string;
  supplier : string;
  quantity : Z;
  unit_price : Z;
  total_price : Z;
  selected : bool;
  transfer_quantity : Z
}.
End TransferRow.

(** The part of the component state that [handleSubmit] reads. *)
Record TransferForm := mkForm {
  fromWarehouse : string;
  toWarehouse : string;
  date : string;
  availableStock : list TransferRow.t
}.

(** [.order('code')] on a catalogue table. *)
Definition order_by_code (rows : option (list CatalogRow.t)) : option (list CatalogRow.t) :=
  sort (λ a b, String.compare (CatalogRow.code a) (CatalogRow.code b)) <$> rows.

(** Rows pushed for one product in [loadWarehouseStock]. *)
Definition rows_of_product (db : Database) (fromWarehouse : string)
    (product : Product.t) : list TransferRow.t :=
  let stock :=
    calculateProductStockInWarehouse db fromWarehouse
      (Product.id product) (Product.type product) in
  (λ batch : Batch,
     TransferRow.mk (Product.id product) (Product.code product) (Product.name product)
       (Product.type product) (batch_date batch)
       (or_empty_string (Some (supplier batch)))
       (quantity batch) (unit_price batch) (total_price batch) false 0)
  <$> filter (λ batch : Batch, 0 < quantity batch) (batches stock).

(** The value that [loadWarehouseStock] passes to [setAvailableStock]. *)
Definition loadWarehouseStock (db : Database) (fromWarehouse : string)
    : list TransferRow.t :=
  let products :=
    allProducts (or_empty (order_by_code (tbl_reagents db)))
                (or_empty (order_by_code (tbl_consumables db))) in
  let stockItems :=
    foldl (λ items product, items ++ rows_of_product db fromWarehouse product)
          [] products in
  sort (λ a b, localeCompare (TransferRow.product_code a) (TransferRow.product_code b))
       stockItems.

Definition set_selection (item : TransferRow.t) (sel : bool) (qty : Z) : TransferRow.t :=
  TransferRow.mk (TransferRow.product_id item) (TransferRow.product_code item)
    (TransferRow.product_name item) (TransferRow.product_type item)
    (TransferRow.batch_date item) (TransferRow.supplier item)
    (TransferRow.quantity item) (TransferRow.unit_price item)
    (TransferRow.total_price item) sel qty.

Definition toggleSelection (index : nat) (availableStock : list TransferRow.t)
    : list TransferRow.t :=
  imap (λ i item,
          if decide (i = index) then
            set_selection item (negb (TransferRow.selected item))
              (if negb (TransferRow.selected item) then TransferRow.quantity item else 0)
          else item)
       availableStock.

Definition updateTransferQuantity (index : nat) (quantity : Z)
    (availableStock : list TransferRow.t) : list TransferRow.t :=
  imap (λ i item,
          if decide (i = index) then
            set_selection item (TransferRow.selected item)
              (Z.min quantity (TransferRow.quantity item))
          else item)
       availableStock.

Inductive SubmitOutcome :=
  | MissingData
  | SameWarehouse
  | ExceedsStock (product_name : string)
  | NotPositive (product_name : string)
  | Submitted (db : Database).

(** The validation loop over [selectedItems]: the first offending row. *)
Fixpoint check_items (selectedItems : list TransferRow.t) : option SubmitOutcome :=
  match selectedItems with
  | [] => None
  | item :: rest =>
      if decide (TransferRow.quantity item < TransferRow.transfer_quantity item) then
        Some (ExceedsStock (TransferRow.product_name item))
      else if decide (TransferRow.transfer_quantity item ≤ 0) then
        Some (NotPositive (TransferRow.product_name item))
      else check_items rest
  end.

Definition selectedItems (form : TransferForm) : list TransferRow.t :=
  filter (λ item, TransferRow.selected item = true ∧ 0 < TransferRow.transfer_quantity item)
         (availableStock form).

(** [handleSubmit] on the path on which the store accepts every insert.
    [transfer_id] and [stockout_id] are the ids that the store generates for
    the new [transfers] and [stock_out] rows; inserted rows come last in
    their table. *)
Definition handleSubmit (form : TransferForm) (db : Database)
    (transfer_id stockout_id : string) : SubmitOutcome :=
  let selectedItems := selectedItems form in
  if decide (fromWarehouse form = EmptyString ∨ toWarehouse form = EmptyString
             ∨ length selectedItems = 0%nat)
  then MissingData
  else if decide (fromWarehouse form = toWarehouse form) then SameWarehouse
  else match check_items selectedItems with
  | Some rejected => rejected
  | None =>
      let totalAmount :=
        foldl (λ sum item,
                 sum + TransferRow.transfer_quantity item * TransferRow.unit_price item)
              0 selectedItems in
      let transfer :=
        Transfer.mk transfer_id (fromWarehouse form) (toWarehouse form) (date form)
                    totalAmount in
      let transferItems :=
        (λ item,
           TransferItem.mk (Transfer.id transfer) (TransferRow.product_type item)
             (TransferRow.product_id item) (TransferRow.batch_date item)
             (TransferRow.transfer_quantity item) (TransferRow.unit_price item)
             (TransferRow.transfer_quantity item * TransferRow.unit_price item))
        <$> selectedItems in
      let exitItems :=
        (λ item,
           StockOutItem.mk EmptyString (TransferRow.product_type item)
             (TransferRow.product_id item) (TransferRow.batch_date item)
             (TransferRow.transfer_quantity item) (TransferRow.unit_price item)
             (TransferRow.transfer_quantity item * TransferRow.unit_price item))
        <$> selectedItems in
      let stockOut :=
        StockOut.mk stockout_id (fromWarehouse form) (date form) "transfer" totalAmount
                    (Some (Transfer.id transfer)) in
      Submitted
        (mkDatabase (tbl_warehouses db) (tbl_reagents db) (tbl_consumables db)
           (tbl_invoices db) (tbl_invoice_items db)
           (tbl_transfers db ++ [transfer])
           (tbl_transfer_items db ++ transferItems)
           (tbl_stock_out db ++ [stockOut])
           (tbl_stock_out_items db ++
              ((λ item,
                  StockOutItem.mk (StockOut.id stockOut) (StockOutItem.product_type item)
                    (StockOutItem.product_id item) (StockOutItem.batch_date item)
                    (StockOutItem.quantity item) (StockOutItem.unit_price item)
                    (StockOutItem.total_price item))
               <$> exitItems)))
  end.

(** * Vocabulary of the properties *)

(** ** Sums, dates and order *)

Definition Zsum {A} (f : A → Z) (l : list A) : Z :=
  foldr (λ x s, f x + s) 0 l.

Arguments Zsum : simpl never.

Fixpoint underscore_free (s : string) : bool :=
  match s with
  | EmptyString => true
  | String c rest => if decide (c = "_"%char) then false else underscore_free rest
  end.

(** [date_le a b]: [a] is not after [b] in the order of [localeCompare]. *)
Definition date_le (a b : string) : Prop := localeCompare a b ≠ Gt.

(** [x] may stand before [y]: the comparator does not ask to swap them. *)
Definition in_order {A} (cmp : A → A → comparison) (x y : A) : Prop := cmp x y ≠ Gt.

(** ** The emission loop *)

(** [netQty] of a bucket of [batchMap]. *)
Definition net_quantity (exits : gmap string Z) (kv : string * Bucket) : Z :=
  bucket_quantity kv.2 - or_zero (exits !! first_of (split "_" kv.1)).

(** The entry pushed for a bucket that passes [netQty > 0]. *)
Definition batch_of (resolveSupplier : list string → string) (exits : gmap string Z)
    (kv : string * Bucket) : Batch :=
  mkBatch (first_of (split "_" kv.1)) (net_quantity exits kv) (bucket_price kv.2)
          (net_quantity exits kv * bucket_price kv.2)
          (resolveSupplier (bucket_invoiceIds kv.2)).

Definition kept (exits : gmap string Z) (m : list (string * Bucket))
    : list (string * Bucket) :=
  filter (λ kv, 0 < net_quantity exits kv) m.

(** The entries of [batches] before the final [sort]. *)
Definition emitted (db : Database) (warehouseId productId : string)
    (productType : ProductType) : list Batch :=
  batch_of (supplier_of_map db warehouseId)
           (exitMap db warehouseId productId productType)
  <$> kept (exitMap db warehouseId productId productType)
           (batchMap db warehouseId productId productType).

Definition batch_id (b : Batch) : string * Z := (batch_date b, unit_price b).

(** The batch date that the emission loop reads off a key. *)
Definition date_of_key (kv : string * Bucket) : string := first_of (split "_" kv.1).

(** ** The consistency sweep *)

(** The pair of a warehouse and a product is reported. *)
Definition negative_stock (db : Database) (wp : Warehouse.t * Product.t) : Prop :=
  totalQuantity
    (calculateProductStockInWarehouse db (Warehouse.id wp.1) (Product.id wp.2)
       (Product.type wp.2)) < 0.

#[global] Instance negative_stock_dec db wp : Decision (negative_stock db wp).
Proof. unfold negative_stock. apply _. Defined.

(** The issue record pushed for a reported pair. *)
Definition issue_of (db : Database) (wp : Warehouse.t * Product.t) : StockConsistencyIssue :=
  mkIssue (Warehouse.id wp.1) (Warehouse.name wp.1)
          (Product.id wp.2) (Product.code wp.2) (Product.name wp.2) (Product.type wp.2)
          (totalQuantity
             (calculateProductStockInWarehouse db (Warehouse.id wp.1) (Product.id wp.2)
                (Product.type wp.2)))
          "Negative stock detected".

(** ** Receipts and buckets *)

(** The shared shape of the two loop bodies that fill [batchMap]. *)
Definition upsert (m : list (string * Bucket)) (key : string) (price qty : Z)
    (ids : list string → list string) : list (string * Bucket) :=
  let m := if JsMap.has m key then m else JsMap.set m key (mkBucket 0 price []) in
  match JsMap.get m key with
  | Some current =>
      JsMap.set m key
        (mkBucket (bucket_quantity current + qty) (bucket_price current)
                  (ids (bucket_invoiceIds current)))
  | None => m
  end.

(** The bucket that the key holds before the update, or the fresh one. *)
Definition current_bucket (m : list (string * Bucket)) (key : string) (price : Z) : Bucket :=
  match JsMap.get m key with
  | Some current => current
  | None => mkBucket 0 price []
  end.

Record Receipt := mkReceipt {
  r_date : string;
  r_price : Z;
  r_quantity : Z;
  r_invoice : option string
}.

Definition receipt_of_entry (entry : InvoiceItem.t) : Receipt :=
  mkReceipt (InvoiceItem.batch_date entry) (InvoiceItem.unit_price entry)
            (InvoiceItem.quantity entry) (Some (InvoiceItem.invoice_id entry)).

Definition receipt_of_transfer (transfer : TransferItem.t) : Receipt :=
  mkReceipt (TransferItem.batch_date transfer) (TransferItem.unit_price transfer)
            (TransferItem.quantity transfer) None.

Definition receipt_key (r : Receipt) : string := batch_key (r_date r) (r_price r).

Definition add_receipt (m : list (string * Bucket)) (r : Receipt) : list (string * Bucket) :=
  upsert m (receipt_key r) (r_price r) (r_quantity r)
         (match r_invoice r with Some i => set_add i | None => λ ids, ids end).

Definition receipts (db : Database) (warehouseId productId : string)
    (productType : ProductType) : list Receipt :=
  (receipt_of_entry <$> or_empty (entries db warehouseId productId productType))
  ++ (receipt_of_transfer <$> or_empty (transferItemsIn db warehouseId productId productType)).

Definition quantity_at (m : list (string * Bucket)) (k : string) : Z :=
  match JsMap.get m k with
  | Some b => bucket_quantity b
  | None => 0
  end.

(** Where a bucket comes from: its key and price are those of a receipt, and
    each of its invoice ids is the invoice of a receipt. *)
Definition bucket_from (rs : list Receipt) (k : string) (b : Bucket) : Prop :=
  (∃ r, r ∈ rs ∧ k = receipt_key r ∧ bucket_price b = r_price r)
  ∧ ∀ i, i ∈ bucket_invoiceIds b → ∃ r, r ∈ rs ∧ r_invoice r = Some i.

(** ** Quantities of the ledger *)

(** Rows of a [date] column hold no underscore. *)
Definition well_dated (db : Database) : Prop :=
  Forall (λ it, underscore_free (InvoiceItem.batch_date it) = true) (tbl_invoice_items db)
  ∧ Forall (λ it, underscore_free (TransferItem.batch_date it) = true) (tbl_transfer_items db).

#[global] Instance well_dated_dec db : Decision (well_dated db).
Proof. unfold well_dated. apply _. Defined.

Section ledger_quantities.
Context (db : Database) (warehouseId productId : string) (productType : ProductType).

(** Quantity received in the batch of date [d] and price [price]: lines of the
    active invoices of the warehouse and lines of the transfers into it. *)
Definition received (d : string) (price : Z) : Z :=
  Zsum InvoiceItem.quantity
       (filter (λ it, InvoiceItem.batch_date it = d ∧ InvoiceItem.unit_price it = price)
               (or_empty (entries db warehouseId productId productType)))
  + Zsum TransferItem.quantity
         (filter (λ it, TransferItem.batch_date it = d ∧ TransferItem.unit_price it = price)
                 (or_empty (transferItemsIn db warehouseId productId productType))).

(** Quantity taken out under the batch date [d], whatever the price: lines of
    the fetched stock-outs and lines of the transfers out of the warehouse. *)
Definition decreased (d : string) : Z :=
  Zsum StockOutItem.quantity
       (filter (λ it, StockOutItem.batch_date it = d)
               (or_empty (stockOutItems db warehouseId productId productType)))
  + Zsum TransferItem.quantity
         (filter (λ it, TransferItem.batch_date it = d)
                 (or_empty (transferItemsOut db warehouseId productId productType))).

(** Some increase event carries the date [d] and the price [price]. *)
Definition has_receipt (d : string) (price : Z) : Prop :=
  ∃ r, r ∈ receipts db warehouseId productId productType
       ∧ r_date r = d ∧ r_price r = price.
End ledger_quantities.

Section signed_sums.
Context (db : Database) (warehouseId productId : string) (productType : ProductType).

(** The lines of every stock-out document of the warehouse, whatever its
    reason, for the product. *)
Definition all_stock_out_lines : list StockOutItem.t :=
  filter (λ it, StockOutItem.product_type it = productType
                ∧ StockOutItem.product_id it = productId
                ∧ StockOutItem.stockout_id it
                  ∈ (StockOut.id <$> filter (λ so, StockOut.warehouse_id so = warehouseId)
                                            (tbl_stock_out db)))
         (tbl_stock_out_items db).

(** The signed sum in the words of the specification: invoice lines and
    transfer-in lines count positive, transfer-out lines and all stock-out
    lines count negative. *)
Definition claimed_signed_sum : Z :=
  Zsum InvoiceItem.quantity (or_empty (entries db warehouseId productId productType))
  + Zsum TransferItem.quantity (or_empty (transferItemsIn db warehouseId productId productType))
  - Zsum TransferItem.quantity (or_empty (transferItemsOut db warehouseId productId productType))
  - Zsum StockOutItem.quantity all_stock_out_lines.

(** The signed sum of the events that the computation fetches: the stock-out
    lines are those of the documents whose reason is not [transfer]. *)
Definition fetched_signed_sum : Z :=
  Zsum InvoiceItem.quantity (or_empty (entries db warehouseId productId productType))
  + Zsum TransferItem.quantity (or_empty (transferItemsIn db warehouseId productId productType))
  - Zsum TransferItem.quantity (or_empty (transferItemsOut db warehouseId productId productType))
  - Zsum StockOutItem.quantity (or_empty (stockOutItems db warehouseId productId productType)).

(** All the receipts of one batch date carry one unit price. *)
Definition one_price_per_date : Prop :=
  ∀ r1 r2,
    r1 ∈ receipts db warehouseId productId productType →
    r2 ∈ receipts db warehouseId productId productType →
    r_date r1 = r_date r2 → r_price r1 = r_price r2.

(** Every fetched decrease line carries the batch date of a receipt. *)
Definition decreases_dated_by_receipts : Prop :=
  (∀ it, it ∈ or_empty (stockOutItems db warehouseId productId productType) →
     ∃ r, r ∈ receipts db warehouseId productId productType
          ∧ r_date r = StockOutItem.batch_date it)
  ∧ (∀ it, it ∈ or_empty (transferItemsOut db warehouseId productId productType) →
       ∃ r, r ∈ receipts db warehouseId productId productType
            ∧ r_date r = TransferItem.batch_date it).

(** The decreases of a batch date do not exceed what its batch received. *)
Definition decreases_covered : Prop :=
  ∀ d price,
    has_receipt db warehouseId productId productType d price →
    decreased db warehouseId productId productType d
    ≤ received db warehouseId productId productType d price.
End signed_sums.

(** ** Changes of the ledger *)

(** The snapshot with another [stock_out] table. *)
Definition with_stock_out (db : Database) (rows : list StockOut.t) : Database :=
  mkDatabase (tbl_warehouses db) (tbl_reagents db) (tbl_consumables db)
    (tbl_invoices db) (tbl_invoice_items db) (tbl_transfers db) (tbl_transfer_items db)
    rows (tbl_stock_out_items db).

(** The same stock-out document under another reason tag. *)
Definition retag (tag : StockOut.t → string) (so : StockOut.t) : StockOut.t :=
  StockOut.mk (StockOut.id so) (StockOut.warehouse_id so) (StockOut.date so) (tag so)
              (StockOut.total_amount so) (StockOut.transfer_id so).

(** The snapshot after the four inserts of [handleSubmit]. *)
Definition after_transfer (db : Database) (transfer : Transfer.t) (line : TransferItem.t)
    (stockOut : StockOut.t) (exitLine : StockOutItem.t) : Database :=
  mkDatabase (tbl_warehouses db) (tbl_reagents db) (tbl_consumables db)
    (tbl_invoices db) (tbl_invoice_items db)
    (tbl_transfers db ++ [transfer]) (tbl_transfer_items db ++ [line])
    (tbl_stock_out db ++ [stockOut]) (tbl_stock_out_items db ++ [exitLine]).

(** The ids that the store generates are new: no transfer and no stock-out
    carries them, and (foreign keys) no line refers to them. *)
Definition fresh_ids (db : Database) (transfer_id stockout_id : string) : Prop :=
  (transfer_id ∉ Transfer.id <$> tbl_transfers db)
  ∧ (∀ it, it ∈ tbl_transfer_items db → TransferItem.transfer_id it ≠ transfer_id)
  ∧ stockout_id ∉ (StockOut.id <$> tbl_stock_out db).

(** ** Example ledgers *)

(** One active invoice at [W1] with two lines of product [P1] on the same
    batch date at two prices, and one consumption of 4 units under that
    date. *)
Definition ledger_two_prices : Database :=
  mkDatabase
    (Some [Warehouse.mk "W1" "Main"]) (Some [CatalogRow.mk "P1" "R-001" "Buffer"]) (Some [])
    [Invoice.mk "I1" "Acme" "W1" "active"]
    [InvoiceItem.mk "I1" reagent "P1" 10 5 "2024-01-10";
     InvoiceItem.mk "I1" reagent "P1" 10 6 "2024-01-10"]
    [] []
    [StockOut.mk "S1" "W1" "2024-01-20" "consumption" 20 None]
    [StockOutItem.mk "S1" reagent "P1" "2024-01-10" 4 5 20].

(** As [ledger_two_prices], with 3 units received at the second price and 3
    units taken out under the batch date. *)
Definition ledger_small_batch : Database :=
  mkDatabase
    (Some [Warehouse.mk "W1" "Main"]) (Some [CatalogRow.mk "P1" "R-001" "Buffer"]) (Some [])
    [Invoice.mk "I1" "Acme" "W1" "active"]
    [InvoiceItem.mk "I1" reagent "P1" 10 5 "2024-01-10";
     InvoiceItem.mk "I1" reagent "P1" 3 6 "2024-01-10"]
    [] []
    [StockOut.mk "S1" "W1" "2024-01-20" "consumption" 15 None]
    [StockOutItem.mk "S1" reagent "P1" "2024-01-10" 3 5 15].

(** The ledger of the example scenario of the specification: [W1] holds 100
    units of [P1] from one active invoice line. *)
Definition ledger_example : Database :=
  mkDatabase
    (Some [Warehouse.mk "W1" "Main"; Warehouse.mk "W2" "Branch"])
    (Some [CatalogRow.mk "P1" "R-001" "Buffer"]) (Some [])
    [Invoice.mk "I1" "Acme" "W1" "active"]
    [InvoiceItem.mk "I1" reagent "P1" 100 5 "2024-01-10"]
    [] [] [] [].

(** 100 units received at [W1], and one stock-out document of 30 units under
    the batch date, tagged [reason]. *)
Definition ledger_with_reason (reason : string) : Database :=
  mkDatabase
    (Some [Warehouse.mk "W1" "Main"]) (Some [CatalogRow.mk "P1" "R-001" "Buffer"]) (Some [])
    [Invoice.mk "I1" "Acme" "W1" "active"]
    [InvoiceItem.mk "I1" reagent "P1" 100 5 "2024-01-10"]
    [] []
    [StockOut.mk "S1" "W1" "2024-01-15" reason 150 None]
    [StockOutItem.mk "S1" reagent "P1" "2024-01-10" 30 5 150].

(** The transfer form after [W1] has been chosen as the source, the only row
    has been selected and its quantity set to 30, with [W2] as destination
    and the transfer dated 2024-01-15. *)
Definition example_form : TransferForm :=
  mkForm "W1" "W2" "2024-01-15"
    (updateTransferQuantity 0 30 (toggleSelection 0 (loadWarehouseStock ledger_example "W1"))).

(** The ledger after the submission of [example_form]. *)
Definition ledger_after_transfer : Database :=
  mkDatabase
    (Some [Warehouse.mk "W1" "Main"; Warehouse.mk "W2" "Branch"])
    (Some [CatalogRow.mk "P1" "R-001" "Buffer"]) (Some [])
    [Invoice.mk "I1" "Acme" "W1" "active"]
    [InvoiceItem.mk "I1" reagent "P1" 100 5 "2024-01-10"]
    [Transfer.mk "T1" "W1" "W2" "2024-01-15" 150]
    [TransferItem.mk "T1" reagent "P1" "2024-01-10" 30 5 150]
    [StockOut.mk "S1" "W1" "2024-01-15" "transfer" 150 (Some "T1")]
    [StockOutItem.mk "S1" reagent "P1" "2024-01-10" 30 5 150].

(** 100 units received at [W1] and a loss of 5 units posted by an inventory
    count: the line of the loss carries the date of the count. *)
Definition ledger_inventory_loss : Database :=
  mkDatabase
    (Some [Warehouse.mk "W1" "Main"]) (Some [CatalogRow.mk "P1" "R-001" "Buffer"]) (Some [])
    [Invoice.mk "I1" "Acme" "W1" "active"]
    [InvoiceItem.mk "I1" reagent "P1" 100 5 "2024-01-10"]
    [] []
    [StockOut.mk "S1" "W1" "2024-02-01" "inventory_loss" 25 None]
    [StockOutItem.mk "S1" reagent "P1" "2024-02-01" 5 5 25].

(** [W1] holds two batches of [P1] of one date at two prices. *)
Definition ledger_same_date : Database :=
  mkDatabase
    (Some [Warehouse.mk "W1" "Main"; Warehouse.mk "W2" "Branch"])
    (Some [CatalogRow.mk "P1" "R-001" "Buffer"]) (Some [])
    [Invoice.mk "I1" "Acme" "W1" "active"]
    [InvoiceItem.mk "I1" reagent "P1" 10 5 "2024-01-10";
     InvoiceItem.mk "I1" reagent "P1" 10 6 "2024-01-10"]
    [] [] [] [].

(** The form with the first of the two rows selected for 3 units. *)
Definition form_same_date : TransferForm :=
  mkForm "W1" "W2" "2024-01-15"
    (updateTransferQuantity 0 3 (toggleSelection 0 (loadWarehouseStock ledger_same_date "W1"))).

Definition ledger_same_date_after : Database :=
  after_transfer ledger_same_date
    (Transfer.mk "T1" "W1" "W2" "2024-01-15" 15)
    (TransferItem.mk "T1" reagent "P1" "2024-01-10" 3 5 15)
    (StockOut.mk "S1" "W1" "2024-01-15" "transfer" 15 (Some "T1"))
    (StockOutItem.mk "S1" reagent "P1" "2024-01-10" 3 5 15).

(** The only row of [example_form]. *)
Definition example_row : TransferRow.t :=
  TransferRow.mk "P1" "R-001" "Buffer" reagent "2024-01-10" "Acme" 100 5 500 true 30.

(** ** The CHECK constraints of the schema *)

(** [quantity > 0] and [unit_price >= 0] on the three line tables. *)
Definition checked_ledger (db : Database) : Prop :=
  Forall (λ it, 0 < InvoiceItem.quantity it ∧ 0 ≤ InvoiceItem.unit_price it)
         (tbl_invoice_items db)
  ∧ Forall (λ it, 0 < TransferItem.quantity it ∧ 0 ≤ TransferItem.unit_price it)
           (tbl_transfer_items db)
  ∧ Forall (λ it, 0 < StockOutItem.quantity it ∧ 0 ≤ StockOutItem.unit_price it)
           (tbl_stock_out_items db).

#[global] Instance checked_ledger_dec db : Decision (checked_ledger db).
Proof. unfold checked_ledger. apply _. Defined.

(** ** Batches of the ledger *)

(** The batch (date and price) that a receipt counts for. *)
Definition receipt_batch (r : Receipt) : string * Z := (r_date r, r_price r).

(** The batch that a bucket of [batchMap] stands for, as the emission loop
    reads it. *)
Definition bucket_batch (kv : string * Bucket) : string * Z :=
  (date_of_key kv, bucket_price kv.2).

(** What the computation shows of the batch [x]: what it received, less all
    the decreases of its date, and nothing when this is not positive. *)
Definition stock_of_batch (db : Database) (warehouseId productId : string)
    (productType : ProductType) (x : string * Z) : Z :=
  Z.max 0 (received db warehouseId productId productType x.1 x.2
           - decreased db warehouseId productId productType x.1).

(** ** [components/WarehouseTransfer.tsx]: the other handlers of the form *)

(** [toggleSelectAll].  [matches] is the test of the search box on a row
    ([toLowerCase] and [includes] on the code and the name of the product). *)
Definition toggleSelectAll (matches : TransferRow.t → bool)
    (availableStock : list TransferRow.t) : list TransferRow.t :=
  let filteredItems := filter (λ stock, matches stock = true) availableStock in
  let allSelected := forallb TransferRow.selected filteredItems in
  (λ item,
     let isInFiltered :=
       existsb (λ f, bool_decide (TransferRow.product_id f = TransferRow.product_id item
                                  ∧ TransferRow.batch_date f = TransferRow.batch_date item))
               filteredItems in
     if isInFiltered then
       set_selection item (negb allSelected)
         (if negb allSelected then TransferRow.quantity item else 0)
     else item)
  <$> availableStock.

(** The stock lists that the handlers of the form reach from the list
    loaded for the source warehouse. *)
Inductive form_rows (db : Database) (fromWarehouse : string) : list TransferRow.t → Prop :=
  | rows_loaded : form_rows db fromWarehouse (loadWarehouseStock db fromWarehouse)
  | rows_toggled index rows :
      form_rows db fromWarehouse rows →
      form_rows db fromWarehouse (toggleSelection index rows)
  | rows_toggled_all matches rows :
      form_rows db fromWarehouse rows →
      form_rows db fromWarehouse (toggleSelectAll matches rows)
  | rows_updated index quantity rows :
      form_rows db fromWarehouse rows →
      form_rows db fromWarehouse (updateTransferQuantity index quantity rows).

(** The line of [transferItems] and the line of [exitItems], with the id of
    its stock-out filled in, that [handleSubmit] builds for a selected row. *)
Definition transfer_line (transfer_id : string) (item : TransferRow.t) : TransferItem.t :=
  TransferItem.mk transfer_id (TransferRow.product_type item) (TransferRow.product_id item)
    (TransferRow.batch_date item) (TransferRow.transfer_quantity item)
    (TransferRow.unit_price item)
    (TransferRow.transfer_quantity item * TransferRow.unit_price item).

Definition exit_line (stockout_id : string) (item : TransferRow.t) : StockOutItem.t :=
  StockOutItem.mk stockout_id (TransferRow.product_type item) (TransferRow.product_id item)
    (TransferRow.batch_date item) (TransferRow.transfer_quantity item)
    (TransferRow.unit_price item)
    (TransferRow.transfer_quantity item * TransferRow.unit_price item).

(** The row shows a batch of the computed stock of the source warehouse. *)
Definition shows_batch (db : Database) (fromWarehouse : string) (row : TransferRow.t) : Prop :=
  ∃ b, b ∈ batches (calculateProductStockInWarehouse db fromWarehouse
                      (TransferRow.product_id row) (TransferRow.product_type row))
       ∧ batch_date b = TransferRow.batch_date row
       ∧ unit_price b = TransferRow.unit_price row
       ∧ quantity b = TransferRow.quantity row.

(** What the handlers keep of a row. *)
Definition row_within (db : Database) (A : string) (row : TransferRow.t) : Prop :=
  shows_batch db A row ∧ 0 < TransferRow.quantity row
  ∧ TransferRow.transfer_quantity row ≤ TransferRow.quantity row.

(** The selected rows of the form for one product. *)
Definition selected_of (form : TransferForm) (productId : string) (productType : ProductType)
    : list TransferRow.t :=
  filter (λ item, TransferRow.product_type item = productType
                  ∧ TransferRow.product_id item = productId)
         (selectedItems form).

(** The products that [loadWarehouseStock] walks through. *)
Definition listed_products (db : Database) : list Product.t :=
  allProducts (or_empty (order_by_code (tbl_reagents db)))
              (or_empty (order_by_code (tbl_consumables db))).

(** The row pushed for a batch of a product. *)
Definition row_of_batch (product : Product.t) (batch : Batch) : TransferRow.t :=
  TransferRow.mk (Product.id product) (Product.code product) (Product.name product)
    (Product.type product) (batch_date batch) (supplier batch)
    (quantity batch) (unit_price batch) (total_price batch) false 0.

(** The ids of a catalogue table are a primary key. *)
Definition catalogue_keyed (db : Database) : Prop :=
  NoDup (CatalogRow.id <$> or_empty (tbl_reagents db))
  ∧ NoDup (CatalogRow.id <$> or_empty (tbl_consumables db)).

(** ** [components/WarehouseEntry.tsx] *)

Module ProductRow.
Record t := mk {
  id : string;
  product_type : ProductType;
  product_id : string;
  product_code : string;
  product_name : string;
  quantity : Z;
  unit_price : Z;
  total_price : Z
}.
End ProductRow.

Module WarehouseEntry.

(** The part of the component state that [handleSubmit] reads. *)
Record Form := mk {
  selectedWarehouse : string;
  invoiceCode : string;
  supplier : string;
  date : string;
  rows : list ProductRow.t
}.

(** [addRow]; [uuid] is the value of [crypto.randomUUID()]. *)
Definition addRow (uuid : string) (rows : list ProductRow.t) : list ProductRow.t :=
  rows ++ [ProductRow.mk uuid reagent EmptyString EmptyString EmptyString 0 0 0].

(** The arguments [field] and [value] of [updateRow]: a field of [ProductRow]
    with a value of the type of the field. *)
Inductive FieldValue :=
  | field_id (value : string)
  | field_product_type (value : ProductType)
  | field_product_id (value : string)
  | field_product_code (value : string)
  | field_product_name (value : string)
  | field_quantity (value : Z)
  | field_unit_price (value : Z)
  | field_total_price (value : Z).

(** [{ ...row, [field]: value }] *)
Definition assign (row : ProductRow.t) (fv : FieldValue) : ProductRow.t :=
  match fv with
  | field_id value =>
      ProductRow.mk value (ProductRow.product_type row) (ProductRow.product_id row)
        (ProductRow.product_code row) (ProductRow.product_name row)
        (ProductRow.quantity row) (ProductRow.unit_price row) (ProductRow.total_price row)
  | field_product_type value =>
      ProductRow.mk (ProductRow.id row) value (ProductRow.product_id row)
        (ProductRow.product_code row) (ProductRow.product_name row)
        (ProductRow.quantity row) (ProductRow.unit_price row) (ProductRow.total_price row)
  | field_product_id value =>
      ProductRow.mk (ProductRow.id row) (ProductRow.product_type row) value
        (ProductRow.product_code row) (ProductRow.product_name row)
        (ProductRow.quantity row) (ProductRow.unit_price row) (ProductRow.total_price row)
  | field_product_code value =>
      ProductRow.mk (ProductRow.id row) (ProductRow.product_type row)
        (ProductRow.product_id row) value (ProductRow.product_name row)
        (ProductRow.quantity row) (ProductRow.unit_price row) (ProductRow.total_price row)
  | field_product_name value =>
      ProductRow.mk (ProductRow.id row) (ProductRow.product_type row)
        (ProductRow.product_id row) (ProductRow.product_code row) value
        (ProductRow.quantity row) (ProductRow.unit_price row) (ProductRow.total_price row)
  | field_quantity value =>
      ProductRow.mk (ProductRow.id row) (ProductRow.product_type row)
        (ProductRow.product_id row) (ProductRow.product_code row)
        (ProductRow.product_name row) value (ProductRow.unit_price row)
        (ProductRow.total_price row)
  | field_unit_price value =>
      ProductRow.mk (ProductRow.id row) (ProductRow.product_type row)
        (ProductRow.product_id row) (ProductRow.product_code row)
        (ProductRow.product_name row) (ProductRow.quantity row) value
        (ProductRow.total_price row)
  | field_total_price value =>
      ProductRow.mk (ProductRow.id row) (ProductRow.product_type row)
        (ProductRow.product_id row) (ProductRow.product_code row)
        (ProductRow.product_name row) (ProductRow.quantity row)
        (ProductRow.unit_price row) value
  end.

(** The three assignments [updated.product_id = ''], [updated.product_code =
    ''], [updated.product_name = '']. *)
Definition clear_product (updated : ProductRow.t) : ProductRow.t :=
  ProductRow.mk (ProductRow.id updated) (ProductRow.product_type updated)
    EmptyString EmptyString EmptyString
    (ProductRow.quantity updated) (ProductRow.unit_price updated)
    (ProductRow.total_price updated).

(** [updated.product_code = product.code; updated.product_name = product.name] *)
Definition name_product (updated : ProductRow.t) (product : CatalogRow.t) : ProductRow.t :=
  ProductRow.mk (ProductRow.id updated) (ProductRow.product_type updated)
    (ProductRow.product_id updated) (CatalogRow.code product) (CatalogRow.name product)
    (ProductRow.quantity updated) (ProductRow.unit_price updated)
    (ProductRow.total_price updated).

(** [updated.total_price = Number(updated.quantity) * Number(updated.unit_price)] *)
Definition price_row (updated : ProductRow.t) : ProductRow.t :=
  ProductRow.mk (ProductRow.id updated) (ProductRow.product_type updated)
    (ProductRow.product_id updated) (ProductRow.product_code updated)
    (ProductRow.product_name updated)
    (ProductRow.quantity updated) (ProductRow.unit_price updated)
    (ProductRow.quantity updated * ProductRow.unit_price updated).

(** The body of the [map] of [updateRow] on a row whose id is [id].
    [reagents] and [consumables] are the catalogue rows that [loadData] has
    stored in the state of the component. *)
Definition update_row (reagents consumables : list CatalogRow.t) (fv : FieldValue)
    (row : ProductRow.t) : ProductRow.t :=
  let updated := assign row fv in
  let updated :=
    match fv with
    | field_product_type _ | field_product_id _ =>
        let updated :=
          match fv with
          | field_product_type _ => clear_product updated
          | _ => updated
          end in
        if decide (ProductRow.product_id updated ≠ EmptyString) then
          let products :=
            match ProductRow.product_type updated with
            | reagent => reagents
            | consumable => consumables
            end in
          match List.find (λ p, bool_decide (CatalogRow.id p = ProductRow.product_id updated))
                          products with
          | Some product => name_product updated product
          | None => updated
          end
        else updated
    | _ => updated
    end in
  match fv with
  | field_quantity _ | field_unit_price _ => price_row updated
  | _ => updated
  end.

Definition updateRow (reagents consumables : list CatalogRow.t)
    (id : string) (fv : FieldValue) (rows : list ProductRow.t) : list ProductRow.t :=
  (λ row, if decide (ProductRow.id row ≠ id) then row
          else update_row reagents consumables fv row) <$> rows.

Definition removeRow (id : string) (rows : list ProductRow.t) : list ProductRow.t :=
  filter (λ row, ProductRow.id row ≠ id) rows.

Inductive Outcome :=
  | MissingData
  | InvalidRows
  | Saved (db : Database).

Definition invalidRows (form : Form) : list ProductRow.t :=
  filter (λ r, ProductRow.product_id r = EmptyString ∨ ProductRow.quantity r ≤ 0
               ∨ ProductRow.unit_price r < 0)
         (rows form).

(** [handleSubmit] on the path on which the store accepts both inserts.
    [invoice_id] is the id that the store generates for the new invoice; its
    [status] is the default of the column, [active].  The columns
    [invoice_code] and [date] of an invoice and [total_price] of an invoice
    line, which the stock computation does not read, are not part of the
    records of the ledger. *)
Definition handleSubmit (form : Form) (db : Database) (invoice_id : string) : Outcome :=
  if decide (selectedWarehouse form = EmptyString ∨ invoiceCode form = EmptyString
             ∨ supplier form = EmptyString ∨ length (rows form) = 0%nat)
  then MissingData
  else if decide (0 < length (invalidRows form))%nat then InvalidRows
  else
    let invoice :=
      Invoice.mk invoice_id (supplier form) (selectedWarehouse form) "active" in
    let items :=
      (λ row, InvoiceItem.mk (Invoice.id invoice) (ProductRow.product_type row)
                (ProductRow.product_id row) (ProductRow.quantity row)
                (ProductRow.unit_price row) (date form))
      <$> rows form in
    Saved
      (mkDatabase (tbl_warehouses db) (tbl_reagents db) (tbl_consumables db)
         (tbl_invoices db ++ [invoice]) (tbl_invoice_items db ++ items)
         (tbl_transfers db) (tbl_transfer_items db)
         (tbl_stock_out db) (tbl_stock_out_items db)).

End WarehouseEntry.

(** The row lists that the buttons and inputs of the entry form reach: rows
    are added and removed, and the inputs call [updateRow] for the product
    type, the product, the quantity and the unit price. *)
Inductive entry_rows (reagents consumables : list CatalogRow.t)
    : list ProductRow.t → Prop :=
  | no_rows : entry_rows reagents consumables []
  | row_added uuid rows :
      entry_rows reagents consumables rows →
      entry_rows reagents consumables (WarehouseEntry.addRow uuid rows)
  | row_removed id rows :
      entry_rows reagents consumables rows →
      entry_rows reagents consumables (WarehouseEntry.removeRow id rows)
  | row_typed id value rows :
      entry_rows reagents consumables rows →
      entry_rows reagents consumables
        (WarehouseEntry.updateRow reagents consumables id
           (WarehouseEntry.field_product_type value) rows)
  | row_product id value rows :
      entry_rows reagents consumables rows →
      entry_rows reagents consumables
        (WarehouseEntry.updateRow reagents consumables id
           (WarehouseEntry.field_product_id value) rows)
  | row_quantity id value rows :
      entry_rows reagents consumables rows →
      entry_rows reagents consumables
        (WarehouseEntry.updateRow reagents consumables id
           (WarehouseEntry.field_quantity value) rows)
  | row_priced id value rows :
      entry_rows reagents consumables rows →
      entry_rows reagents consumables
        (WarehouseEntry.updateRow reagents consumables id
           (WarehouseEntry.field_unit_price value) rows).

(** The catalogue row that [updateRow] finds for a row of the form. *)
Definition found_product (reagents consumables : list CatalogRow.t) (row : ProductRow.t)
    : option CatalogRow.t :=
  List.find (λ p, bool_decide (CatalogRow.id p = ProductRow.product_id row))
            (match ProductRow.product_type row with
             | reagent => reagents
             | consumable => consumables
             end).

(** A row carries the amount of its quantity and price, and the code and the
    name of the product it names. *)
Definition row_consistent (reagents consumables : list CatalogRow.t) (row : ProductRow.t)
    : Prop :=
  ProductRow.total_price row = ProductRow.quantity row * ProductRow.unit_price row
  ∧ (ProductRow.product_id row ≠ EmptyString →
     ∀ product, found_product reagents consumables row = Some product →
       ProductRow.product_code row = CatalogRow.code product
       ∧ ProductRow.product_name row = CatalogRow.name product).

(** The invoice line that [handleSubmit] builds for a row. *)
Definition entry_line (invoice_id date : string) (row : ProductRow.t) : InvoiceItem.t :=
  InvoiceItem.mk invoice_id (ProductRow.product_type row) (ProductRow.product_id row)
    (ProductRow.quantity row) (ProductRow.unit_price row) date.

(** The rows of the form for one product. *)
Definition rows_of (form : WarehouseEntry.Form) (productId : string)
    (productType : ProductType) : list ProductRow.t :=
  filter (λ row, ProductRow.product_type row = productType
                 ∧ ProductRow.product_id row = productId)
         (WarehouseEntry.rows form).

(** The id that the store generates for an invoice is new: no invoice
    carries it and (foreign key) no invoice line refers to it. *)
Definition fresh_invoice_id (db : Database) (invoice_id : string) : Prop :=
  (invoice_id ∉ Invoice.id <$> tbl_invoices db)
  ∧ ∀ it, it ∈ tbl_invoice_items db → InvoiceItem.invoice_id it ≠ invoice_id.

(** The entry form after a row has been added and filled with 20 units of
    [P1] at the price 5, for an invoice of [W1] dated 2024-02-01. *)
Definition entry_form_example : WarehouseEntry.Form :=
  let catalogue := [CatalogRow.mk "P1" "R-001" "Buffer"] in
  WarehouseEntry.mk "W1" "Q-002" "Acme" "2024-02-01"
    (WarehouseEntry.updateRow catalogue [] "u1" (WarehouseEntry.field_unit_price 5)
       (WarehouseEntry.updateRow catalogue [] "u1" (WarehouseEntry.field_quantity 20)
          (WarehouseEntry.updateRow catalogue [] "u1" (WarehouseEntry.field_product_id "P1")
             (WarehouseEntry.addRow "u1" [])))).

(** [ledger_example] after the submission of [entry_form_example]. *)
Definition ledger_after_entry : Database :=
  mkDatabase
    (Some [Warehouse.mk "W1" "Main"; Warehouse.mk "W2" "Branch"])
    (Some [CatalogRow.mk "P1" "R-001" "Buffer"]) (Some [])
    [Invoice.mk "I1" "Acme" "W1" "active"; Invoice.mk "I2" "Acme" "W1" "active"]
    [InvoiceItem.mk "I1" reagent "P1" 100 5 "2024-01-10";
     InvoiceItem.mk "I2" reagent "P1" 20 5 "2024-02-01"]
    [] [] [] [].

(** ** [components/InventoryCount.tsx] *)

Module CountRow.
Record t := mk {
  product_id : string;
  product_code : string;
  product_name : string;
  product_type : ProductType;
  system_qty : Z;
  real_qty : Z;
  loss_qty : Z;
  loss_amount : Z;
  unit_price : Z
}.
End CountRow.

(** Rows of the tables [inventory_count] and [inventory_count_items]. *)
Module Count.
Record t := mk {
  id : string;
  warehouse_id : string;
  date : string;
  count_code : string;
  total_loss_amount : Z
}.
End Count.

Module CountItem.
Record t := mk {
  count_id : string;
  product_type : ProductType;
  product_id : string;
  system_qty : Z;
  real_qty : Z;
  loss_qty : Z;
  loss_amount : Z
}.
End CountItem.

Module InventoryCount.

(** The part of the component state that [handleSubmit] reads. *)
Record Form := mk {
  selectedWarehouse : string;
  date : string;
  countCode : string;
  countRows : list CountRow.t
}.

(** The ledger together with the two tables of the counts. *)
Record Store := mkStore {
  ledger : Database;
  tbl_inventory_count : list Count.t;
  tbl_inventory_count_items : list CountItem.t
}.

Definition updateRealQty (productId : string) (realQty : Z) (countRows : list CountRow.t)
    : list CountRow.t :=
  (λ row,
     if decide (CountRow.product_id row ≠ productId) then row
     else
       let lossQty := CountRow.system_qty row - realQty in
       let lossAmount := lossQty * CountRow.unit_price row in
       CountRow.mk (CountRow.product_id row) (CountRow.product_code row)
         (CountRow.product_name row) (CountRow.product_type row)
         (CountRow.system_qty row) realQty lossQty lossAmount (CountRow.unit_price row))
  <$> countRows.

Inductive Outcome :=
  | NoList
  | NoCode
  | Saved (store : Store).

(** [handleSubmit] on the path on which the store accepts every insert.
    [count_id] and [stockout_id] are the ids that the store generates for the
    new [inventory_count] and [stock_out] rows. *)
Definition handleSubmit (form : Form) (store : Store) (count_id stockout_id : string)
    : Outcome :=
  if decide (selectedWarehouse form = EmptyString ∨ length (countRows form) = 0%nat)
  then NoList
  else if decide (countCode form = EmptyString) then NoCode
  else
    let db := ledger store in
    let totalLossAmount :=
      foldl (λ sum row, sum + CountRow.loss_amount row) 0 (countRows form) in
    let count :=
      Count.mk count_id (selectedWarehouse form) (date form) (countCode form)
               totalLossAmount in
    let items :=
      (λ row, CountItem.mk (Count.id count) (CountRow.product_type row)
                (CountRow.product_id row) (CountRow.system_qty row)
                (CountRow.real_qty row) (CountRow.loss_qty row)
                (CountRow.loss_amount row))
      <$> countRows form in
    let lossItems := filter (λ row, 0 < CountRow.loss_qty row) (countRows form) in
    let db :=
      if decide (0 < length lossItems)%nat then
        let lossAmount := foldl (λ sum row, sum + CountRow.loss_amount row) 0 lossItems in
        let stockOut :=
          StockOut.mk stockout_id (selectedWarehouse form) (date form) "inventory_loss"
                      lossAmount None in
        mkDatabase (tbl_warehouses db) (tbl_reagents db) (tbl_consumables db)
          (tbl_invoices db) (tbl_invoice_items db)
          (tbl_transfers db) (tbl_transfer_items db)
          (tbl_stock_out db ++ [stockOut])
          (tbl_stock_out_items db ++
             ((λ row,
                 StockOutItem.mk (StockOut.id stockOut) (CountRow.product_type row)
                   (CountRow.product_id row) (date form) (CountRow.loss_qty row)
                   (CountRow.unit_price row) (CountRow.loss_amount row))
              <$> lossItems))
      else db in
    Saved (mkStore db (tbl_inventory_count store ++ [count])
                   (tbl_inventory_count_items store ++ items)).

End InventoryCount.

(** The rows of a count that record a loss. *)
Definition lossItems (form : InventoryCount.Form) : list CountRow.t :=
  filter (λ row, 0 < CountRow.loss_qty row) (InventoryCount.countRows form).

(** The rows of a count that record a loss of one product. *)
Definition losses_of (form : InventoryCount.Form) (productId : string)
    (productType : ProductType) : list CountRow.t :=
  filter (λ row, CountRow.product_type row = productType
                 ∧ CountRow.product_id row = productId)
         (lossItems form).

(** The stock-out line that [handleSubmit] builds for a row with a loss. *)
Definition loss_line (stockout_id date : string) (row : CountRow.t) : StockOutItem.t :=
  StockOutItem.mk stockout_id (CountRow.product_type row) (CountRow.product_id row) date
    (CountRow.loss_qty row) (CountRow.unit_price row) (CountRow.loss_amount row).

(** The id that the store generates for a stock-out is new: no stock-out
    carries it and (foreign key) no stock-out line refers to it. *)
Definition fresh_stockout_id (db : Database) (stockout_id : string) : Prop :=
  (stockout_id ∉ StockOut.id <$> tbl_stock_out db)
  ∧ ∀ it, it ∈ tbl_stock_out_items db → StockOutItem.stockout_id it ≠ stockout_id.

(** The row lists that the inputs of the count form reach from a loaded
    list, on which nothing is lost: the real quantity of a product is
    typed in. *)
Inductive count_rows (loaded : list CountRow.t) : list CountRow.t → Prop :=
  | count_loaded : count_rows loaded loaded
  | count_typed productId realQty rows :
      count_rows loaded rows →
      count_rows loaded (InventoryCount.updateRealQty productId realQty rows).

(** 100 units of [P1] received at [W1] on 2024-01-10, before a count. *)
Definition ledger_before_count : Database :=
  mkDatabase
    (Some [Warehouse.mk "W1" "Main"]) (Some [CatalogRow.mk "P1" "R-001" "Buffer"]) (Some [])
    [Invoice.mk "I1" "Acme" "W1" "active"]
    [InvoiceItem.mk "I1" reagent "P1" 100 5 "2024-01-10"]
    [] [] [] [].

(** The count of 2024-02-01 at [W1] in which 95 of the 100 units of [P1] are
    found. *)
Definition count_form_example : InventoryCount.Form :=
  InventoryCount.mk "W1" "2024-02-01" "COUNT-2024-001"
    (InventoryCount.updateRealQty "P1" 95
       [CountRow.mk "P1" "R-001" "Buffer" reagent 100 100 0 0 5]).

(** ** [components/InvoiceList.tsx] *)

Module InvoiceList.

Inductive Outcome :=
  | NotConfirmed
  | NoItems
  | Insufficient (item : InvoiceItem.t)
  | Returned (db : Database).

(** [.update({ status: 'returned' }).eq('id', id)] on a row of [invoices]. *)
Definition mark_returned (id : string) (inv : Invoice.t) : Invoice.t :=
  if decide (Invoice.id inv = id) then
    Invoice.mk (Invoice.id inv) (Invoice.supplier inv) (Invoice.warehouse_id inv) "returned"
  else inv.

(** [returnInvoice] on the path on which the store accepts the inserts and
    the update.  [confirmed] is the answer to [confirm(..)], [today] the
    date that [new Date()] gives, [stockout_id] the id that the store
    generates for the new stock-out, and [total_price] the column of that
    name of [invoice_items], which the record of the ledger does not hold,
    as a function of the line. *)
Definition returnInvoice (total_price : InvoiceItem.t → Z) (today : string)
    (confirmed : bool) (invoice : Invoice.t) (db : Database) (stockout_id : string)
    : Outcome :=
  if negb confirmed then NotConfirmed
  else
    let items :=
      filter (λ it, InvoiceItem.invoice_id it = Invoice.id invoice) (tbl_invoice_items db) in
    if decide (length items = 0%nat) then NoItems
    else
      match
        List.find
          (λ item,
             bool_decide
               (totalQuantity
                  (calculateProductStockInWarehouse db (Invoice.warehouse_id invoice)
                     (InvoiceItem.product_id item) (InvoiceItem.product_type item))
                < InvoiceItem.quantity item))
          items
      with
      | Some item => Insufficient item
      | None =>
          let totalAmount := foldl (λ sum item, sum + total_price item) 0 items in
          let stockOut :=
            StockOut.mk stockout_id (Invoice.warehouse_id invoice) today "invoice_return"
                        totalAmount None in
          let stockOutItems :=
            (λ item,
               StockOutItem.mk (StockOut.id stockOut) (InvoiceItem.product_type item)
                 (InvoiceItem.product_id item) (InvoiceItem.batch_date item)
                 (InvoiceItem.quantity item) (InvoiceItem.unit_price item)
                 (total_price item))
            <$> items in
          Returned
            (mkDatabase (tbl_warehouses db) (tbl_reagents db) (tbl_consumables db)
               (mark_returned (Invoice.id invoice) <$> tbl_invoices db)
               (tbl_invoice_items db)
               (tbl_transfers db) (tbl_transfer_items db)
               (tbl_stock_out db ++ [stockOut])
               (tbl_stock_out_items db ++ stockOutItems))
      end.

End InvoiceList.

(** The lines of an invoice. *)
Definition invoice_lines (db : Database) (invoice : Invoice.t) : list InvoiceItem.t :=
  filter (λ it, InvoiceItem.invoice_id it = Invoice.id invoice) (tbl_invoice_items db).

(** The lines of an invoice for one product. *)
Definition invoice_lines_of (db : Database) (invoice : Invoice.t) (productId : string)
    (productType : ProductType) : list InvoiceItem.t :=
  filter (λ it, InvoiceItem.product_type it = productType
                ∧ InvoiceItem.product_id it = productId)
         (invoice_lines db invoice).

(** The stock-out line that [returnInvoice] builds for a line of the invoice. *)
Definition return_line (total_price : InvoiceItem.t → Z) (stockout_id : string)
    (item : InvoiceItem.t) : StockOutItem.t :=
  StockOutItem.mk stockout_id (InvoiceItem.product_type item) (InvoiceItem.product_id item)
    (InvoiceItem.batch_date item) (InvoiceItem.quantity item) (InvoiceItem.unit_price item)
    (total_price item).

(** The invoice shown in the list is an active invoice of the ledger, and
    the ids of the invoices are a primary key. *)
Definition listed_active (db : Database) (invoice : Invoice.t) : Prop :=
  invoice ∈ tbl_invoices db ∧ Invoice.status invoice = "active"
  ∧ NoDup (Invoice.id <$> tbl_invoices db).

(** Two active invoices at [W1] feed one batch of [P1]: 10 and 30 units of
    2024-01-10 at the price 5. *)
Definition ledger_two_invoices : Database :=
  mkDatabase
    (Some [Warehouse.mk "W1" "Main"]) (Some [CatalogRow.mk "P1" "R-001" "Buffer"]) (Some [])
    [Invoice.mk "I1" "Acme" "W1" "active"; Invoice.mk "I2" "Bolt" "W1" "active"]
    [InvoiceItem.mk "I1" reagent "P1" 10 5 "2024-01-10";
     InvoiceItem.mk "I2" reagent "P1" 30 5 "2024-01-10"]
    [] [] [] [].

(** [ledger_two_invoices] after the return of the first invoice on
    2024-03-01. *)
Definition ledger_after_return : Database :=
  mkDatabase
    (Some [Warehouse.mk "W1" "Main"]) (Some [CatalogRow.mk "P1" "R-001" "Buffer"]) (Some [])
    [Invoice.mk "I1" "Acme" "W1" "returned"; Invoice.mk "I2" "Bolt" "W1" "active"]
    [InvoiceItem.mk "I1" reagent "P1" 10 5 "2024-01-10";
     InvoiceItem.mk "I2" reagent "P1" 30 5 "2024-01-10"]
    [] []
    [StockOut.mk "S1" "W1" "2024-03-01" "invoice_return" 50 None]
    [StockOutItem.mk "S1" reagent "P1" "2024-01-10" 10 5 50].

(** The column [total_price] of an invoice line as the entry form fills it. *)
Definition line_amount (it : InvoiceItem.t) : Z :=
  InvoiceItem.quantity it * InvoiceItem.unit_price it.

(** ** [components/WarehouseList.tsx] *)

Module StockBatch.
Record t := mk {
  product_id : string;
  product_code : string;
  product_name : string;
  product_type : ProductType;
  batch_date : string;
  supplier : string;
  quantity : Z;
  unit_price : Z;
  total_price : Z
}.
End StockBatch.

Module StockSummary.
Record t := mk {
  product_id : string;
  product_code : string;
  product_name : string;
  product_type : ProductType;
  total_quantity : Z;
  total_amount : Z;
  last_entry_date : string;
  batches : list StockBatch.t;
  warehouse_id : option string;
  warehouse_name : option string
}.
End StockSummary.

Module WarehouseList.

Definition batchSize : nat := 15.

(** The element of [stock.batches.map(..)] for a batch. *)
Definition stock_batch (product : Product.t) (batch : Batch) : StockBatch.t :=
  StockBatch.mk (Product.id product) (Product.code product) (Product.name product)
    (Product.type product) (batch_date batch) (or_empty_string (Some (supplier batch)))
    (quantity batch) (unit_price batch) (total_price batch).

(** The body of the loops over [batchResults]: the summary of a product is
    pushed when its total is positive.  [warehouse] is the warehouse of the
    branch for all warehouses, and absent in the branch for one. *)
Definition push (db : Database) (warehouseId : string) (warehouse : option Warehouse.t)
    (results : list StockSummary.t) (product : Product.t) : list StockSummary.t :=
  let stock :=
    calculateProductStockInWarehouse db warehouseId (Product.id product)
      (Product.type product) in
  if decide (0 < totalQuantity stock) then
    let batches := stock_batch product <$> batches stock in
    let lastDate :=
      match batches with
      | first :: _ => StockBatch.batch_date first
      | [] => EmptyString
      end in
    results ++
      [StockSummary.mk (Product.id product) (Product.code product) (Product.name product)
         (Product.type product) (totalQuantity stock) (totalValue stock) lastDate batches
         (Warehouse.id <$> warehouse) (Warehouse.name <$> warehouse)]
  else results.

Definition processProductBatch (db : Database) (warehouses : list Warehouse.t)
    (selectedWarehouse : string) (products : list Product.t) : list StockSummary.t :=
  if decide (selectedWarehouse = "all") then
    foldl (λ results warehouse,
             foldl (push db (Warehouse.id warehouse) (Some warehouse)) results products)
          [] warehouses
  else foldl (push db selectedWarehouse None) [] products.

(** The comparator of the sort of [processBatches]. *)
Definition by_warehouse_then_code (a b : StockSummary.t) : comparison :=
  let warehouseCompare :=
    localeCompare (or_empty_string (StockSummary.warehouse_name a))
                  (or_empty_string (StockSummary.warehouse_name b)) in
  match warehouseCompare with
  | Eq => localeCompare (StockSummary.product_code a) (StockSummary.product_code b)
  | _ => warehouseCompare
  end.

(** [l.slice(i, i + size)] for [i = 0, size, 2 * size, ..] below the length
    of [l]. *)
Definition slices {A} (size : nat) (l : list A) : list (list A) :=
  (λ k, take size (drop (k * size) l)) <$> seq 0 ((length l + size - 1) / size).

(** The last value that [loadStocks] passes to [setStocks]; nothing when it
    returns at once.  [warehouses] is the state of that name, and [reagents]
    and [consumables] are the rows that [loadProductsCache] returns.  The
    sort of [processBatches] sorts [allResults] in place, so the next round
    starts from the sorted list. *)
Definition loadStocks (db : Database) (warehouses : list Warehouse.t)
    (selectedWarehouse : string) (reagents consumables : list CatalogRow.t)
    : option (list StockSummary.t) :=
  if decide (selectedWarehouse = EmptyString) then None
  else
    let allProducts := allProducts reagents consumables in
    Some (foldl (λ allResults batch,
                   sort by_warehouse_then_code
                        (allResults
                         ++ processProductBatch db warehouses selectedWarehouse batch))
                [] (slices batchSize allProducts)).

End WarehouseList.

(** The warehouses that [loadStocks] goes through: all of them, or the
    selected one. *)
Definition stock_places (warehouses : list Warehouse.t) (selectedWarehouse : string)
    : list (string * option Warehouse.t) :=
  if decide (selectedWarehouse = "all") then
    (λ warehouse, (Warehouse.id warehouse, Some warehouse)) <$> warehouses
  else [(selectedWarehouse, None)].

(** The summary of a product at a place: none when the total is not
    positive. *)
Definition summary_of (db : Database) (place : string * option Warehouse.t)
    (product : Product.t) : list StockSummary.t :=
  WarehouseList.push db place.1 place.2 [] product.

(** ** The order of the rows of the store *)

(** Two snapshots hold the same ledger rows, in whatever order. *)
Definition same_rows (db db' : Database) : Prop :=
  tbl_invoices db' ≡ₚ tbl_invoices db
  ∧ tbl_invoice_items db' ≡ₚ tbl_invoice_items db
  ∧ tbl_transfers db' ≡ₚ tbl_transfers db
  ∧ tbl_transfer_items db' ≡ₚ tbl_transfer_items db
  ∧ tbl_stock_out db' ≡ₚ tbl_stock_out db
  ∧ tbl_stock_out_items db' ≡ₚ tbl_stock_out_items db.

(** [ledger_two_prices] with the two invoice lines in the other order. *)
Definition ledger_two_prices_reordered : Database :=
  mkDatabase
    (Some [Warehouse.mk "W1" "Main"]) (Some [CatalogRow.mk "P1" "R-001" "Buffer"]) (Some [])
    [Invoice.mk "I1" "Acme" "W1" "active"]
    [InvoiceItem.mk "I1" reagent "P1" 10 6 "2024-01-10";
     InvoiceItem.mk "I1" reagent "P1" 10 5 "2024-01-10"]
    [] []
    [StockOut.mk "S1" "W1" "2024-01-20" "consumption" 20 None]
    [StockOutItem.mk "S1" reagent "P1" "2024-01-10" 4 5 20].

(** * Properties *)

(** ** Sums over lists *)

Section Zsum.
Context {A : Type}.
Implicit Types (f g : A → Z) (l : list A).

Lemma Zsum_nil f : Zsum f [] = 0.
Proof. reflexivity. Qed.

Lemma Zsum_cons f x l : Zsum f (x :: l) = f x + Zsum f l.
Proof. reflexivity. Qed.

Lemma Zsum_app f l1 l2 : Zsum f (l1 ++ l2) = Zsum f l1 + Zsum f l2.
Proof. induction l1 as [|x l1 IH]; simpl; rewrite ?Zsum_cons, ?Zsum_nil, ?IH; lia. Qed.

Lemma Zsum_perm f l1 l2 : l1 ≡ₚ l2 → Zsum f l1 = Zsum f l2.
Proof.
  induction 1 as [|x l1 l2 _ IH|x y l|l1 l2 l3 _ IH1 _ IH2];
    rewrite ?Zsum_cons; lia.
Qed.

Lemma Zsum_ext f g l : (∀ x, x ∈ l → f x = g x) → Zsum f l = Zsum g l.
Proof.
  induction l as [|x l IH]; intros Hfg; [done|].
  rewrite !Zsum_cons, Hfg, IH; [done| |left].
  intros y Hy. apply Hfg. by right.
Qed.

Lemma Zsum_fmap {B} (h : B → A) f (l : list B) :
  Zsum f (h <$> l) = Zsum (f ∘ h) l.
Proof. induction l as [|x l IH]; [done|]. rewrite fmap_cons, !Zsum_cons, IH. done. Qed.

Lemma Zsum_nonneg f l : (∀ x, x ∈ l → 0 ≤ f x) → 0 ≤ Zsum f l.
Proof.
  induction l as [|x l IH]; intros Hf; [done|].
  rewrite Zsum_cons.
  assert (0 ≤ f x) by (apply Hf; left).
  assert (0 ≤ Zsum f l) by (apply IH; intros y Hy; apply Hf; by right).
  lia.
Qed.

Lemma Zsum_plus f g l : Zsum (λ x, f x + g x) l = Zsum f l + Zsum g l.
Proof. induction l as [|x l IH]; [done|]. rewrite !Zsum_cons, IH. lia. Qed.

Lemma Zsum_zero l : Zsum (λ _ : A, 0) l = 0.
Proof. induction l as [|x l IH]; [done|]. by rewrite Zsum_cons, IH. Qed.

Lemma Zsum_filter_split (P : A → Prop) `{!∀ x, Decision (P x)} f l :
  Zsum f l = Zsum f (filter P l) + Zsum f (filter (λ x, ¬ P x) l).
Proof.
  induction l as [|x l IH]; [done|].
  rewrite !filter_cons, Zsum_cons.
  destruct (decide (P x)), (decide (¬ P x)); try tauto; rewrite Zsum_cons; lia.
Qed.
End Zsum.

(** ** Strings: splitting a batch key, ordering dates *)

Lemma split_nonempty sep s : split sep s ≠ [].
Proof. destruct s as [|c s]; simpl; [done|]. case_decide; [done|]. by destruct (split sep s). Qed.

Lemma first_of_split_key d rest :
  underscore_free d = true → first_of (split "_" (d +:+ "_" +:+ rest)) = d.
Proof.
  induction d as [|c d IH]; simpl; intros Hd.
  - done.
  - destruct (decide (c = "_"%char)) as [|Hc]; [done|].
    specialize (IH Hd).
    destruct (split "_" (d +:+ "_" +:+ rest)) as [|seg segs] eqn:E.
    + by apply split_nonempty in E.
    + simpl in IH. simpl. by rewrite IH.
Qed.

Lemma batch_key_date d p :
  underscore_free d = true → first_of (split "_" (batch_key d p)) = d.
Proof. apply first_of_split_key. Qed.

Lemma append_inj_r (s t1 t2 : string) : s +:+ t1 = s +:+ t2 → t1 = t2.
Proof. induction s as [|c s IH]; simpl; [done|]. intros [= H]. auto. Qed.

Lemma batch_key_inj d1 p1 d2 p2 :
  underscore_free d1 = true → underscore_free d2 = true →
  batch_key d1 p1 = batch_key d2 p2 → d1 = d2 ∧ p1 = p2.
Proof.
  intros H1 H2 Hk.
  assert (d1 = d2) as ->.
  { rewrite <-(batch_key_date d1 p1), <-(batch_key_date d2 p2) by done. by rewrite Hk. }
  split; [done|].
  unfold batch_key in Hk.
  apply append_inj_r in Hk. apply (append_inj_r "_") in Hk.
  by apply (inj pretty).
Qed.

Lemma ascii_compare_N (a b : ascii) :
  Ascii.compare a b = N.compare (N_of_ascii a) (N_of_ascii b).
Proof. reflexivity. Qed.

Lemma date_le_trans a b c : date_le a b → date_le b c → date_le a c.
Proof.
  unfold date_le, localeCompare.
  revert b c. induction a as [|x a IH]; intros [|y b] [|z c]; simpl; try done.
  rewrite !ascii_compare_N.
  destruct (N.compare_spec (N_of_ascii x) (N_of_ascii y)),
           (N.compare_spec (N_of_ascii y) (N_of_ascii z)),
           (N.compare_spec (N_of_ascii x) (N_of_ascii z));
    try done; try lia; eauto.
Qed.

Lemma date_le_total a b : ¬ date_le a b → date_le b a.
Proof.
  unfold date_le, localeCompare. rewrite (String.compare_antisym a b).
  destruct (String.compare b a); simpl; intros H; (done || by destruct H).
Qed.

(** ** The stable sort *)

Section sort.
Context {A : Type} (cmp : A → A → comparison).

Lemma sort_insert_perm x l : sort_insert cmp x l ≡ₚ x :: l.
Proof.
  induction l as [|y l IH]; simpl; [done|].
  destruct (cmp x y); try done.
  rewrite IH. apply Permutation_swap.
Qed.

Lemma sort_perm l : sort cmp l ≡ₚ l.
Proof.
  induction l as [|x l IH]; simpl; [done|].
  fold (sort cmp l). by rewrite sort_insert_perm, IH.
Qed.

Hypothesis cmp_total : ∀ x y, cmp x y = Gt → cmp y x ≠ Gt.
Hypothesis cmp_trans : ∀ x y z, in_order cmp x y → in_order cmp y z → in_order cmp x z.

Lemma sort_insert_sorted x l :
  StronglySorted (in_order cmp) l → StronglySorted (in_order cmp) (sort_insert cmp x l).
Proof.
  induction 1 as [|y l Hl IH Hy]; simpl.
  - repeat constructor.
  - destruct (cmp x y) eqn:Hxy.
    + constructor; [by constructor|].
      assert (in_order cmp x y) by (unfold in_order; congruence).
      constructor; [done|]. eapply Forall_impl; [exact Hy|]. eauto.
    + constructor; [by constructor|].
      assert (in_order cmp x y) by (unfold in_order; congruence).
      constructor; [done|]. eapply Forall_impl; [exact Hy|]. eauto.
    + constructor; [done|].
      rewrite sort_insert_perm. constructor; [|done].
      by apply cmp_total.
Qed.

Lemma sort_sorted l : StronglySorted (in_order cmp) (sort cmp l).
Proof.
  induction l as [|x l IH]; simpl; [constructor|].
  by apply sort_insert_sorted.
Qed.
End sort.

(** ** The emission loop *)

Lemma emit_kept resolve exits acc kv :
  0 < net_quantity exits kv →
  emit resolve exits acc kv =
    mkResult (totalQuantity acc + net_quantity exits kv)
             (totalValue acc + net_quantity exits kv * bucket_price kv.2)
             (batches acc ++ [batch_of resolve exits kv]).
Proof.
  destruct kv as [key value]. unfold emit, net_quantity, batch_of. simpl.
  intros H. by rewrite decide_True.
Qed.

Lemma emit_dropped resolve exits acc kv :
  ¬ 0 < net_quantity exits kv → emit resolve exits acc kv = acc.
Proof.
  destruct kv as [key value]. unfold emit, net_quantity. simpl.
  intros H. by rewrite decide_False.
Qed.

Lemma foldl_emit resolve exits m : ∀ acc,
  foldl (emit resolve exits) acc m =
    mkResult (totalQuantity acc + Zsum (net_quantity exits) (kept exits m))
             (totalValue acc
              + Zsum (λ kv, net_quantity exits kv * bucket_price kv.2) (kept exits m))
             (batches acc ++ (batch_of resolve exits <$> kept exits m)).
Proof.
  unfold kept.
  induction m as [|kv m IH]; intros acc.
  - rewrite filter_nil, fmap_nil, !Zsum_nil, !Z.add_0_r, app_nil_r. by destruct acc.
  - simpl foldl. rewrite IH, filter_cons.
    destruct (decide (0 < net_quantity exits kv)) as [Hpos|Hneg].
    + rewrite emit_kept by done. simpl.
      rewrite !Zsum_cons, <-app_assoc. simpl. f_equal; lia.
    + by rewrite emit_dropped.
Qed.

Lemma calculate_unfold db w p t :
  calculateProductStockInWarehouse db w p t =
    mkResult (Zsum (net_quantity (exitMap db w p t)) (kept (exitMap db w p t) (batchMap db w p t)))
             (Zsum (λ kv, net_quantity (exitMap db w p t) kv * bucket_price kv.2)
                   (kept (exitMap db w p t) (batchMap db w p t)))
             (sort by_batch_date_desc (emitted db w p t)).
Proof. unfold calculateProductStockInWarehouse. by rewrite foldl_emit. Qed.

Lemma batches_perm db w p t :
  batches (calculateProductStockInWarehouse db w p t) ≡ₚ emitted db w p t.
Proof. rewrite calculate_unfold. apply sort_perm. Qed.

Lemma kept_positive exits m kv : kv ∈ kept exits m → 0 < net_quantity exits kv.
Proof. unfold kept. rewrite list_elem_of_filter. tauto. Qed.

(** C6.  Every entry of [batches] has a strictly positive quantity and a
    [total_price] of quantity times unit price; a bucket whose net quantity is
    zero or negative leaves no entry (the entries are, up to the final
    reordering, those of the buckets with a positive net quantity);
    [totalQuantity] is the sum of the quantities of the entries, [totalValue]
    the sum of their quantity times unit price; so [totalQuantity] is never
    negative. *)
Theorem batches_positive_and_totals db w p t :
  let r := calculateProductStockInWarehouse db w p t in
  Forall (λ b, 0 < quantity b ∧ total_price b = quantity b * unit_price b) (batches r)
  ∧ batches r ≡ₚ
      (batch_of (supplier_of_map db w) (exitMap db w p t)
       <$> filter (λ kv, 0 < net_quantity (exitMap db w p t) kv) (batchMap db w p t))
  ∧ totalQuantity r = Zsum quantity (batches r)
  ∧ totalValue r = Zsum (λ b, quantity b * unit_price b) (batches r)
  ∧ totalValue r = Zsum total_price (batches r)
  ∧ 0 ≤ totalQuantity r.
Proof.
  intros r.
  assert (Hperm : batches r ≡ₚ emitted db w p t) by apply batches_perm.
  assert (Hall : Forall (λ b, 0 < quantity b ∧ total_price b = quantity b * unit_price b)
                        (emitted db w p t)).
  { apply Forall_fmap, Forall_forall. intros kv Hkv. simpl.
    split; [by eapply kept_positive|done]. }
  assert (Hq : totalQuantity r = Zsum quantity (emitted db w p t)).
  { unfold r. rewrite calculate_unfold. simpl. unfold emitted. by rewrite Zsum_fmap. }
  assert (Hv : totalValue r = Zsum (λ b, quantity b * unit_price b) (emitted db w p t)).
  { unfold r. rewrite calculate_unfold. simpl. unfold emitted. by rewrite Zsum_fmap. }
  split_and!.
  - by rewrite Hperm.
  - done.
  - by rewrite (Zsum_perm _ _ _ Hperm).
  - by rewrite (Zsum_perm _ _ _ Hperm).
  - rewrite (Zsum_perm _ _ _ Hperm), Hv.
    apply Zsum_ext. intros b Hb.
    rewrite Forall_forall in Hall. by destruct (Hall b Hb) as [_ ->].
  - rewrite Hq. apply Zsum_nonneg. intros b Hb.
    rewrite Forall_forall in Hall. destruct (Hall b Hb). lia.
Qed.

Lemma by_batch_date_desc_total a b :
  by_batch_date_desc a b = Gt → by_batch_date_desc b a ≠ Gt.
Proof.
  unfold by_batch_date_desc. intros H.
  apply (date_le_total (batch_date b) (batch_date a)).
  unfold date_le. rewrite H. intros Hne. by apply Hne.
Qed.

Lemma by_batch_date_desc_trans a b c :
  in_order by_batch_date_desc a b → in_order by_batch_date_desc b c →
  in_order by_batch_date_desc a c.
Proof. unfold in_order, by_batch_date_desc. intros H1 H2. by eapply date_le_trans. Qed.

(** C9.  [batches] is sorted by [batch_date] descending: every entry's date
    is, in the lexical order of the date strings, not before the date of any
    entry that follows it. *)
Theorem batches_sorted_descending db w p t :
  StronglySorted (λ a b, date_le (batch_date b) (batch_date a))
    (batches (calculateProductStockInWarehouse db w p t)).
Proof.
  rewrite calculate_unfold. simpl.
  apply (sort_sorted by_batch_date_desc).
  - apply by_batch_date_desc_total.
  - apply by_batch_date_desc_trans.
Qed.

(** ** The consistency sweep *)

Lemma totalQuantity_nonneg db w p t :
  0 ≤ totalQuantity (calculateProductStockInWarehouse db w p t).
Proof.
  rewrite calculate_unfold. simpl.
  apply Zsum_nonneg. intros kv Hkv. apply kept_positive in Hkv. lia.
Qed.

Lemma check_products db warehouse products : ∀ issues,
  foldl (check_product db warehouse) issues products =
    issues ++ (issue_of db <$> filter (negative_stock db) ((warehouse,.) <$> products)).
Proof.
  induction products as [|product products IH]; intros issues; simpl.
  - by rewrite app_nil_r.
  - rewrite IH, filter_cons. unfold check_product.
    destruct (decide (negative_stock db (warehouse, product))) as [Hneg|Hpos];
      unfold negative_stock in Hneg || unfold negative_stock in Hpos; simpl in *.
    + rewrite decide_True by done. by rewrite <-app_assoc.
    + by rewrite decide_False.
Qed.

Lemma check_warehouses db products warehouses : ∀ issues,
  foldl (λ issues warehouse, foldl (check_product db warehouse) issues products)
        issues warehouses =
    issues ++ (issue_of db <$> filter (negative_stock db) (cprod warehouses products)).
Proof.
  induction warehouses as [|warehouse warehouses IH]; intros issues; simpl.
  - by rewrite app_nil_r.
  - rewrite IH, check_products, <-app_assoc. f_equal.
    change (cprod (warehouse :: warehouses) products)
      with (((warehouse,.) <$> products) ++ cprod warehouses products).
    by rewrite filter_app, fmap_app.
Qed.

(** C7.  The sweep visits every pair of the cross product of the warehouses
    with the products of both categories, computes the stock of each pair and
    reports exactly the pairs whose [totalQuantity] is negative; as the
    computed total is never negative, the sweep returns no issue on any
    ledger snapshot. *)
Theorem validateStockConsistency_reports_nothing db :
  validateStockConsistency db = []
  ∧ ∀ warehouses reagents consumables,
      tbl_warehouses db = Some warehouses →
      tbl_reagents db = Some reagents →
      tbl_consumables db = Some consumables →
      validateStockConsistency db =
        issue_of db <$> filter (negative_stock db)
                               (cprod warehouses (allProducts reagents consumables)).
Proof.
  assert (Hgen : ∀ warehouses reagents consumables,
            tbl_warehouses db = Some warehouses →
            tbl_reagents db = Some reagents →
            tbl_consumables db = Some consumables →
            validateStockConsistency db =
              issue_of db <$> filter (negative_stock db)
                                     (cprod warehouses (allProducts reagents consumables))).
  { intros ws rs cs Hw Hr Hc. unfold validateStockConsistency.
    rewrite Hw, Hr, Hc. by rewrite check_warehouses. }
  split; [|exact Hgen].
  destruct (tbl_warehouses db) as [ws|] eqn:Hw; [|by unfold validateStockConsistency; rewrite Hw].
  destruct (tbl_reagents db) as [rs|] eqn:Hr;
    [|by unfold validateStockConsistency; rewrite Hw, Hr].
  destruct (tbl_consumables db) as [cs|] eqn:Hc;
    [|by unfold validateStockConsistency; rewrite Hw, Hr, Hc].
  rewrite (Hgen ws rs cs) by done.
  induction (cprod ws (allProducts rs cs)) as [|wp wps IH]; [done|].
  rewrite filter_cons_False; [done|].
  unfold negative_stock.
  pose proof (totalQuantity_nonneg db (Warehouse.id wp.1) (Product.id wp.2) (Product.type wp.2)).
  lia.
Qed.

Lemma validateStockConsistency_witness :
  tbl_warehouses ledger_after_transfer
    = Some [Warehouse.mk "W1" "Main"; Warehouse.mk "W2" "Branch"]
  ∧ tbl_reagents ledger_after_transfer = Some [CatalogRow.mk "P1" "R-001" "Buffer"]
  ∧ tbl_consumables ledger_after_transfer = Some []
  ∧ validateStockConsistency ledger_after_transfer =
      issue_of ledger_after_transfer
      <$> filter (negative_stock ledger_after_transfer)
                 (cprod [Warehouse.mk "W1" "Main"; Warehouse.mk "W2" "Branch"]
                        (allProducts [CatalogRow.mk "P1" "R-001" "Buffer"] [])).
Proof.
  split_and!; [reflexivity..|].
  apply (proj2 (validateStockConsistency_reports_nothing ledger_after_transfer));
    reflexivity.
Defined.

(** ** The iterated map *)

Lemma filter_ext_in {A} (P Q : A → Prop) `{!∀ x, Decision (P x), !∀ x, Decision (Q x)}
    (l : list A) :
  (∀ x, x ∈ l → P x ↔ Q x) → filter P l = filter Q l.
Proof.
  induction l as [|x l IH]; intros HPQ; [done|].
  rewrite !filter_cons.
  assert (P x ↔ Q x) by (apply HPQ; left).
  rewrite IH by (intros y Hy; apply HPQ; by right).
  destruct (decide (P x)), (decide (Q x)); tauto.
Qed.

Section JsMap_facts.
Context {V : Type}.
Implicit Types (m : list (string * V)) (k : string) (v : V).

Lemma get_set_eq m k v : JsMap.get (JsMap.set m k v) k = Some v.
Proof.
  induction m as [|[k' v'] m IH]; simpl.
  - by rewrite decide_True.
  - destruct (decide (k' = k)); simpl; [by rewrite decide_True|by rewrite decide_False].
Qed.

Lemma get_set_ne m k k' v : k ≠ k' → JsMap.get (JsMap.set m k v) k' = JsMap.get m k'.
Proof.
  intros Hne. induction m as [|[k0 v0] m IH]; simpl.
  - by rewrite decide_False.
  - destruct (decide (k0 = k)) as [->|]; simpl.
    + by rewrite !decide_False.
    + by rewrite IH.
Qed.

Lemma get_None m k : JsMap.get m k = None ↔ k ∉ m.*1.
Proof.
  induction m as [|[k' v'] m IH]; simpl.
  - split; [intros _; apply not_elem_of_nil|done].
  - rewrite not_elem_of_cons. destruct (decide (k' = k)) as [->|].
    + split; [done|]. by intros [? _].
    + rewrite IH. split; [|tauto]. intros ?. split; [congruence|done].
Qed.

Lemma get_Some_elem m k v : JsMap.get m k = Some v → (k, v) ∈ m.
Proof.
  induction m as [|[k' v'] m IH]; simpl; [done|].
  destruct (decide (k' = k)) as [->|]; [intros [= ->]; left|right; auto].
Qed.

Lemma elem_get m k v : NoDup m.*1 → (k, v) ∈ m → JsMap.get m k = Some v.
Proof.
  induction m as [|[k' v'] m IH]; simpl; [by intros _ ?%elem_of_nil|].
  rewrite NoDup_cons. intros [Hk' Hm] [[= -> ->]|Hin]%elem_of_cons.
  - by rewrite decide_True.
  - rewrite decide_False; [auto|].
    intros ->. apply Hk'. apply list_elem_of_fmap. by exists (k, v).
Qed.

Lemma keys_set m k v :
  (JsMap.set m k v).*1 = if decide (k ∈ m.*1) then m.*1 else m.*1 ++ [k].
Proof.
  induction m as [|[k' v'] m IH]; simpl.
  - done.
  - destruct (decide (k' = k)) as [->|Hne]; simpl.
    + rewrite decide_True; [done|left].
    + unfold fmap in IH. rewrite IH. fold (fmap (M:=list) (@fst string V) m).
      destruct (decide (k ∈ m.*1)) as [Hin|Hnin].
      * rewrite decide_True; [done|by right].
      * rewrite decide_False; [done|]. rewrite not_elem_of_cons. naive_solver.
Qed.
End JsMap_facts.

Lemma upsert_get_eq m key price qty ids :
  JsMap.get (upsert m key price qty ids) key =
    Some (mkBucket (bucket_quantity (current_bucket m key price) + qty)
                   (bucket_price (current_bucket m key price))
                   (ids (bucket_invoiceIds (current_bucket m key price)))).
Proof.
  unfold upsert, current_bucket, JsMap.has.
  destruct (JsMap.get m key) as [current|] eqn:Hget.
  - by rewrite Hget, get_set_eq.
  - by rewrite !get_set_eq.
Qed.

Lemma upsert_get_ne m key price qty ids k :
  key ≠ k → JsMap.get (upsert m key price qty ids) k = JsMap.get m k.
Proof.
  intros Hne. unfold upsert, JsMap.has.
  destruct (JsMap.get m key) as [current|] eqn:Hget.
  - by rewrite Hget, get_set_ne.
  - by rewrite get_set_eq, !get_set_ne.
Qed.

Lemma upsert_keys m key price qty ids :
  (upsert m key price qty ids).*1 = if decide (key ∈ m.*1) then m.*1 else m.*1 ++ [key].
Proof.
  unfold upsert, JsMap.has.
  destruct (JsMap.get m key) as [current|] eqn:Hget.
  - rewrite Hget, keys_set.
    assert (key ∈ m.*1).
    { destruct (decide (key ∈ m.*1)) as [|Hn]; [done|]. apply get_None in Hn. congruence. }
    by rewrite !decide_True.
  - rewrite get_set_eq, !keys_set.
    apply get_None in Hget. rewrite (decide_False (P := key ∈ m.*1)) by done.
    rewrite decide_True; [done|]. apply elem_of_app. right. left.
Qed.

Lemma upsert_NoDup m key price qty ids :
  NoDup m.*1 → NoDup (upsert m key price qty ids).*1.
Proof.
  intros Hm. rewrite upsert_keys. case_decide; [done|].
  apply NoDup_app. split_and!; [done| |apply NoDup_singleton].
  intros k Hk ->%list_elem_of_singleton. done.
Qed.

(** ** Receipts: the increase events in the order in which they are applied *)

Lemma foldl_fmap_step {A B C} (f : A → B → A) (g : C → B) (h : A → C → A) a l :
  (∀ a c, h a c = f a (g c)) → foldl h a l = foldl f a (g <$> l).
Proof.
  intros H. revert a. induction l as [|c l IH]; intros a; simpl; [done|].
  by rewrite H, IH.
Qed.

Lemma batchMap_receipts db w p t :
  batchMap db w p t = foldl add_receipt [] (receipts db w p t).
Proof.
  unfold batchMap, receipts. rewrite foldl_app.
  rewrite <-(foldl_fmap_step add_receipt receipt_of_entry add_entry) by done.
  by rewrite <-(foldl_fmap_step add_receipt receipt_of_transfer add_transfer_in).
Qed.

(** ** What [batchMap] holds *)

Lemma quantity_at_add m r k :
  quantity_at (add_receipt m r) k =
    quantity_at m k + (if decide (receipt_key r = k) then r_quantity r else 0).
Proof.
  unfold quantity_at, add_receipt.
  destruct (decide (receipt_key r = k)) as [<-|Hne].
  - rewrite upsert_get_eq. unfold current_bucket.
    by destruct (JsMap.get m (receipt_key r)).
  - rewrite upsert_get_ne by done. lia.
Qed.

Lemma quantity_at_foldl rs k : ∀ m,
  quantity_at (foldl add_receipt m rs) k =
    quantity_at m k + Zsum r_quantity (filter (λ r, receipt_key r = k) rs).
Proof.
  induction rs as [|r rs IH]; intros m; simpl.
  - rewrite filter_nil, Zsum_nil. lia.
  - rewrite IH, quantity_at_add, filter_cons.
    destruct (decide (receipt_key r = k)); rewrite ?Zsum_cons; lia.
Qed.

Lemma keys_foldl_NoDup rs : ∀ m, NoDup m.*1 → NoDup (foldl add_receipt m rs).*1.
Proof.
  induction rs as [|r rs IH]; intros m Hm; simpl; [done|].
  apply IH. by apply upsert_NoDup.
Qed.

Lemma keys_foldl rs k : ∀ m,
  k ∈ (foldl add_receipt m rs).*1 ↔ k ∈ m.*1 ∨ ∃ r, r ∈ rs ∧ receipt_key r = k.
Proof.
  induction rs as [|r rs IH]; intros m; simpl.
  - split; [by left|]. intros [?|(r & Hr & _)]; [done|]. by apply elem_of_nil in Hr.
  - rewrite IH. unfold add_receipt at 1. rewrite upsert_keys.
    split.
    + intros [Hk|(r' & Hr' & Hkey)].
      * case_decide; [by left|].
        apply elem_of_app in Hk as [?| ->%list_elem_of_singleton]; [by left|].
        right. exists r. split; [left|done].
      * right. exists r'. split; [by right|done].
    + intros [Hk|(r' & Hr' & Hkey)].
      * left. case_decide; [done|]. apply elem_of_app. by left.
      * apply elem_of_cons in Hr' as [->|Hr'].
        -- left. subst k. case_decide; [done|]. apply elem_of_app. right. left.
        -- right. by exists r'.
Qed.

Lemma bucket_from_mono rs rs' k b :
  (∀ r, r ∈ rs → r ∈ rs') → bucket_from rs k b → bucket_from rs' k b.
Proof.
  intros Hsub [(r & Hr & Hk & Hp) Hids]. split.
  - exists r. auto.
  - intros i Hi. destruct (Hids i Hi) as (r' & Hr' & Hinv). exists r'. auto.
Qed.

Lemma bucket_from_add rs m r :
  r ∈ rs →
  (∀ k b, JsMap.get m k = Some b → bucket_from rs k b) →
  ∀ k b, JsMap.get (add_receipt m r) k = Some b → bucket_from rs k b.
Proof.
  intros Hr Hm k b. unfold add_receipt.
  destruct (decide (receipt_key r = k)) as [<-|Hne].
  - rewrite upsert_get_eq. intros [= <-]. unfold current_bucket.
    destruct (JsMap.get m (receipt_key r)) as [current|] eqn:Hget; simpl.
    + destruct (Hm _ _ Hget) as [Hrec Hids]. split; [done|].
      destruct (r_invoice r) as [i|] eqn:Hinv; [|done].
      intros j. unfold set_add. case_decide; [by apply Hids|].
      intros [Hj| ->%list_elem_of_singleton]%elem_of_app; [by apply Hids|].
      by exists r.
    + split; [by exists r|].
      destruct (r_invoice r) as [i|] eqn:Hinv; [|by intros j ?%elem_of_nil].
      intros j. unfold set_add. rewrite decide_False by apply not_elem_of_nil.
      simpl. intros ->%list_elem_of_singleton. by exists r.
  - rewrite upsert_get_ne by done. apply Hm.
Qed.

Lemma bucket_from_foldl rs : ∀ k b,
  JsMap.get (foldl add_receipt [] rs) k = Some b → bucket_from rs k b.
Proof.
  induction rs as [|r rs IH] using rev_ind; [done|].
  rewrite foldl_app. simpl. apply bucket_from_add.
  - apply elem_of_app. right. left.
  - intros k b Hget. eapply bucket_from_mono; [|by apply IH].
    intros r' Hr'. apply elem_of_app. by left.
Qed.

Lemma receipts_well_dated db w p t r :
  well_dated db → r ∈ receipts db w p t → underscore_free (r_date r) = true.
Proof.
  intros [Hinv Htr]. unfold receipts, entries, transferItemsIn.
  rewrite Forall_forall in Hinv. rewrite Forall_forall in Htr.
  intros [Hr|Hr]%elem_of_app; apply list_elem_of_fmap in Hr as (it & -> & Hit); simpl.
  - apply Hinv. case_decide; simpl in Hit; [|by apply elem_of_nil in Hit].
    apply list_elem_of_filter in Hit. tauto.
  - apply Htr. case_decide; simpl in Hit; [|by apply elem_of_nil in Hit].
    apply list_elem_of_filter in Hit. tauto.
Qed.

(** ** Received and decreased quantities *)

Lemma Zsum_filter_fmap {A B} (f : B → Z) (g : A → B) (P : B → Prop)
    `{!∀ x, Decision (P x)} (l : list A) :
  Zsum f (filter P (g <$> l)) = Zsum (f ∘ g) (filter (P ∘ g) l).
Proof.
  induction l as [|x l IH]; [done|].
  rewrite fmap_cons, !filter_cons. simpl.
  destruct (decide (P (g x))); rewrite ?Zsum_cons, IH; done.
Qed.

Lemma received_receipts db w p t d price :
  received db w p t d price =
    Zsum r_quantity (filter (λ r, r_date r = d ∧ r_price r = price) (receipts db w p t)).
Proof.
  unfold received, receipts.
  by rewrite filter_app, Zsum_app, !Zsum_filter_fmap.
Qed.

Lemma quantity_at_received db w p t d price :
  well_dated db → underscore_free d = true →
  quantity_at (batchMap db w p t) (batch_key d price) = received db w p t d price.
Proof.
  intros Hwd Hd.
  rewrite batchMap_receipts, quantity_at_foldl, received_receipts.
  unfold quantity_at. simpl. rewrite Z.add_0_l. f_equal.
  apply filter_ext_in. intros r Hr. unfold receipt_key.
  split.
  - apply batch_key_inj; [|done]. by eapply receipts_well_dated.
  - by intros [-> ->].
Qed.

Lemma batchMap_NoDup db w p t : NoDup (batchMap db w p t).*1.
Proof. rewrite batchMap_receipts. apply keys_foldl_NoDup. constructor. Qed.

Lemma or_zero_add_exit m d q d' :
  or_zero (add_exit m d q !! d') = or_zero (m !! d') + (if decide (d = d') then q else 0).
Proof.
  unfold add_exit. destruct (decide (d = d')) as [->|Hne].
  - by rewrite lookup_insert_eq.
  - rewrite lookup_insert_ne by done. lia.
Qed.

Lemma or_zero_foldl_exit {A} (date : A → string) (qty : A → Z) (xs : list A) d : ∀ m,
  or_zero (foldl (λ m x, add_exit m (date x) (qty x)) m xs !! d) =
    or_zero (m !! d) + Zsum qty (filter (λ x, date x = d) xs).
Proof.
  induction xs as [|x xs IH]; intros m; simpl.
  - rewrite filter_nil, Zsum_nil. lia.
  - rewrite IH, or_zero_add_exit, filter_cons.
    destruct (decide (date x = d)); rewrite ?Zsum_cons; lia.
Qed.

Lemma exitMap_decreased db w p t d :
  or_zero (exitMap db w p t !! d) = decreased db w p t d.
Proof.
  unfold exitMap, decreased.
  rewrite (or_zero_foldl_exit TransferItem.batch_date TransferItem.quantity).
  rewrite (or_zero_foldl_exit StockOutItem.batch_date StockOutItem.quantity).
  by rewrite lookup_empty.
Qed.

(** What a bucket of [batchMap] is, in terms of the ledger. *)
Lemma bucket_facts db w p t k bucket :
  well_dated db → (k, bucket) ∈ batchMap db w p t →
  ∃ d price,
    has_receipt db w p t d price ∧ underscore_free d = true
    ∧ k = batch_key d price ∧ bucket_price bucket = price
    ∧ bucket_quantity bucket = received db w p t d price
    ∧ net_quantity (exitMap db w p t) (k, bucket) =
        received db w p t d price - decreased db w p t d.
Proof.
  intros Hwd Hin.
  pose proof (elem_get _ _ _ (batchMap_NoDup db w p t) Hin) as Hget.
  pose proof Hget as Hfrom. rewrite batchMap_receipts in Hfrom.
  apply bucket_from_foldl in Hfrom as [(r & Hr & -> & Hprice) _].
  pose proof (receipts_well_dated db w p t r Hwd Hr) as Hd.
  exists (r_date r), (r_price r).
  assert (Hq : bucket_quantity bucket = received db w p t (r_date r) (r_price r)).
  { rewrite <-quantity_at_received by done. unfold quantity_at.
    fold (receipt_key r). by rewrite Hget. }
  split_and!; try done.
  - by exists r.
  - unfold net_quantity. simpl. unfold receipt_key.
    by rewrite batch_key_date, exitMap_decreased, Hq.
Qed.

Lemma bucket_exists db w p t d price :
  has_receipt db w p t d price →
  ∃ bucket, (batch_key d price, bucket) ∈ batchMap db w p t.
Proof.
  intros (r & Hr & <- & <-).
  assert (Hk : receipt_key r ∈ (batchMap db w p t).*1).
  { rewrite batchMap_receipts. apply keys_foldl. right. by exists r. }
  apply list_elem_of_fmap in Hk as ([k bucket] & Hk & Hin). simpl in Hk. subst k.
  by exists bucket.
Qed.

(** The entries of [batches], in terms of the ledger: one for each batch
    (date, price) that has a receipt and a positive net quantity. *)
Lemma batch_in_batches db w p t b :
  well_dated db →
  b ∈ batches (calculateProductStockInWarehouse db w p t) →
  has_receipt db w p t (batch_date b) (unit_price b)
  ∧ quantity b = received db w p t (batch_date b) (unit_price b)
                 - decreased db w p t (batch_date b)
  ∧ 0 < quantity b
  ∧ total_price b = quantity b * unit_price b.
Proof.
  intros Hwd Hb. rewrite batches_perm in Hb.
  apply list_elem_of_fmap in Hb as ([k bucket] & -> & Hkept).
  pose proof (kept_positive _ _ _ Hkept) as Hpos.
  apply list_elem_of_filter in Hkept as [_ Hin].
  destruct (bucket_facts db w p t k bucket Hwd Hin)
    as (d & price & Hrec & Hd & -> & Hprice & Hq & Hnet).
  unfold batch_of. simpl.
  rewrite batch_key_date by done. rewrite Hprice.
  rewrite Hnet in Hpos |- *. split_and!; try done.
Qed.

Lemma batches_has_batch db w p t d price :
  well_dated db →
  has_receipt db w p t d price →
  0 < received db w p t d price - decreased db w p t d →
  ∃ b, b ∈ batches (calculateProductStockInWarehouse db w p t)
       ∧ batch_date b = d ∧ unit_price b = price
       ∧ quantity b = received db w p t d price - decreased db w p t d.
Proof.
  intros Hwd Hrec Hpos.
  destruct (bucket_exists db w p t d price Hrec) as [bucket Hin].
  destruct (bucket_facts db w p t _ bucket Hwd Hin)
    as (d' & price' & _ & Hd' & Hk & Hprice & Hq & Hnet).
  assert (Hd : underscore_free d = true).
  { destruct Hrec as (r & Hr & <- & _). by eapply receipts_well_dated. }
  apply batch_key_inj in Hk as [<- <-]; [|done..].
  exists (batch_of (supplier_of_map db w) (exitMap db w p t) (batch_key d price, bucket)).
  split_and!.
  - rewrite batches_perm. apply list_elem_of_fmap_2.
    unfold kept. apply list_elem_of_filter. split; [|done]. by rewrite Hnet.
  - simpl. by rewrite batch_key_date.
  - done.
  - simpl. by rewrite Hnet.
Qed.

(** ** Netting of the batches *)

(** C3.  The decrease accumulator is keyed by the batch date alone: its value
    for a date is the sum of the quantities of the stock-out lines and of the
    transfer-out lines of that date, whatever their price.  The net quantity
    of every bucket (date, price) is its received quantity less that whole
    per-date total, and so is the quantity of every entry of [batches]; when
    a date has two price buckets, both lose the same full total. *)
Theorem netting_subtracts_full_date_total db w p t :
  well_dated db →
  (∀ d, or_zero (exitMap db w p t !! d) = decreased db w p t d)
  ∧ (∀ k bucket, (k, bucket) ∈ batchMap db w p t →
       ∃ d price, k = batch_key d price
         ∧ bucket_quantity bucket = received db w p t d price
         ∧ net_quantity (exitMap db w p t) (k, bucket) =
             received db w p t d price - decreased db w p t d)
  ∧ (∀ b, b ∈ batches (calculateProductStockInWarehouse db w p t) →
       quantity b = received db w p t (batch_date b) (unit_price b)
                    - decreased db w p t (batch_date b))
  ∧ (∀ d price1 price2,
       price1 ≠ price2 →
       has_receipt db w p t d price1 → has_receipt db w p t d price2 →
       0 < received db w p t d price1 - decreased db w p t d →
       0 < received db w p t d price2 - decreased db w p t d →
       ∃ b1 b2,
         b1 ∈ batches (calculateProductStockInWarehouse db w p t)
         ∧ b2 ∈ batches (calculateProductStockInWarehouse db w p t)
         ∧ b1 ≠ b2
         ∧ batch_date b1 = d ∧ unit_price b1 = price1
         ∧ batch_date b2 = d ∧ unit_price b2 = price2
         ∧ quantity b1 = received db w p t d price1 - decreased db w p t d
         ∧ quantity b2 = received db w p t d price2 - decreased db w p t d).
Proof.
  intros Hwd. split_and!.
  - apply exitMap_decreased.
  - intros k bucket Hin.
    destruct (bucket_facts db w p t k bucket Hwd Hin)
      as (d & price & _ & _ & Hk & _ & Hq & Hnet).
    by exists d, price.
  - intros b Hb. by apply batch_in_batches.
  - intros d price1 price2 Hne Hrec1 Hrec2 Hpos1 Hpos2.
    destruct (batches_has_batch db w p t d price1 Hwd Hrec1 Hpos1) as (b1 & ? & ? & Hp1 & ?).
    destruct (batches_has_batch db w p t d price2 Hwd Hrec2 Hpos2) as (b2 & ? & ? & Hp2 & ?).
    exists b1, b2. split_and!; try done.
    intros ->. apply Hne. by rewrite <-Hp1, <-Hp2.
Qed.

Lemma netting_two_prices_witness :
  well_dated ledger_two_prices
  ∧ ∀ b, b ∈ batches (calculateProductStockInWarehouse ledger_two_prices "W1" "P1" reagent) →
         quantity b =
           received ledger_two_prices "W1" "P1" reagent (batch_date b) (unit_price b)
           - decreased ledger_two_prices "W1" "P1" reagent (batch_date b).
Proof.
  assert (Hwd : well_dated ledger_two_prices) by (split; repeat constructor).
  split; [exact Hwd|].
  apply (netting_subtracts_full_date_total ledger_two_prices "W1" "P1" reagent Hwd).
Defined.

(** The two buckets of [ledger_two_prices] hold 10 units each; the 4 units
    taken out under their date are subtracted from both. *)
Example netting_two_prices :
  calculateProductStockInWarehouse ledger_two_prices "W1" "P1" reagent =
    mkResult 12 66
      [mkBatch "2024-01-10" 6 5 30 "Acme"; mkBatch "2024-01-10" 6 6 36 "Acme"].
Proof. vm_compute. reflexivity. Qed.

(** ** Batch separation *)

Lemma kept_batch_id_inj db w p t kv1 kv2 :
  well_dated db →
  kv1 ∈ batchMap db w p t → kv2 ∈ batchMap db w p t →
  batch_id (batch_of (supplier_of_map db w) (exitMap db w p t) kv1) =
    batch_id (batch_of (supplier_of_map db w) (exitMap db w p t) kv2) →
  kv1 = kv2.
Proof.
  intros Hwd H1 H2. destruct kv1 as [k1 b1], kv2 as [k2 b2].
  destruct (bucket_facts db w p t k1 b1 Hwd H1) as (d1 & p1 & _ & Hd1 & -> & Hp1 & _).
  destruct (bucket_facts db w p t k2 b2 Hwd H2) as (d2 & p2 & _ & Hd2 & -> & Hp2 & _).
  unfold batch_id, batch_of. simpl. rewrite !batch_key_date by done.
  intros [= -> Hp]. assert (p1 = p2) as -> by congruence.
  f_equal.
  pose proof (elem_get _ _ _ (batchMap_NoDup db w p t) H1).
  pose proof (elem_get _ _ _ (batchMap_NoDup db w p t) H2).
  congruence.
Qed.




(** ** The two versions of the file *)

Lemma or_empty_string_Some s : or_empty_string (Some s) = s.
Proof. by destruct s. Qed.

Lemma foldl_insert_lookup_notin {A V} (f : A → string) (g : A → V) (l : list A) k : ∀ m,
  k ∉ f <$> l →
  foldl (λ (m : gmap string V) y, <[f y := g y]> m) m l !! k = m !! k.
Proof.
  induction l as [|y l IH]; intros m Hk; simpl; [done|].
  rewrite fmap_cons, not_elem_of_cons in Hk. destruct Hk as [Hne Hk].
  rewrite IH by done. by rewrite lookup_insert_ne.
Qed.

Lemma foldl_insert_lookup {A V} (f : A → string) (g : A → V) (l : list A) x : ∀ m,
  NoDup (f <$> l) → x ∈ l →
  foldl (λ (m : gmap string V) y, <[f y := g y]> m) m l !! f x = Some (g x).
Proof.
  induction l as [|y l IH]; intros m Hnd Hx; simpl; [by apply elem_of_nil in Hx|].
  rewrite fmap_cons, NoDup_cons in Hnd. destruct Hnd as [Hy Hnd].
  apply elem_of_cons in Hx as [->|Hx].
  - rewrite foldl_insert_lookup_notin by done. by rewrite lookup_insert_eq.
  - by apply IH.
Qed.

Lemma filter_key_notin {A} (f : A → string) (l : list A) k :
  k ∉ f <$> l → filter (λ y, f y = k) l = [].
Proof.
  induction l as [|y l IH]; [done|].
  rewrite fmap_cons, not_elem_of_cons. intros [Hne Hk].
  rewrite filter_cons, decide_False by done. by apply IH.
Qed.

Lemma filter_unique {A} (f : A → string) (l : list A) x :
  NoDup (f <$> l) → x ∈ l → filter (λ y, f y = f x) l = [x].
Proof.
  induction l as [|y l IH]; intros Hnd Hx; [by apply elem_of_nil in Hx|].
  rewrite fmap_cons, NoDup_cons in Hnd. destruct Hnd as [Hy Hnd].
  rewrite filter_cons. apply elem_of_cons in Hx as [->|Hx].
  - rewrite decide_True by done. by rewrite filter_key_notin.
  - rewrite decide_False; [by apply IH|].
    intros Heq. apply Hy. rewrite Heq. by apply list_elem_of_fmap_2.
Qed.

Lemma NoDup_fmap_filter {A B} (f : A → B) (P : A → Prop) `{!∀ x, Decision (P x)}
    (l : list A) :
  NoDup (f <$> l) → NoDup (f <$> filter P l).
Proof.
  induction l as [|x l IH]; [done|].
  rewrite fmap_cons, NoDup_cons. intros [Hx Hnd].
  rewrite filter_cons. destruct (decide (P x)); [|by apply IH].
  rewrite fmap_cons. apply NoDup_cons. split; [|by apply IH].
  intros (y & Hy & Hin)%list_elem_of_fmap. apply Hx.
  apply list_elem_of_filter in Hin as [_ Hin].
  rewrite Hy. by apply list_elem_of_fmap_2.
Qed.

(** The invoice ids of a bucket are ids of fetched invoices. *)
Lemma bucket_invoiceIds_fetched db w p t k bucket i :
  (k, bucket) ∈ batchMap db w p t → i ∈ bucket_invoiceIds bucket →
  i ∈ invoiceIds db w.
Proof.
  intros Hin Hi.
  pose proof (elem_get _ _ _ (batchMap_NoDup db w p t) Hin) as Hget.
  rewrite batchMap_receipts in Hget.
  apply bucket_from_foldl in Hget as [_ Hids].
  destruct (Hids i Hi) as (r & Hr & Hinv).
  unfold receipts in Hr.
  apply elem_of_app in Hr as [Hr|Hr]; apply list_elem_of_fmap in Hr as (it & -> & Hit);
    [|done].
  simpl in Hinv. injection Hinv as <-.
  unfold entries in Hit. case_decide; simpl in Hit; [|by apply elem_of_nil in Hit].
  apply list_elem_of_filter in Hit. tauto.
Qed.

Lemma suppliers_agree db w i rest :
  NoDup (Invoice.id <$> tbl_invoices db) →
  i ∈ invoiceIds db w →
  supplier_of_query db (i :: rest) = supplier_of_map db w (i :: rest).
Proof.
  intros Hnd Hi. unfold invoiceIds, invoices in Hi. simpl in Hi.
  apply list_elem_of_fmap in Hi as (inv & -> & Hinv).
  pose proof Hinv as Hinv'. apply list_elem_of_filter in Hinv' as [_ Hin].
  unfold supplier_of_query, supplier_of_map, invoiceMap, invoices. simpl.
  rewrite (filter_unique Invoice.id) by done. simpl.
  rewrite (foldl_insert_lookup Invoice.id
             (λ inv, or_empty_string (Some (Invoice.supplier inv)))).
  - by rewrite or_empty_string_Some, or_empty_string_Some.
  - by apply NoDup_fmap_filter.
  - done.
Qed.

(** C10.  On one ledger snapshot (invoice ids are a primary key) and the same
    inputs, the version that awaits its fetches in sequence and queries the
    supplier of each emitted batch returns the same result as the version
    that dispatches them in parallel and reads the supplier from the
    prefetched map: the same totals and the same ordered list of batches,
    suppliers included. *)
Theorem versions_agree db w p t :
  NoDup (Invoice.id <$> tbl_invoices db) →
  Sequential.calculateProductStockInWarehouse db w p t =
    calculateProductStockInWarehouse db w p t.
Proof.
  intros Hnd.
  unfold Sequential.calculateProductStockInWarehouse, calculateProductStockInWarehouse.
  rewrite !foldl_emit. simpl. do 2 f_equal.
  apply list_fmap_ext. intros n [k bucket] Hkv.
  apply list_elem_of_lookup_2, list_elem_of_filter in Hkv as [_ Hin].
  unfold batch_of. simpl. f_equal.
  destruct (bucket_invoiceIds bucket) as [|i rest] eqn:Hids; [done|].
  apply suppliers_agree; [done|].
  eapply bucket_invoiceIds_fetched; [exact Hin|]. rewrite Hids. left.
Qed.

Lemma versions_agree_witness :
  NoDup (Invoice.id <$> tbl_invoices ledger_example)
  ∧ Sequential.calculateProductStockInWarehouse ledger_example "W1" "P1" reagent =
      calculateProductStockInWarehouse ledger_example "W1" "P1" reagent.
Proof.
  assert (Hnd : NoDup (Invoice.id <$> tbl_invoices ledger_example)).
  { apply (bool_decide_unpack _). vm_compute. reflexivity. }
  split; [exact Hnd|].
  apply (versions_agree ledger_example "W1" "P1" reagent Hnd).
Defined.

(** Without the primary key the two versions can differ: with two invoice
    rows of one id the map keeps the supplier written last, the query finds
    no single row. *)
Example versions_need_primary_key :
  let db := mkDatabase None None None
              [Invoice.mk "I1" "Acme" "W1" "active"; Invoice.mk "I1" "Zenith" "W1" "active"]
              [InvoiceItem.mk "I1" reagent "P1" 100 5 "2024-01-10"] [] [] [] [] in
  supplier <$> batches (calculateProductStockInWarehouse db "W1" "P1" reagent) = ["Zenith"]
  ∧ supplier <$> batches (Sequential.calculateProductStockInWarehouse db "W1" "P1" reagent)
    = [EmptyString].
Proof. split; vm_compute; reflexivity. Qed.

(** ** The reason tag of a stock-out *)

Lemma calculate_stock_out_ext db rows w p t :
  stockOutIds (with_stock_out db rows) w = stockOutIds db w →
  calculateProductStockInWarehouse (with_stock_out db rows) w p t =
    calculateProductStockInWarehouse db w p t.
Proof.
  intros Hids.
  assert (Hitems : stockOutItems (with_stock_out db rows) w p t = stockOutItems db w p t).
  { unfold stockOutItems. by rewrite Hids. }
  unfold calculateProductStockInWarehouse.
  change (batchMap (with_stock_out db rows) w p t) with (batchMap db w p t).
  change (supplier_of_map (with_stock_out db rows) w) with (supplier_of_map db w).
  assert (exitMap (with_stock_out db rows) w p t = exitMap db w p t) as ->; [|done].
  unfold exitMap. rewrite Hitems.
  by change (transferItemsOut (with_stock_out db rows) w p t) with (transferItemsOut db w p t).
Qed.

Lemma fmap_filter_retag (tag : StockOut.t → string) w (rows : list StockOut.t) :
  (∀ so, tag so = "transfer" ↔ StockOut.reason so = "transfer") →
  StockOut.id <$> filter (λ so, StockOut.warehouse_id so = w ∧ StockOut.reason so ≠ "transfer")
                         (retag tag <$> rows)
  = StockOut.id <$> filter (λ so, StockOut.warehouse_id so = w
                                  ∧ StockOut.reason so ≠ "transfer") rows.
Proof.
  intros Htag. induction rows as [|so rows IH]; [done|].
  rewrite fmap_cons, !filter_cons. simpl.
  destruct (decide (StockOut.warehouse_id so = w ∧ tag so ≠ "transfer")) as [[? Ht]|Hn],
           (decide (StockOut.warehouse_id so = w ∧ StockOut.reason so ≠ "transfer"))
             as [[? Hr]|Hm].
  - rewrite !fmap_cons, IH. done.
  - destruct Hm. split; [done|]. by rewrite <-Htag.
  - destruct Hn. split; [done|]. by rewrite Htag.
  - done.
Qed.

(** C2, as amended.  The stock-out documents of the warehouse whose reason is
    not [transfer] are the ones aggregated: each of their lines for the
    product enters the decrease total of its batch date.  Documents tagged
    [transfer] are left out of the aggregation (removing them changes
    nothing), and between the other tags the reason has no effect. *)
Theorem stock_out_reason db w p t :
  (∀ so it,
     so ∈ tbl_stock_out db → StockOut.warehouse_id so = w →
     StockOut.reason so ≠ "transfer" →
     it ∈ tbl_stock_out_items db → StockOutItem.stockout_id it = StockOut.id so →
     StockOutItem.product_type it = t → StockOutItem.product_id it = p →
     it ∈ or_empty (stockOutItems db w p t))
  ∧ (∀ d, or_zero (exitMap db w p t !! d) = decreased db w p t d)
  ∧ calculateProductStockInWarehouse
      (with_stock_out db (filter (λ so, StockOut.reason so ≠ "transfer") (tbl_stock_out db)))
      w p t
    = calculateProductStockInWarehouse db w p t
  ∧ (∀ tag : StockOut.t → string,
       (∀ so, tag so = "transfer" ↔ StockOut.reason so = "transfer") →
       calculateProductStockInWarehouse
         (with_stock_out db (retag tag <$> tbl_stock_out db)) w p t
       = calculateProductStockInWarehouse db w p t).
Proof.
  split_and!.
  - intros so it Hso Hw Hreason Hit Hid Ht Hp.
    assert (Hids : StockOut.id so ∈ stockOutIds db w).
    { unfold stockOutIds, stockOuts. simpl. apply list_elem_of_fmap_2.
      by apply list_elem_of_filter. }
    unfold stockOutItems. rewrite decide_True.
    + simpl. apply list_elem_of_filter. rewrite Hid. done.
    + destruct (stockOutIds db w); [by apply elem_of_nil in Hids|simpl; lia].
  - apply exitMap_decreased.
  - apply calculate_stock_out_ext.
    unfold stockOutIds, stockOuts. simpl. f_equal.
    rewrite list_filter_filter. apply list_filter_iff. tauto.
  - intros tag Htag. apply calculate_stock_out_ext.
    unfold stockOutIds, stockOuts. simpl. by apply fmap_filter_retag.
Qed.

Lemma stock_out_reason_witness :
  (∀ so, (if decide (StockOut.reason so = "transfer") then "transfer" else "other")
         = "transfer" ↔ StockOut.reason so = "transfer")
  ∧ calculateProductStockInWarehouse
      (with_stock_out (ledger_with_reason "consumption")
         (retag (λ so, if decide (StockOut.reason so = "transfer") then "transfer" else "other")
          <$> tbl_stock_out (ledger_with_reason "consumption"))) "W1" "P1" reagent
    = calculateProductStockInWarehouse (ledger_with_reason "consumption") "W1" "P1" reagent.
Proof.
  assert (Htag : ∀ so,
            (if decide (StockOut.reason so = "transfer") then "transfer" else "other")
            = "transfer" ↔ StockOut.reason so = "transfer").
  { intros so. destruct (decide (StockOut.reason so = "transfer")); split; done. }
  split; [exact Htag|].
  apply (stock_out_reason (ledger_with_reason "consumption") "W1" "P1" reagent).
  exact Htag.
Defined.

(** The lines of a stock-out tagged [transfer] do not reduce the computed
    stock, and the tag changes the result: the same document reduces the
    stock by its 30 units under the tag [consumption] and by nothing under
    the tag [transfer]. *)
Lemma stock_out_reason_counterexample :
  totalQuantity
    (calculateProductStockInWarehouse (ledger_with_reason "consumption") "W1" "P1" reagent)
  = 70
  ∧ totalQuantity
      (calculateProductStockInWarehouse (ledger_with_reason "transfer") "W1" "P1" reagent)
    = 100.
Proof. split; vm_compute; reflexivity. Qed.

(** ** The example scenario of the specification *)

(** C5, as amended.  In the example scenario [W1] holds 100 units of [P1]
    from one active invoice line of batch date 2024-01-10 and price 5.  The
    transfer of 30 units to [W2] dated 2024-01-15 writes a transfer line that
    keeps the batch date 2024-01-10 of the batch it is taken from (at price
    5) and a stock-out at [W1] tagged [transfer] whose line has the same
    batch date; afterwards the stock of [W1] is 70 and the stock of [W2] is
    30, in a single batch dated 2024-01-10. *)
Theorem example_scenario :
  calculateProductStockInWarehouse ledger_example "W1" "P1" reagent
    = mkResult 100 500 [mkBatch "2024-01-10" 100 5 500 "Acme"]
  ∧ handleSubmit example_form ledger_example "T1" "S1" = Submitted ledger_after_transfer
  ∧ tbl_transfer_items ledger_after_transfer
    = [TransferItem.mk "T1" reagent "P1" "2024-01-10" 30 5 150]
  ∧ tbl_stock_out_items ledger_after_transfer
    = [StockOutItem.mk "S1" reagent "P1" "2024-01-10" 30 5 150]
  ∧ calculateProductStockInWarehouse ledger_after_transfer "W1" "P1" reagent
    = mkResult 70 350 [mkBatch "2024-01-10" 70 5 350 "Acme"]
  ∧ calculateProductStockInWarehouse ledger_after_transfer "W2" "P1" reagent
    = mkResult 30 150 [mkBatch "2024-01-10" 30 5 150 EmptyString].
Proof. split_and!; vm_compute; reflexivity. Qed.

(** The transfer line does not carry the transfer date, and the batch that
    [W2] holds afterwards is not dated 2024-01-15. *)
Lemma example_scenario_counterexample :
  handleSubmit example_form ledger_example "T1" "S1" = Submitted ledger_after_transfer
  ∧ date example_form = "2024-01-15"
  ∧ TransferItem.batch_date <$> tbl_transfer_items ledger_after_transfer = ["2024-01-10"]
  ∧ batch_date
    <$> batches (calculateProductStockInWarehouse ledger_after_transfer "W2" "P1" reagent)
    = ["2024-01-10"]
  ∧ "2024-01-10" ≠ "2024-01-15".
Proof. split_and!; try (vm_compute; reflexivity). discriminate. Qed.

(** ** The total and the signed sum of the ledger *)

Lemma Zsum_set (g : Bucket → Z) m k v :
  Zsum (g ∘ snd) (JsMap.set m k v) =
    Zsum (g ∘ snd) m
    - (match JsMap.get m k with Some old => g old | None => 0 end) + g v.
Proof.
  induction m as [|[k' v'] m IH]; simpl.
  - rewrite Zsum_cons, Zsum_nil. simpl. lia.
  - destruct (decide (k' = k)); rewrite !Zsum_cons; simpl; [lia|]. rewrite IH. lia.
Qed.

Lemma Zsum_add_receipt m r :
  Zsum (bucket_quantity ∘ snd) (add_receipt m r) =
    Zsum (bucket_quantity ∘ snd) m + r_quantity r.
Proof.
  unfold add_receipt, upsert, JsMap.has.
  destruct (JsMap.get m (receipt_key r)) as [current|] eqn:Hget.
  - rewrite Hget, Zsum_set, Hget. simpl. lia.
  - rewrite get_set_eq, !Zsum_set, get_set_eq, Hget. simpl. lia.
Qed.

Lemma Zsum_foldl_receipts rs : ∀ m,
  Zsum (bucket_quantity ∘ snd) (foldl add_receipt m rs) =
    Zsum (bucket_quantity ∘ snd) m + Zsum r_quantity rs.
Proof.
  induction rs as [|r rs IH]; intros m; simpl.
  - rewrite Zsum_nil. lia.
  - rewrite IH, Zsum_add_receipt, Zsum_cons. lia.
Qed.

Lemma Zsum_receipts db w p t :
  Zsum r_quantity (receipts db w p t) =
    Zsum InvoiceItem.quantity (or_empty (entries db w p t))
    + Zsum TransferItem.quantity (or_empty (transferItemsIn db w p t)).
Proof. unfold receipts. by rewrite Zsum_app, !Zsum_fmap. Qed.

Lemma Zsum_indicator (k : string) (c : Z) (D : list string) :
  NoDup D → k ∈ D → Zsum (λ d, if decide (k = d) then c else 0) D = c.
Proof.
  induction D as [|d D IH]; intros Hnd Hk; [by apply elem_of_nil in Hk|].
  apply NoDup_cons in Hnd as [Hd Hnd]. rewrite Zsum_cons.
  apply elem_of_cons in Hk as [->|Hk].
  - rewrite decide_True by done.
    rewrite (Zsum_ext _ (λ _, 0)), Zsum_zero; [lia|].
    intros d' Hd'. rewrite decide_False; [done|]. by intros ->.
  - rewrite decide_False by (by intros ->). rewrite IH by done. lia.
Qed.

(** Summing the per-key totals over a duplicate-free list of keys that
    covers the rows gives the total of the rows. *)
Lemma Zsum_grouped {A} (key : A → string) (f : A → Z) (D : list string) (xs : list A) :
  NoDup D → (∀ x, x ∈ xs → key x ∈ D) →
  Zsum (λ d, Zsum f (filter (λ x, key x = d) xs)) D = Zsum f xs.
Proof.
  intros Hnd. induction xs as [|x xs IH]; intros Hcover.
  - rewrite (Zsum_ext _ (λ _, 0)), Zsum_zero; done.
  - rewrite (Zsum_ext _ (λ d, (if decide (key x = d) then f x else 0)
                              + Zsum f (filter (λ x, key x = d) xs))).
    + rewrite Zsum_plus, Zsum_indicator, IH, Zsum_cons; [done| |done|].
      * intros y Hy. apply Hcover. by right.
      * apply Hcover. left.
    + intros d _. rewrite filter_cons.
      destruct (decide (key x = d)); rewrite ?Zsum_cons; lia.
Qed.

Lemma bucket_dates_NoDup db w p t :
  well_dated db → one_price_per_date db w p t →
  NoDup (date_of_key <$> batchMap db w p t).
Proof.
  intros Hwd Hone. apply NoDup_fmap_2_strong.
  - intros [k1 b1] [k2 b2] H1 H2. unfold date_of_key. simpl. intros Hdate.
    destruct (bucket_facts db w p t k1 b1 Hwd H1)
      as (d1 & p1 & (r1 & Hr1 & Hd1 & Hp1) & Hu1 & -> & _).
    destruct (bucket_facts db w p t k2 b2 Hwd H2)
      as (d2 & p2 & (r2 & Hr2 & Hd2 & Hp2) & Hu2 & -> & _).
    rewrite !batch_key_date in Hdate by done. subst d2.
    assert (p1 = p2) as -> by (rewrite <-Hp1, <-Hp2; apply Hone; congruence).
    f_equal.
    pose proof (elem_get _ _ _ (batchMap_NoDup db w p t) H1).
    pose proof (elem_get _ _ _ (batchMap_NoDup db w p t) H2).
    congruence.
  - eapply NoDup_fmap_1. apply batchMap_NoDup.
Qed.

Lemma receipt_date_in_buckets db w p t r :
  well_dated db → r ∈ receipts db w p t →
  r_date r ∈ date_of_key <$> batchMap db w p t.
Proof.
  intros Hwd Hr.
  destruct (bucket_exists db w p t (r_date r) (r_price r)) as [bucket Hin]; [by exists r|].
  apply list_elem_of_fmap. exists (batch_key (r_date r) (r_price r), bucket).
  split; [|done]. unfold date_of_key. simpl.
  rewrite batch_key_date; [done|]. by eapply receipts_well_dated.
Qed.

Lemma Zsum_decreased_buckets db w p t :
  well_dated db → one_price_per_date db w p t → decreases_dated_by_receipts db w p t →
  Zsum (λ kv, decreased db w p t (date_of_key kv)) (batchMap db w p t) =
    Zsum StockOutItem.quantity (or_empty (stockOutItems db w p t))
    + Zsum TransferItem.quantity (or_empty (transferItemsOut db w p t)).
Proof.
  intros Hwd Hone [Hso Hto].
  pose proof (bucket_dates_NoDup db w p t Hwd Hone) as Hnd.
  change (λ kv, decreased db w p t (date_of_key kv))
    with (decreased db w p t ∘ date_of_key).
  rewrite <-Zsum_fmap. unfold decreased. rewrite Zsum_plus.
  rewrite (Zsum_grouped StockOutItem.batch_date), (Zsum_grouped TransferItem.batch_date);
    try done.
  - intros it Hit. destruct (Hto it Hit) as (r & Hr & <-).
    by apply receipt_date_in_buckets.
  - intros it Hit. destruct (Hso it Hit) as (r & Hr & <-).
    by apply receipt_date_in_buckets.
Qed.

Lemma net_quantity_date exits kv :
  net_quantity exits kv = bucket_quantity kv.2 - or_zero (exits !! date_of_key kv).
Proof. reflexivity. Qed.


Lemma receipts_ledger_with_reason reason :
  receipts (ledger_with_reason reason) "W1" "P1" reagent =
    [mkReceipt "2024-01-10" 5 100 (Some "I1")].
Proof. reflexivity. Qed.



(** After the transfer of the example scenario the sum over all the events of
    [W1], the mirroring stock-out included, is 40; the computed total is 70:
    the stock-out tagged [transfer] is not fetched. *)
Example signed_sum_after_transfer :
  claimed_signed_sum ledger_after_transfer "W1" "P1" reagent = 40
  ∧ fetched_signed_sum ledger_after_transfer "W1" "P1" reagent = 70
  ∧ totalQuantity (calculateProductStockInWarehouse ledger_after_transfer "W1" "P1" reagent)
    = 70.
Proof. split_and!; vm_compute; reflexivity. Qed.

(** A loss posted under the date of the count meets no bucket: the signed sum
    is 95, the computed total stays 100. *)
Example signed_sum_inventory_loss :
  fetched_signed_sum ledger_inventory_loss "W1" "P1" reagent = 95
  ∧ totalQuantity (calculateProductStockInWarehouse ledger_inventory_loss "W1" "P1" reagent)
    = 100.
Proof. split_and!; vm_compute; reflexivity. Qed.

(** ** The ledger after a transfer *)

Lemma filter_none {A} (P : A → Prop) `{!∀ x, Decision (P x)} (l : list A) :
  (∀ x, x ∈ l → ¬ P x) → filter P l = [].
Proof.
  induction l as [|x l IH]; intros HP; [done|].
  rewrite filter_cons, decide_False by (apply HP; left).
  apply IH. intros y Hy. apply HP. by right.
Qed.

Lemma transferItemsIn_filter db w p t :
  or_empty (transferItemsIn db w p t) =
    filter (λ it, TransferItem.product_type it = t ∧ TransferItem.product_id it = p
                  ∧ TransferItem.transfer_id it ∈ transferInIds db w)
           (tbl_transfer_items db).
Proof.
  unfold transferItemsIn. case_decide as Hlen; [done|]. simpl.
  symmetry. apply filter_none. intros it _ (_ & _ & Hin).
  destruct (transferInIds db w); [by apply elem_of_nil in Hin|]. simpl in Hlen. lia.
Qed.

Lemma transferItemsOut_filter db w p t :
  or_empty (transferItemsOut db w p t) =
    filter (λ it, TransferItem.product_type it = t ∧ TransferItem.product_id it = p
                  ∧ TransferItem.transfer_id it ∈ transferOutIds db w)
           (tbl_transfer_items db).
Proof.
  unfold transferItemsOut. case_decide as Hlen; [done|]. simpl.
  symmetry. apply filter_none. intros it _ (_ & _ & Hin).
  destruct (transferOutIds db w); [by apply elem_of_nil in Hin|]. simpl in Hlen. lia.
Qed.

Lemma stockOutItems_filter db w p t :
  or_empty (stockOutItems db w p t) =
    filter (λ it, StockOutItem.product_type it = t ∧ StockOutItem.product_id it = p
                  ∧ StockOutItem.stockout_id it ∈ stockOutIds db w)
           (tbl_stock_out_items db).
Proof.
  unfold stockOutItems. case_decide as Hlen; [done|]. simpl.
  symmetry. apply filter_none. intros it _ (_ & _ & Hin).
  destruct (stockOutIds db w); [by apply elem_of_nil in Hin|]. simpl in Hlen. lia.
Qed.

Section after_transfer.
Context (db : Database) (transfer : Transfer.t) (line : TransferItem.t).
Context (stockOut : StockOut.t) (exitLine : StockOutItem.t).
Context (Hfresh : fresh_ids db (Transfer.id transfer) (StockOut.id stockOut)).
Context (Hline : TransferItem.transfer_id line = Transfer.id transfer).
Context (Hreason : StockOut.reason stockOut = "transfer").
Context (HexitLine : StockOutItem.stockout_id exitLine = StockOut.id stockOut).

Lemma transfer_ids_subset (P : Transfer.t → Prop) `{!∀ x, Decision (P x)} i :
  i ∈ Transfer.id <$> filter P (tbl_transfers db) → i ∈ Transfer.id <$> tbl_transfers db.
Proof.
  intros (x & -> & Hx)%list_elem_of_fmap. apply list_elem_of_fmap_2.
  apply list_elem_of_filter in Hx. tauto.
Qed.

(** The lines that a set of transfer ids selects, after the inserts. *)
Lemma transfer_lines_after (P : Transfer.t → Prop) `{!∀ x, Decision (P x)} p t :
  filter (λ it, TransferItem.product_type it = t ∧ TransferItem.product_id it = p
                ∧ TransferItem.transfer_id it
                  ∈ Transfer.id <$> filter P (tbl_transfers db ++ [transfer]))
         (tbl_transfer_items db ++ [line])
  = filter (λ it, TransferItem.product_type it = t ∧ TransferItem.product_id it = p
                  ∧ TransferItem.transfer_id it ∈ Transfer.id <$> filter P (tbl_transfers db))
           (tbl_transfer_items db)
    ++ (if decide (P transfer ∧ TransferItem.product_type line = t
                   ∧ TransferItem.product_id line = p)
        then [line] else []).
Proof.
  destruct Hfresh as (Hft & Hfl & _).
  rewrite filter_app. f_equal.
  - apply filter_ext_in. intros it Hit.
    rewrite filter_app, fmap_app, elem_of_app.
    split; [|tauto]. intros (? & ? & [Hin|Hin]); [done|].
    rewrite filter_cons, filter_nil in Hin.
    destruct (decide (P transfer)); [|by apply elem_of_nil in Hin].
    apply list_elem_of_singleton in Hin. by apply Hfl in Hit.
  - rewrite filter_cons, filter_nil.
    destruct (decide (P transfer ∧ TransferItem.product_type line = t
                      ∧ TransferItem.product_id line = p)) as [(HP & Ht & Hp)|Hno].
    + rewrite decide_True; [done|]. split_and!; [done..|].
      rewrite filter_app, fmap_app, elem_of_app. right.
      rewrite filter_cons, decide_True, Hline by done. left.
    + rewrite decide_False; [done|]. intros (Ht & Hp & Hin). apply Hno.
      split_and!; [|done..].
      rewrite filter_app, fmap_app, elem_of_app in Hin. destruct Hin as [Hin|Hin].
      * apply transfer_ids_subset in Hin. rewrite Hline in Hin. done.
      * rewrite filter_cons in Hin. destruct (decide (P transfer)); [done|].
        by apply elem_of_nil in Hin.
Qed.

Lemma transferItemsIn_after w p t :
  or_empty (transferItemsIn (after_transfer db transfer line stockOut exitLine) w p t) =
    or_empty (transferItemsIn db w p t)
    ++ (if decide (Transfer.to_warehouse_id transfer = w
                   ∧ TransferItem.product_type line = t ∧ TransferItem.product_id line = p)
        then [line] else []).
Proof.
  rewrite !transferItemsIn_filter. unfold transferInIds, transfersIn. simpl.
  pose proof (transfer_lines_after (λ x, Transfer.to_warehouse_id x = w) p t) as Hlines.
  cbv beta in Hlines. exact Hlines.
Qed.

Lemma transferItemsOut_after w p t :
  or_empty (transferItemsOut (after_transfer db transfer line stockOut exitLine) w p t) =
    or_empty (transferItemsOut db w p t)
    ++ (if decide (Transfer.from_warehouse_id transfer = w
                   ∧ TransferItem.product_type line = t ∧ TransferItem.product_id line = p)
        then [line] else []).
Proof.
  rewrite !transferItemsOut_filter. unfold transferOutIds, transfersOut. simpl.
  pose proof (transfer_lines_after (λ x, Transfer.from_warehouse_id x = w) p t) as Hlines.
  cbv beta in Hlines. exact Hlines.
Qed.

(** The mirroring stock-out is tagged [transfer]: it is not fetched. *)
Lemma stockOutItems_after w p t :
  or_empty (stockOutItems (after_transfer db transfer line stockOut exitLine) w p t)
  = or_empty (stockOutItems db w p t).
Proof.
  destruct Hfresh as (_ & _ & Hfs).
  rewrite !stockOutItems_filter.
  assert (Hids : stockOutIds (after_transfer db transfer line stockOut exitLine) w
                 = stockOutIds db w).
  { unfold stockOutIds, stockOuts. simpl.
    rewrite filter_app, filter_cons, decide_False, filter_nil, app_nil_r; [done|].
    intros [_ Hne]. by apply Hne. }
  rewrite Hids. simpl. rewrite filter_app, filter_cons, decide_False, filter_nil, app_nil_r.
  - done.
  - intros (_ & _ & Hin). apply Hfs. rewrite <-HexitLine.
    unfold stockOutIds, stockOuts in Hin. simpl in Hin.
    apply list_elem_of_fmap in Hin as (so & -> & Hso). apply list_elem_of_fmap_2.
    apply list_elem_of_filter in Hso. tauto.
Qed.

Lemma entries_after w p t :
  entries (after_transfer db transfer line stockOut exitLine) w p t = entries db w p t.
Proof. reflexivity. Qed.

Lemma receipts_after w p t :
  receipts (after_transfer db transfer line stockOut exitLine) w p t =
    receipts db w p t
    ++ (if decide (Transfer.to_warehouse_id transfer = w
                   ∧ TransferItem.product_type line = t ∧ TransferItem.product_id line = p)
        then [receipt_of_transfer line] else []).
Proof.
  unfold receipts. rewrite transferItemsIn_after, entries_after, fmap_app, <-app_assoc.
  by case_decide.
Qed.

Lemma decreased_after w p t d :
  decreased (after_transfer db transfer line stockOut exitLine) w p t d =
    decreased db w p t d
    + (if decide (Transfer.from_warehouse_id transfer = w
                  ∧ TransferItem.product_type line = t ∧ TransferItem.product_id line = p
                  ∧ TransferItem.batch_date line = d)
       then TransferItem.quantity line else 0).
Proof.
  unfold decreased. rewrite stockOutItems_after, transferItemsOut_after.
  rewrite filter_app, Zsum_app.
  destruct (decide (Transfer.from_warehouse_id transfer = w
                    ∧ TransferItem.product_type line = t
                    ∧ TransferItem.product_id line = p)) as [(? & ? & ?)|Hno].
  - rewrite filter_cons, filter_nil.
    destruct (decide (TransferItem.batch_date line = d)).
    + rewrite decide_True by done. rewrite Zsum_cons, Zsum_nil. lia.
    + rewrite decide_False by tauto. rewrite Zsum_nil. lia.
  - rewrite filter_nil, Zsum_nil, decide_False by tauto. lia.
Qed.
End after_transfer.

(** ** The totals before and after a transfer *)

Lemma total_clamped db w p t :
  totalQuantity (calculateProductStockInWarehouse db w p t) =
    Zsum (λ kv, Z.max 0 (bucket_quantity kv.2 - decreased db w p t (date_of_key kv)))
         (batchMap db w p t).
Proof.
  rewrite calculate_unfold. simpl. unfold kept.
  induction (batchMap db w p t) as [|kv m IH]; [done|].
  rewrite filter_cons, (Zsum_cons _ kv m), <-IH.
  pose proof (net_quantity_date (exitMap db w p t) kv) as Hnet.
  rewrite exitMap_decreased in Hnet.
  destruct (decide (0 < net_quantity (exitMap db w p t) kv)); rewrite ?Zsum_cons; lia.
Qed.

Lemma Zsum_differ_at {A} (f g : A → Z) (l : list A) x0 :
  NoDup l → x0 ∈ l → (∀ x, x ∈ l → x ≠ x0 → f x = g x) →
  Zsum f l = Zsum g l + (f x0 - g x0).
Proof.
  induction l as [|x l IH]; intros Hnd Hx0 Hfg; [by apply elem_of_nil in Hx0|].
  apply NoDup_cons in Hnd as [Hx Hnd]. rewrite !Zsum_cons.
  apply elem_of_cons in Hx0 as [->|Hx0].
  - rewrite (Zsum_ext f g l); [lia|].
    intros y Hy. apply Hfg; [by right|]. by intros ->.
  - rewrite IH; [|done..|].
    + rewrite (Hfg x); [lia|left|]. by intros ->.
    + intros y Hy. apply Hfg. by right.
Qed.

Lemma Zsum_set_pair {V} (F : string * V → Z) (m : list (string * V)) k v :
  Zsum F (JsMap.set m k v) =
    Zsum F m - (match JsMap.get m k with Some old => F (k, old) | None => 0 end) + F (k, v).
Proof.
  induction m as [|[k' v'] m IH]; simpl.
  - rewrite Zsum_cons, Zsum_nil. lia.
  - destruct (decide (k' = k)) as [->|]; rewrite !Zsum_cons; [lia|]. rewrite IH. lia.
Qed.

Lemma Zsum_add_receipt_by_quantity (h : string → Z → Z) m r :
  Zsum (λ kv, h kv.1 (bucket_quantity kv.2)) (add_receipt m r) =
    Zsum (λ kv, h kv.1 (bucket_quantity kv.2)) m
    - (match JsMap.get m (receipt_key r) with
       | Some current => h (receipt_key r) (bucket_quantity current)
       | None => 0
       end)
    + h (receipt_key r) (quantity_at m (receipt_key r) + r_quantity r).
Proof.
  unfold add_receipt, upsert, JsMap.has, quantity_at.
  destruct (JsMap.get m (receipt_key r)) as [current|] eqn:Hget.
  - rewrite Hget, Zsum_set_pair, Hget. simpl. lia.
  - rewrite get_set_eq, Zsum_set_pair, get_set_eq, Zsum_set_pair, Hget. simpl. lia.
Qed.

Section transfer_totals.
Context (db : Database) (transfer : Transfer.t) (line : TransferItem.t).
Context (stockOut : StockOut.t) (exitLine : StockOutItem.t).
Context (Hwd : well_dated db).
Context (Hfresh : fresh_ids db (Transfer.id transfer) (StockOut.id stockOut)).
Context (Hline : TransferItem.transfer_id line = Transfer.id transfer).
Context (Hreason : StockOut.reason stockOut = "transfer").
Context (HexitLine : StockOutItem.stockout_id exitLine = StockOut.id stockOut).
Context (Hdiffer : Transfer.from_warehouse_id transfer ≠ Transfer.to_warehouse_id transfer).

(** At the source the buckets are those of before and the decrease total of
    the date of the line grows by its quantity.  When the batch of the line
    is the only bucket of its date and holds at least the quantity, the total
    falls by exactly the quantity. *)
Lemma total_after_at_source :
  has_receipt db (Transfer.from_warehouse_id transfer) (TransferItem.product_id line)
    (TransferItem.product_type line) (TransferItem.batch_date line)
    (TransferItem.unit_price line) →
  (∀ price',
     has_receipt db (Transfer.from_warehouse_id transfer) (TransferItem.product_id line)
       (TransferItem.product_type line) (TransferItem.batch_date line) price' →
     price' = TransferItem.unit_price line) →
  TransferItem.quantity line
  ≤ received db (Transfer.from_warehouse_id transfer) (TransferItem.product_id line)
      (TransferItem.product_type line) (TransferItem.batch_date line)
      (TransferItem.unit_price line)
    - decreased db (Transfer.from_warehouse_id transfer) (TransferItem.product_id line)
        (TransferItem.product_type line) (TransferItem.batch_date line) →
  0 ≤ TransferItem.quantity line →
  totalQuantity
    (calculateProductStockInWarehouse (after_transfer db transfer line stockOut exitLine)
       (Transfer.from_warehouse_id transfer) (TransferItem.product_id line)
       (TransferItem.product_type line))
  = totalQuantity
      (calculateProductStockInWarehouse db (Transfer.from_warehouse_id transfer)
         (TransferItem.product_id line) (TransferItem.product_type line))
    - TransferItem.quantity line.
Proof.
  set (A := Transfer.from_warehouse_id transfer). set (p := TransferItem.product_id line).
  set (t := TransferItem.product_type line). set (d := TransferItem.batch_date line).
  set (price := TransferItem.unit_price line). set (q := TransferItem.quantity line).
  intros Hrec Honly Hle Hq.
  rewrite !total_clamped.
  assert (Hbm : batchMap (after_transfer db transfer line stockOut exitLine) A p t
                = batchMap db A p t).
  { rewrite !batchMap_receipts, receipts_after by done.
    rewrite decide_False, app_nil_r; [done|]. intros [Hto _]. by apply Hdiffer. }
  rewrite Hbm.
  destruct (bucket_exists db A p t d price Hrec) as [bucket Hin].
  destruct (bucket_facts db A p t _ bucket Hwd Hin)
    as (d0 & price0 & _ & Hd0 & Hk & _ & Hqty & _).
  assert (Hd : underscore_free d = true).
  { destruct Hrec as (r & Hr & <- & _). by eapply receipts_well_dated. }
  apply batch_key_inj in Hk as [<- <-]; [|done..].
  rewrite (Zsum_differ_at _
             (λ kv, Z.max 0 (bucket_quantity kv.2 - decreased db A p t (date_of_key kv)))
             _ (batch_key d price, bucket)).
  - change (date_of_key (batch_key d price, bucket))
      with (first_of (split "_" (batch_key d price))).
    rewrite batch_key_date by done. simpl.
    rewrite (decreased_after db transfer line stockOut exitLine) by done.
    rewrite decide_True by done. fold q. rewrite Hqty. lia.
  - eapply NoDup_fmap_1. apply batchMap_NoDup.
  - done.
  - intros [k b] Hkb Hne.
    rewrite (decreased_after db transfer line stockOut exitLine) by done.
    rewrite decide_False; [f_equal; lia|].
    intros (_ & _ & _ & Hdate). apply Hne.
    destruct (bucket_facts db A p t k b Hwd Hkb)
      as (d1 & price1 & Hrec1 & Hd1 & -> & _).
    unfold date_of_key in Hdate. simpl in Hdate. rewrite batch_key_date in Hdate by done.
    subst d1. fold d in Hrec1. apply Honly in Hrec1 as ->.
    f_equal. unfold A, p, t, d, price in *.
    pose proof (elem_get _ _ _ (batchMap_NoDup db A p t) Hkb).
    pose proof (elem_get _ _ _ (batchMap_NoDup db A p t) Hin).
    congruence.
Qed.

(** At the destination the decrease totals are those of before and the line
    is one more receipt.  When the decreases of its date are not negative and
    do not exceed what its batch held, the total rises by exactly the
    quantity. *)
Lemma total_after_at_destination :
  underscore_free (TransferItem.batch_date line) = true →
  0 ≤ decreased db (Transfer.to_warehouse_id transfer) (TransferItem.product_id line)
        (TransferItem.product_type line) (TransferItem.batch_date line) →
  decreased db (Transfer.to_warehouse_id transfer) (TransferItem.product_id line)
    (TransferItem.product_type line) (TransferItem.batch_date line)
  ≤ received db (Transfer.to_warehouse_id transfer) (TransferItem.product_id line)
      (TransferItem.product_type line) (TransferItem.batch_date line)
      (TransferItem.unit_price line) →
  0 ≤ TransferItem.quantity line →
  totalQuantity
    (calculateProductStockInWarehouse (after_transfer db transfer line stockOut exitLine)
       (Transfer.to_warehouse_id transfer) (TransferItem.product_id line)
       (TransferItem.product_type line))
  = totalQuantity
      (calculateProductStockInWarehouse db (Transfer.to_warehouse_id transfer)
         (TransferItem.product_id line) (TransferItem.product_type line))
    + TransferItem.quantity line.
Proof.
  set (B := Transfer.to_warehouse_id transfer). set (p := TransferItem.product_id line).
  set (t := TransferItem.product_type line). set (d := TransferItem.batch_date line).
  set (price := TransferItem.unit_price line). set (q := TransferItem.quantity line).
  intros Hd Hdec0 Hdec Hq.
  rewrite !total_clamped.
  assert (Hbm : batchMap (after_transfer db transfer line stockOut exitLine) B p t
                = add_receipt (batchMap db B p t) (receipt_of_transfer line)).
  { rewrite !batchMap_receipts, receipts_after by done.
    rewrite decide_True by done. by rewrite foldl_app. }
  rewrite Hbm.
  rewrite (Zsum_ext _ (λ kv, Z.max 0 (bucket_quantity kv.2
                                      - decreased db B p t (date_of_key kv)))).
  2:{ intros kv _. rewrite (decreased_after db transfer line stockOut exitLine) by done.
      rewrite decide_False; [f_equal; lia|]. intros [Hfrom _]. by apply Hdiffer. }
  rewrite (Zsum_add_receipt_by_quantity
             (λ k x, Z.max 0 (x - decreased db B p t (first_of (split "_" k))))).
  change (receipt_key (receipt_of_transfer line)) with (batch_key d price).
  change (r_quantity (receipt_of_transfer line)) with q.
  rewrite batch_key_date by done.
  pose proof (quantity_at_received db B p t d price Hwd Hd) as Hqty.
  unfold quantity_at in Hqty |- *.
  destruct (JsMap.get (batchMap db B p t) (batch_key d price)) as [current|];
    rewrite Hqty; unfold date_of_key; simpl; lia.
Qed.
End transfer_totals.

(** What [handleSubmit] writes when one row is selected. *)
Lemma handleSubmit_single form db tid sid db' row :
  selectedItems form = [row] →
  handleSubmit form db tid sid = Submitted db' →
  fromWarehouse form ≠ toWarehouse form
  ∧ 0 < TransferRow.transfer_quantity row
  ∧ TransferRow.transfer_quantity row ≤ TransferRow.quantity row
  ∧ db' =
      after_transfer db
        (Transfer.mk tid (fromWarehouse form) (toWarehouse form) (date form)
           (0 + TransferRow.transfer_quantity row * TransferRow.unit_price row))
        (TransferItem.mk tid (TransferRow.product_type row) (TransferRow.product_id row)
           (TransferRow.batch_date row) (TransferRow.transfer_quantity row)
           (TransferRow.unit_price row)
           (TransferRow.transfer_quantity row * TransferRow.unit_price row))
        (StockOut.mk sid (fromWarehouse form) (date form) "transfer"
           (0 + TransferRow.transfer_quantity row * TransferRow.unit_price row) (Some tid))
        (StockOutItem.mk sid (TransferRow.product_type row) (TransferRow.product_id row)
           (TransferRow.batch_date row) (TransferRow.transfer_quantity row)
           (TransferRow.unit_price row)
           (TransferRow.transfer_quantity row * TransferRow.unit_price row)).
Proof.
  intros Hsel. unfold handleSubmit. rewrite Hsel. simpl.
  repeat case_decide; try discriminate.
  intros [= <-]. split_and!; [done|lia|lia|reflexivity].
Qed.

(** ** Transfer symmetry *)




(** * Further properties of the stock computation *)

(** ** Edge cases and bounds *)

Lemma Zsum_le {A} (f g : A → Z) (l : list A) :
  (∀ x, x ∈ l → f x ≤ g x) → Zsum f l ≤ Zsum g l.
Proof.
  induction l as [|x l IH]; intros Hfg; [done|].
  rewrite !Zsum_cons.
  assert (f x ≤ g x) by (apply Hfg; left).
  assert (Zsum f l ≤ Zsum g l) by (apply IH; intros y Hy; apply Hfg; by right).
  lia.
Qed.

Lemma fetched_lines_checked db w p t :
  checked_ledger db →
  (∀ it, it ∈ or_empty (entries db w p t) →
     0 < InvoiceItem.quantity it ∧ 0 ≤ InvoiceItem.unit_price it)
  ∧ (∀ it, it ∈ or_empty (transferItemsIn db w p t) →
       0 < TransferItem.quantity it ∧ 0 ≤ TransferItem.unit_price it)
  ∧ (∀ it, it ∈ or_empty (stockOutItems db w p t) → 0 < StockOutItem.quantity it)
  ∧ (∀ it, it ∈ or_empty (transferItemsOut db w p t) → 0 < TransferItem.quantity it).
Proof.
  intros (Hii & Hti & Hsi).
  rewrite Forall_forall in Hii. rewrite Forall_forall in Hti. rewrite Forall_forall in Hsi.
  rewrite transferItemsIn_filter, transferItemsOut_filter, stockOutItems_filter.
  split_and!.
  - intros it Hit. apply Hii. unfold entries in Hit.
    case_decide; simpl in Hit; [|by apply elem_of_nil in Hit].
    apply list_elem_of_filter in Hit. tauto.
  - intros it [_ Hit]%list_elem_of_filter. by apply Hti.
  - intros it [_ Hit]%list_elem_of_filter. by apply Hsi.
  - intros it [_ Hit]%list_elem_of_filter. by apply Hti.
Qed.

Lemma receipts_checked db w p t r :
  checked_ledger db → r ∈ receipts db w p t → 0 < r_quantity r ∧ 0 ≤ r_price r.
Proof.
  intros Hck Hr. destruct (fetched_lines_checked db w p t Hck) as (He & Ht & _).
  unfold receipts in Hr.
  apply elem_of_app in Hr as [Hr|Hr]; apply list_elem_of_fmap in Hr as (it & -> & Hit).
  - by apply He.
  - by apply Ht.
Qed.

Lemma decreased_nonneg db w p t d : checked_ledger db → 0 ≤ decreased db w p t d.
Proof.
  intros Hck. destruct (fetched_lines_checked db w p t Hck) as (_ & _ & Hso & Hto).
  unfold decreased.
  assert (0 ≤ Zsum StockOutItem.quantity
                (filter (λ it, StockOutItem.batch_date it = d)
                        (or_empty (stockOutItems db w p t)))).
  { apply Zsum_nonneg. intros it [_ Hit]%list_elem_of_filter. apply Hso in Hit. lia. }
  assert (0 ≤ Zsum TransferItem.quantity
                (filter (λ it, TransferItem.batch_date it = d)
                        (or_empty (transferItemsOut db w p t)))).
  { apply Zsum_nonneg. intros it [_ Hit]%list_elem_of_filter. apply Hto in Hit. lia. }
  lia.
Qed.

Lemma bucket_quantity_nonneg db w p t k bucket :
  checked_ledger db → (k, bucket) ∈ batchMap db w p t → 0 ≤ bucket_quantity bucket.
Proof.
  intros Hck Hin.
  pose proof (elem_get _ _ _ (batchMap_NoDup db w p t) Hin) as Hget.
  pose proof (quantity_at_foldl (receipts db w p t) k []) as Hq.
  rewrite <-batchMap_receipts in Hq. unfold quantity_at in Hq. rewrite Hget in Hq.
  simpl in Hq. rewrite Hq, Z.add_0_l.
  apply Zsum_nonneg. intros r [_ Hr]%list_elem_of_filter.
  apply (receipts_checked db w p t r Hck) in Hr. lia.
Qed.

(** X1.  A pair without receipts has no stock: when no line of an active
    invoice of the warehouse and no transfer-in line is fetched for the
    product, the result is zero totals and no batch, whatever the ledger
    holds as decreases.  This is the case of a warehouse that no invoice and
    no transfer names, and of a product that no line names. *)
Theorem no_receipts_no_stock db w p t :
  (or_empty (entries db w p t) = [] ∧ or_empty (transferItemsIn db w p t) = []
   → calculateProductStockInWarehouse db w p t = mkResult 0 0 [])
  ∧ ((∀ inv, inv ∈ tbl_invoices db → Invoice.warehouse_id inv ≠ w)
     → (∀ tr, tr ∈ tbl_transfers db → Transfer.to_warehouse_id tr ≠ w)
     → calculateProductStockInWarehouse db w p t = mkResult 0 0 [])
  ∧ ((∀ it, it ∈ tbl_invoice_items db →
        ¬ (InvoiceItem.product_type it = t ∧ InvoiceItem.product_id it = p))
     → (∀ it, it ∈ tbl_transfer_items db →
          ¬ (TransferItem.product_type it = t ∧ TransferItem.product_id it = p))
     → calculateProductStockInWarehouse db w p t = mkResult 0 0 []).
Proof.
  assert (Hempty : or_empty (entries db w p t) = []
                   → or_empty (transferItemsIn db w p t) = []
                   → calculateProductStockInWarehouse db w p t = mkResult 0 0 []).
  { intros He Ht. unfold calculateProductStockInWarehouse, batchMap.
    by rewrite He, Ht. }
  split_and!.
  - intros [He Ht]. by apply Hempty.
  - intros Hinv Htr. apply Hempty.
    + unfold entries, invoiceIds, invoices. simpl.
      rewrite (filter_none _ (tbl_invoices db)); [done|].
      intros inv Hin [Hw _]. by apply (Hinv inv).
    + rewrite transferItemsIn_filter. apply filter_none.
      intros it _ (_ & _ & Hid). unfold transferInIds, transfersIn in Hid. simpl in Hid.
      apply list_elem_of_fmap in Hid as (tr & _ & [Hto Htr']%list_elem_of_filter).
      by apply (Htr tr).
  - intros Hii Hti. apply Hempty.
    + unfold entries. case_decide; [|done]. simpl. apply filter_none.
      intros it Hit (? & ? & _). by apply (Hii it).
    + rewrite transferItemsIn_filter. apply filter_none.
      intros it Hit (? & ? & _). by apply (Hti it).
Qed.

Lemma no_receipts_no_stock_witness :
  (∀ inv, inv ∈ tbl_invoices (ledger_with_reason "consumption") →
     Invoice.warehouse_id inv ≠ "W9")
  ∧ (∀ tr, tr ∈ tbl_transfers (ledger_with_reason "consumption") →
       Transfer.to_warehouse_id tr ≠ "W9")
  ∧ calculateProductStockInWarehouse (ledger_with_reason "consumption") "W9" "P1" reagent
    = mkResult 0 0 [].
Proof.
  assert (Hinv : ∀ inv, inv ∈ tbl_invoices (ledger_with_reason "consumption") →
                        Invoice.warehouse_id inv ≠ "W9").
  { intros inv ->%list_elem_of_singleton. discriminate. }
  assert (Htr : ∀ tr, tr ∈ tbl_transfers (ledger_with_reason "consumption") →
                      Transfer.to_warehouse_id tr ≠ "W9").
  { by intros tr ?%elem_of_nil. }
  split_and!; [exact Hinv|exact Htr|].
  exact (proj1 (proj2 (no_receipts_no_stock (ledger_with_reason "consumption")
                         "W9" "P1" reagent)) Hinv Htr).
Defined.

Lemma bucket_price_nonneg db w p t k bucket :
  checked_ledger db → (k, bucket) ∈ batchMap db w p t → 0 ≤ bucket_price bucket.
Proof.
  intros Hck Hin.
  pose proof (elem_get _ _ _ (batchMap_NoDup db w p t) Hin) as Hget.
  rewrite batchMap_receipts in Hget.
  apply bucket_from_foldl in Hget as [(r & Hr & _ & ->) _].
  apply (receipts_checked db w p t r Hck) in Hr. lia.
Qed.

(** X2.  On a ledger that meets the CHECK constraints of the schema the
    valuation is never negative: every entry of [batches] has a unit price
    and a total price of at least zero, and so has [totalValue]. *)
Theorem value_nonneg db w p t :
  checked_ledger db →
  Forall (λ b, 0 ≤ unit_price b ∧ 0 ≤ total_price b)
         (batches (calculateProductStockInWarehouse db w p t))
  ∧ 0 ≤ totalValue (calculateProductStockInWarehouse db w p t).
Proof.
  intros Hck. split.
  - rewrite batches_perm. apply Forall_fmap, Forall_forall.
    intros [k bucket] Hkept. simpl.
    pose proof (kept_positive _ _ _ Hkept) as Hpos.
    apply list_elem_of_filter in Hkept as [_ Hin].
    pose proof (bucket_price_nonneg db w p t k bucket Hck Hin). split; [done|nia].
  - rewrite calculate_unfold. simpl. apply Zsum_nonneg.
    intros [k bucket] Hkept. simpl.
    pose proof (kept_positive _ _ _ Hkept) as Hpos.
    apply list_elem_of_filter in Hkept as [_ Hin].
    pose proof (bucket_price_nonneg db w p t k bucket Hck Hin). nia.
Qed.

Lemma value_nonneg_witness :
  checked_ledger ledger_two_prices
  ∧ 0 ≤ totalValue (calculateProductStockInWarehouse ledger_two_prices "W1" "P1" reagent).
Proof.
  assert (Hck : checked_ledger ledger_two_prices).
  { apply (bool_decide_unpack _). vm_compute. reflexivity. }
  split; [exact Hck|].
  apply (value_nonneg ledger_two_prices "W1" "P1" reagent Hck).
Defined.

Lemma Zsum_indicator_notin (k : string) (c : Z) (D : list string) :
  k ∉ D → Zsum (λ d, if decide (k = d) then c else 0) D = 0.
Proof.
  intros Hk. rewrite (Zsum_ext _ (λ _, 0)), Zsum_zero; [done|].
  intros d Hd. rewrite decide_False; [done|]. by intros ->.
Qed.

Lemma Zsum_grouped_le {A} (key : A → string) (f : A → Z) (D : list string) (xs : list A) :
  NoDup D → (∀ x, x ∈ xs → 0 ≤ f x) →
  Zsum (λ d, Zsum f (filter (λ x, key x = d) xs)) D ≤ Zsum f xs.
Proof.
  intros Hnd. induction xs as [|x xs IH]; intros Hf.
  - rewrite (Zsum_ext _ (λ _, 0)), Zsum_zero; done.
  - rewrite (Zsum_ext _ (λ d, (if decide (key x = d) then f x else 0)
                              + Zsum f (filter (λ x, key x = d) xs))).
    + rewrite Zsum_plus, Zsum_cons.
      assert (0 ≤ f x) by (apply Hf; left).
      assert (Zsum (λ d, if decide (key x = d) then f x else 0) D ≤ f x).
      { destruct (decide (key x ∈ D)).
        - by rewrite Zsum_indicator.
        - by rewrite Zsum_indicator_notin. }
      assert (Zsum (λ d, Zsum f (filter (λ x, key x = d) xs)) D ≤ Zsum f xs).
      { apply IH. intros y Hy. apply Hf. by right. }
      lia.
    + intros d _. rewrite filter_cons.
      destruct (decide (key x = d)); rewrite ?Zsum_cons; lia.
Qed.

Lemma total_le_receipts db w p t :
  checked_ledger db →
  totalQuantity (calculateProductStockInWarehouse db w p t)
  ≤ Zsum InvoiceItem.quantity (or_empty (entries db w p t))
    + Zsum TransferItem.quantity (or_empty (transferItemsIn db w p t)).
Proof.
  intros Hck.
  pose proof (Zsum_foldl_receipts (receipts db w p t) []) as Hsum.
  rewrite <-batchMap_receipts, Zsum_nil, Z.add_0_l, Zsum_receipts in Hsum.
  rewrite total_clamped, <-Hsum. apply Zsum_le.
  intros [k bucket] Hin. simpl.
  pose proof (bucket_quantity_nonneg db w p t k bucket Hck Hin).
  pose proof (decreased_nonneg db w p t (date_of_key (k, bucket)) Hck). lia.
Qed.

(** X3.  On a ledger that meets the CHECK constraints the computed total
    never exceeds what the pair has received (the lines of the active
    invoices and the transfer-in lines); and when all the receipts of a batch
    date carry one price it is never below the signed sum of the fetched
    events: decreases that meet no bucket, or exceed their bucket, are not
    carried over to other buckets. *)
Theorem total_between_signed_sum_and_receipts db w p t :
  checked_ledger db →
  totalQuantity (calculateProductStockInWarehouse db w p t)
  ≤ Zsum InvoiceItem.quantity (or_empty (entries db w p t))
    + Zsum TransferItem.quantity (or_empty (transferItemsIn db w p t))
  ∧ (well_dated db → one_price_per_date db w p t →
     fetched_signed_sum db w p t
     ≤ totalQuantity (calculateProductStockInWarehouse db w p t)).
Proof.
  intros Hck.
  pose proof (Zsum_foldl_receipts (receipts db w p t) []) as Hsum.
  rewrite <-batchMap_receipts, Zsum_nil, Z.add_0_l, Zsum_receipts in Hsum.
  split; [by apply total_le_receipts|].
  intros Hwd Hone. rewrite total_clamped.
    destruct (fetched_lines_checked db w p t Hck) as (_ & _ & Hso & Hto).
    assert (Hdec : Zsum (decreased db w p t ∘ date_of_key) (batchMap db w p t)
                   ≤ Zsum StockOutItem.quantity (or_empty (stockOutItems db w p t))
                     + Zsum TransferItem.quantity (or_empty (transferItemsOut db w p t))).
    { rewrite <-Zsum_fmap. unfold decreased. rewrite Zsum_plus.
      pose proof (bucket_dates_NoDup db w p t Hwd Hone) as Hnd.
      pose proof (Zsum_grouped_le StockOutItem.batch_date StockOutItem.quantity _
                    (or_empty (stockOutItems db w p t)) Hnd) as H1.
      pose proof (Zsum_grouped_le TransferItem.batch_date TransferItem.quantity _
                    (or_empty (transferItemsOut db w p t)) Hnd) as H2.
      assert (∀ x, x ∈ or_empty (stockOutItems db w p t) → 0 ≤ StockOutItem.quantity x)
        as H1' by (intros x Hx; apply Hso in Hx; lia).
      assert (∀ x, x ∈ or_empty (transferItemsOut db w p t) → 0 ≤ TransferItem.quantity x)
        as H2' by (intros x Hx; apply Hto in Hx; lia).
      specialize (H1 H1'). specialize (H2 H2'). lia. }
    assert (Hlow : Zsum (λ kv, (bucket_quantity ∘ snd) kv
                               + - (decreased db w p t ∘ date_of_key) kv)
                        (batchMap db w p t)
                   ≤ Zsum (λ kv, Z.max 0 (bucket_quantity kv.2
                                          - decreased db w p t (date_of_key kv)))
                          (batchMap db w p t)).
    { apply Zsum_le. intros kv _. simpl. lia. }
    rewrite Zsum_plus in Hlow.
    assert (Hneg : ∀ l, Zsum (λ kv, - (decreased db w p t ∘ date_of_key) kv) l
                        = - Zsum (decreased db w p t ∘ date_of_key) l).
    { induction l as [|x l IHl]; [done|]. rewrite !Zsum_cons, IHl. lia. }
    rewrite Hneg, Hsum in Hlow. unfold fetched_signed_sum. lia.
Qed.

Lemma total_between_witness :
  checked_ledger ledger_inventory_loss
  ∧ totalQuantity (calculateProductStockInWarehouse ledger_inventory_loss "W1" "P1" reagent)
    ≤ Zsum InvoiceItem.quantity (or_empty (entries ledger_inventory_loss "W1" "P1" reagent))
      + Zsum TransferItem.quantity
          (or_empty (transferItemsIn ledger_inventory_loss "W1" "P1" reagent)).
Proof.
  assert (Hck : checked_ledger ledger_inventory_loss).
  { apply (bool_decide_unpack _). vm_compute. reflexivity. }
  split; [exact Hck|].
  apply (total_between_signed_sum_and_receipts ledger_inventory_loss "W1" "P1" reagent Hck).
Defined.

(** X4.  [validateStockAvailability] reports as current stock the sum of the
    quantities of the batches, which is never negative; a request is
    available exactly when it does not exceed that sum, so a request of zero
    or less is always available, and on a ledger that meets the CHECK
    constraints a request above everything the pair has received never is. *)
Theorem availability db w p t requested :
  let result := validateStockAvailability db w p t requested in
  0 ≤ result.2
  ∧ result.2 = Zsum quantity (batches (calculateProductStockInWarehouse db w p t))
  ∧ (result.1 = true ↔ requested ≤ result.2)
  ∧ (requested ≤ 0 → result.1 = true)
  ∧ (checked_ledger db →
     Zsum InvoiceItem.quantity (or_empty (entries db w p t))
     + Zsum TransferItem.quantity (or_empty (transferItemsIn db w p t)) < requested →
     result.1 = false).
Proof.
  unfold validateStockAvailability. cbn [fst snd].
  pose proof (totalQuantity_nonneg db w p t) as Hnn.
  split_and!.
  - done.
  - rewrite (Zsum_perm _ _ _ (batches_perm db w p t)).
    rewrite calculate_unfold. simpl. unfold emitted. by rewrite Zsum_fmap.
  - apply bool_decide_eq_true.
  - intros Hreq. apply bool_decide_eq_true. lia.
  - intros Hck Hreq. apply bool_decide_eq_false.
    pose proof (total_le_receipts db w p t Hck). lia.
Qed.

Lemma availability_witness :
  (validateStockAvailability ledger_two_prices "W1" "P1" reagent 0).1 = true.
Proof.
  apply (availability ledger_two_prices "W1" "P1" reagent 0). reflexivity.
Defined.

(** ** Supplier attribution *)

Lemma head_set_add i ids :
  head (set_add i ids) = match ids with [] => Some i | j :: _ => Some j end.
Proof.
  unfold set_add. destruct ids as [|j ids]; [done|]. by case_decide.
Qed.

Lemma head_app_singleton {A} (l : list A) x :
  head (l ++ [x]) = match l with [] => Some x | y :: _ => Some y end.
Proof. by destruct l. Qed.

(** The first invoice id of a bucket is the invoice of the first receipt of
    its key that has one. *)
Lemma first_invoice_foldl rs : ∀ k b,
  JsMap.get (foldl add_receipt [] rs) k = Some b →
  head (bucket_invoiceIds b) = head (omap r_invoice (filter (λ r, receipt_key r = k) rs)).
Proof.
  induction rs as [|r rs IH] using rev_ind; [done|].
  intros k b. rewrite foldl_app, filter_app, omap_app. simpl.
  unfold add_receipt at 1.
  destruct (decide (receipt_key r = k)) as [<-|Hne].
  - rewrite upsert_get_eq. intros [= <-]. simpl.
    rewrite filter_cons, decide_True, filter_nil by done.
    change (omap r_invoice [r])
      with (match r_invoice r with Some i => [i] | None => [] end).
    unfold current_bucket.
    destruct (JsMap.get (foldl add_receipt [] rs) (receipt_key r)) as [current|] eqn:Hget.
    + specialize (IH _ _ Hget).
      destruct (r_invoice r) as [i|]; simpl.
      * rewrite head_set_add, head_app_singleton.
        destruct (bucket_invoiceIds current), (omap r_invoice _); simpl in IH; congruence.
      * by rewrite app_nil_r.
    + assert (Hnone : filter (λ r0, receipt_key r0 = receipt_key r) rs = []).
      { apply filter_none. intros r' Hr' Hkey.
        apply get_None in Hget. apply Hget, keys_foldl. right. by exists r'. }
      rewrite Hnone. simpl. by destruct (r_invoice r).
  - rewrite upsert_get_ne by done. intros Hget.
    rewrite filter_cons, decide_False, filter_nil, app_nil_r by done. by apply IH.
Qed.

Lemma first_invoice_receipts db w p t d price :
  well_dated db → underscore_free d = true →
  omap r_invoice (filter (λ r, receipt_key r = batch_key d price) (receipts db w p t))
  = InvoiceItem.invoice_id
    <$> filter (λ e, InvoiceItem.batch_date e = d ∧ InvoiceItem.unit_price e = price)
               (or_empty (entries db w p t)).
Proof.
  intros Hwd Hd.
  assert (Hkey : ∀ r, r ∈ receipts db w p t →
            receipt_key r = batch_key d price ↔ r_date r = d ∧ r_price r = price).
  { intros r Hr. unfold receipt_key. split.
    - apply batch_key_inj; [|done]. by eapply receipts_well_dated.
    - by intros [-> ->]. }
  rewrite (filter_ext_in _ (λ r, r_date r = d ∧ r_price r = price)) by done.
  unfold receipts. rewrite filter_app, omap_app.
  assert (Htr : ∀ l : list TransferItem.t,
            omap r_invoice (filter (λ r, r_date r = d ∧ r_price r = price)
                                   (receipt_of_transfer <$> l)) = []).
  { induction l as [|x l IHl]; [done|]. rewrite fmap_cons, filter_cons.
    case_decide; [|done]. simpl. exact IHl. }
  rewrite Htr, app_nil_r.
  induction (or_empty (entries db w p t)) as [|e l IHl]; [done|].
  rewrite fmap_cons, !filter_cons.
  change (r_date (receipt_of_entry e)) with (InvoiceItem.batch_date e).
  change (r_price (receipt_of_entry e)) with (InvoiceItem.unit_price e).
  destruct (decide (InvoiceItem.batch_date e = d ∧ InvoiceItem.unit_price e = price));
    [|exact IHl].
  rewrite fmap_cons, <-IHl. reflexivity.
Qed.

(** X5.  The supplier shown for a batch is the supplier of the invoice of
    the first fetched invoice line of its date and price; a batch that was
    received through transfers only has the empty supplier. *)
Theorem supplier_of_first_invoice db w p t b :
  well_dated db →
  NoDup (Invoice.id <$> tbl_invoices db) →
  b ∈ batches (calculateProductStockInWarehouse db w p t) →
  match filter (λ e, InvoiceItem.batch_date e = batch_date b
                     ∧ InvoiceItem.unit_price e = unit_price b)
               (or_empty (entries db w p t)) with
  | [] => supplier b = EmptyString
  | e :: _ =>
      ∃ inv, inv ∈ tbl_invoices db
             ∧ Invoice.id inv = InvoiceItem.invoice_id e
             ∧ Invoice.warehouse_id inv = w
             ∧ Invoice.status inv = "active"
             ∧ supplier b = Invoice.supplier inv
  end.
Proof.
  intros Hwd Hnd Hb. rewrite batches_perm in Hb.
  apply list_elem_of_fmap in Hb as ([k bucket] & -> & Hkept).
  apply list_elem_of_filter in Hkept as [_ Hin].
  destruct (bucket_facts db w p t k bucket Hwd Hin)
    as (d & price & _ & Hd & -> & Hprice & _).
  pose proof (elem_get _ _ _ (batchMap_NoDup db w p t) Hin) as Hget.
  rewrite batchMap_receipts in Hget.
  apply first_invoice_foldl in Hget.
  rewrite first_invoice_receipts in Hget by done.
  unfold batch_of. simpl. rewrite batch_key_date, Hprice by done.
  destruct (filter _ (or_empty (entries db w p t))) as [|e es] eqn:Hes; simpl in Hget.
  - by destruct (bucket_invoiceIds bucket).
  - destruct (bucket_invoiceIds bucket) as [|i ids]; [done|].
    simpl in Hget. injection Hget as ->.
    assert (He : e ∈ or_empty (entries db w p t)).
    { assert (e ∈ e :: es) as He' by left. rewrite <-Hes in He'.
      apply list_elem_of_filter in He'. tauto. }
    assert (Hid : InvoiceItem.invoice_id e ∈ invoiceIds db w).
    { unfold entries in He. case_decide; simpl in He; [|by apply elem_of_nil in He].
      apply list_elem_of_filter in He. tauto. }
    pose proof Hid as Hid'. unfold invoiceIds, invoices in Hid'. simpl in Hid'.
    apply list_elem_of_fmap in Hid' as (inv & Heq & Hinv).
    pose proof Hinv as Hinv'. apply list_elem_of_filter in Hinv' as [[Hw Hst] Hmem].
    exists inv. split_and!; try done.
    simpl. rewrite Heq. unfold invoiceMap, invoices. simpl.
    rewrite (foldl_insert_lookup Invoice.id
               (λ inv, or_empty_string (Some (Invoice.supplier inv)))).
    + by rewrite !or_empty_string_Some.
    + by apply NoDup_fmap_filter.
    + done.
Qed.

Lemma supplier_of_first_invoice_witness :
  well_dated ledger_example
  ∧ NoDup (Invoice.id <$> tbl_invoices ledger_example)
  ∧ mkBatch "2024-01-10" 100 5 500 "Acme"
    ∈ batches (calculateProductStockInWarehouse ledger_example "W1" "P1" reagent)
  ∧ ∃ inv, inv ∈ tbl_invoices ledger_example
           ∧ Invoice.id inv = "I1"
           ∧ Invoice.warehouse_id inv = "W1"
           ∧ Invoice.status inv = "active"
           ∧ "Acme" = Invoice.supplier inv.
Proof.
  assert (Hwd : well_dated ledger_example) by (split; repeat constructor).
  assert (Hnd : NoDup (Invoice.id <$> tbl_invoices ledger_example)).
  { apply (bool_decide_unpack _). vm_compute. reflexivity. }
  assert (Hb : mkBatch "2024-01-10" 100 5 500 "Acme"
               ∈ batches (calculateProductStockInWarehouse ledger_example "W1" "P1" reagent)).
  { vm_compute. left. }
  split_and!; [exact Hwd|exact Hnd|exact Hb|].
  exact (supplier_of_first_invoice ledger_example "W1" "P1" reagent _ Hwd Hnd Hb).
Defined.

(** * The write paths *)

(** ** Fetches after an insertion *)

Lemma entries_filter db w p t :
  or_empty (entries db w p t) =
    filter (λ it, InvoiceItem.product_type it = t ∧ InvoiceItem.product_id it = p
                  ∧ InvoiceItem.invoice_id it ∈ invoiceIds db w)
           (tbl_invoice_items db).
Proof.
  unfold entries. case_decide as Hlen; [done|]. simpl.
  symmetry. apply filter_none. intros it _ (_ & _ & Hin).
  destruct (invoiceIds db w); [by apply elem_of_nil in Hin|]. simpl in Hlen. lia.
Qed.

(** Lines selected through the ids of their documents, when documents and
    lines are added and old and new do not refer to each other. *)
Lemma filter_refs_app {A D} (Q1 Q2 : A → Prop)
    `{!∀ x, Decision (Q1 x), !∀ x, Decision (Q2 x)}
    (P : D → Prop) `{!∀ x, Decision (P x)}
    (ref : A → string) (id : D → string) (docs new_docs : list D) (rows new_rows : list A) :
  (∀ r, r ∈ rows → ref r ∉ (id <$> new_docs)) →
  (∀ r, r ∈ new_rows → ref r ∉ (id <$> docs)) →
  filter (λ r, Q1 r ∧ Q2 r ∧ ref r ∈ (id <$> filter P (docs ++ new_docs))) (rows ++ new_rows)
  = filter (λ r, Q1 r ∧ Q2 r ∧ ref r ∈ (id <$> filter P docs)) rows
    ++ filter (λ r, Q1 r ∧ Q2 r ∧ ref r ∈ (id <$> filter P new_docs)) new_rows.
Proof.
  intros Hold Hnew.
  assert (Hsub : ∀ (l : list D) i, i ∈ id <$> filter P l → i ∈ id <$> l).
  { intros l i (x & -> & Hx)%list_elem_of_fmap. apply list_elem_of_fmap_2.
    apply list_elem_of_filter in Hx. tauto. }
  rewrite filter_app. f_equal; apply filter_ext_in; intros r Hr;
    rewrite filter_app, fmap_app, elem_of_app.
  - split; [|tauto]. intros (? & ? & [Hin|Hin]); [done|].
    apply Hsub in Hin. by apply Hold in Hr.
  - split; [|tauto]. intros (? & ? & [Hin|Hin]); [|done].
    apply Hsub in Hin. by apply Hnew in Hr.
Qed.

Section appended.
Context (db db' : Database) (w p : string) (t : ProductType).

Lemma entries_appended (docs : list Invoice.t) (rows : list InvoiceItem.t) :
  tbl_invoices db' = tbl_invoices db ++ docs →
  tbl_invoice_items db' = tbl_invoice_items db ++ rows →
  (∀ it, it ∈ tbl_invoice_items db → InvoiceItem.invoice_id it ∉ (Invoice.id <$> docs)) →
  (∀ it, it ∈ rows → InvoiceItem.invoice_id it ∉ (Invoice.id <$> tbl_invoices db)) →
  or_empty (entries db' w p t) =
    or_empty (entries db w p t)
    ++ filter (λ it, InvoiceItem.product_type it = t ∧ InvoiceItem.product_id it = p
                     ∧ InvoiceItem.invoice_id it
                       ∈ (Invoice.id <$> filter (λ inv, Invoice.warehouse_id inv = w
                                                        ∧ Invoice.status inv = "active")
                                                docs))
              rows.
Proof.
  intros Hi Hii H1 H2.
  rewrite !entries_filter. unfold invoiceIds, invoices. simpl. rewrite Hi, Hii.
  pose proof (filter_refs_app
                (λ it, InvoiceItem.product_type it = t) (λ it, InvoiceItem.product_id it = p)
                (λ inv, Invoice.warehouse_id inv = w ∧ Invoice.status inv = "active")
                InvoiceItem.invoice_id Invoice.id
                (tbl_invoices db) docs (tbl_invoice_items db) rows H1 H2) as Hlines.
  cbv beta in Hlines. exact Hlines.
Qed.

Lemma transferItemsIn_appended (docs : list Transfer.t) (rows : list TransferItem.t) :
  tbl_transfers db' = tbl_transfers db ++ docs →
  tbl_transfer_items db' = tbl_transfer_items db ++ rows →
  (∀ it, it ∈ tbl_transfer_items db → TransferItem.transfer_id it ∉ (Transfer.id <$> docs)) →
  (∀ it, it ∈ rows → TransferItem.transfer_id it ∉ (Transfer.id <$> tbl_transfers db)) →
  or_empty (transferItemsIn db' w p t) =
    or_empty (transferItemsIn db w p t)
    ++ filter (λ it, TransferItem.product_type it = t ∧ TransferItem.product_id it = p
                     ∧ TransferItem.transfer_id it
                       ∈ (Transfer.id <$> filter (λ tr, Transfer.to_warehouse_id tr = w) docs))
              rows.
Proof.
  intros Ht Hti H1 H2.
  rewrite !transferItemsIn_filter. unfold transferInIds, transfersIn. simpl. rewrite Ht, Hti.
  pose proof (filter_refs_app
                (λ it, TransferItem.product_type it = t) (λ it, TransferItem.product_id it = p)
                (λ tr, Transfer.to_warehouse_id tr = w)
                TransferItem.transfer_id Transfer.id
                (tbl_transfers db) docs (tbl_transfer_items db) rows H1 H2) as Hlines.
  cbv beta in Hlines. exact Hlines.
Qed.

Lemma transferItemsOut_appended (docs : list Transfer.t) (rows : list TransferItem.t) :
  tbl_transfers db' = tbl_transfers db ++ docs →
  tbl_transfer_items db' = tbl_transfer_items db ++ rows →
  (∀ it, it ∈ tbl_transfer_items db → TransferItem.transfer_id it ∉ (Transfer.id <$> docs)) →
  (∀ it, it ∈ rows → TransferItem.transfer_id it ∉ (Transfer.id <$> tbl_transfers db)) →
  or_empty (transferItemsOut db' w p t) =
    or_empty (transferItemsOut db w p t)
    ++ filter (λ it, TransferItem.product_type it = t ∧ TransferItem.product_id it = p
                     ∧ TransferItem.transfer_id it
                       ∈ (Transfer.id <$> filter (λ tr, Transfer.from_warehouse_id tr = w) docs))
              rows.
Proof.
  intros Ht Hti H1 H2.
  rewrite !transferItemsOut_filter. unfold transferOutIds, transfersOut. simpl.
  rewrite Ht, Hti.
  pose proof (filter_refs_app
                (λ it, TransferItem.product_type it = t) (λ it, TransferItem.product_id it = p)
                (λ tr, Transfer.from_warehouse_id tr = w)
                TransferItem.transfer_id Transfer.id
                (tbl_transfers db) docs (tbl_transfer_items db) rows H1 H2) as Hlines.
  cbv beta in Hlines. exact Hlines.
Qed.

Lemma stockOutItems_appended (docs : list StockOut.t) (rows : list StockOutItem.t) :
  tbl_stock_out db' = tbl_stock_out db ++ docs →
  tbl_stock_out_items db' = tbl_stock_out_items db ++ rows →
  (∀ it, it ∈ tbl_stock_out_items db → StockOutItem.stockout_id it ∉ (StockOut.id <$> docs)) →
  (∀ it, it ∈ rows → StockOutItem.stockout_id it ∉ (StockOut.id <$> tbl_stock_out db)) →
  or_empty (stockOutItems db' w p t) =
    or_empty (stockOutItems db w p t)
    ++ filter (λ it, StockOutItem.product_type it = t ∧ StockOutItem.product_id it = p
                     ∧ StockOutItem.stockout_id it
                       ∈ (StockOut.id <$> filter (λ so, StockOut.warehouse_id so = w
                                                        ∧ StockOut.reason so ≠ "transfer")
                                                 docs))
              rows.
Proof.
  intros Hs Hsi H1 H2.
  rewrite !stockOutItems_filter. unfold stockOutIds, stockOuts. simpl. rewrite Hs, Hsi.
  pose proof (filter_refs_app
                (λ it, StockOutItem.product_type it = t) (λ it, StockOutItem.product_id it = p)
                (λ so, StockOut.warehouse_id so = w ∧ StockOut.reason so ≠ "transfer")
                StockOutItem.stockout_id StockOut.id
                (tbl_stock_out db) docs (tbl_stock_out_items db) rows H1 H2) as Hlines.
  cbv beta in Hlines. exact Hlines.
Qed.

(** Stock-out documents tagged [transfer] and their lines are not fetched. *)
Lemma stockOutItems_appended_transfer (docs : list StockOut.t) (rows : list StockOutItem.t) :
  tbl_stock_out db' = tbl_stock_out db ++ docs →
  tbl_stock_out_items db' = tbl_stock_out_items db ++ rows →
  Forall (λ so, StockOut.reason so = "transfer") docs →
  (∀ it, it ∈ rows → StockOutItem.stockout_id it ∉ (StockOut.id <$> tbl_stock_out db)) →
  or_empty (stockOutItems db' w p t) = or_empty (stockOutItems db w p t).
Proof.
  intros Hs Hsi Hdocs H2.
  rewrite !stockOutItems_filter. unfold stockOutIds, stockOuts. simpl. rewrite Hs, Hsi.
  rewrite (filter_app _ (tbl_stock_out db) docs).
  rewrite (filter_none _ docs), app_nil_r.
  2:{ intros so Hso [_ Hreason]. rewrite Forall_forall in Hdocs. by apply Hreason, Hdocs. }
  rewrite filter_app, (filter_none _ rows), app_nil_r; [done|].
  intros it Hit (_ & _ & Hin). apply (H2 it Hit).
  apply list_elem_of_fmap in Hin as (so & -> & Hso%list_elem_of_filter).
  apply list_elem_of_fmap_2. tauto.
Qed.

Lemma entries_same :
  tbl_invoices db' = tbl_invoices db → tbl_invoice_items db' = tbl_invoice_items db →
  entries db' w p t = entries db w p t.
Proof.
  intros Hi Hii. unfold entries, invoiceIds, invoices. simpl. by rewrite Hi, Hii.
Qed.

Lemma transferItems_same :
  tbl_transfers db' = tbl_transfers db → tbl_transfer_items db' = tbl_transfer_items db →
  transferItemsIn db' w p t = transferItemsIn db w p t
  ∧ transferItemsOut db' w p t = transferItemsOut db w p t.
Proof.
  intros Ht Hti.
  unfold transferItemsIn, transferItemsOut, transferInIds, transferOutIds,
    transfersIn, transfersOut.
  simpl. by rewrite Ht, Hti.
Qed.

Lemma stockOutItems_same :
  tbl_stock_out db' = tbl_stock_out db → tbl_stock_out_items db' = tbl_stock_out_items db →
  stockOutItems db' w p t = stockOutItems db w p t.
Proof.
  intros Hs Hsi. unfold stockOutItems, stockOutIds, stockOuts. simpl. by rewrite Hs, Hsi.
Qed.

Lemma invoiceMap_same :
  tbl_invoices db' = tbl_invoices db → invoiceMap db' w = invoiceMap db w.
Proof. intros Hi. unfold invoiceMap, invoices. simpl. by rewrite Hi. Qed.
End appended.

(** The result depends on the ledger through the four fetched line lists and
    the supplier map only. *)
Lemma calculate_ext db db' w p t :
  or_empty (entries db' w p t) = or_empty (entries db w p t) →
  or_empty (transferItemsIn db' w p t) = or_empty (transferItemsIn db w p t) →
  or_empty (stockOutItems db' w p t) = or_empty (stockOutItems db w p t) →
  or_empty (transferItemsOut db' w p t) = or_empty (transferItemsOut db w p t) →
  invoiceMap db' w = invoiceMap db w →
  calculateProductStockInWarehouse db' w p t = calculateProductStockInWarehouse db w p t.
Proof.
  intros He Hti Hso Hto Hmap.
  unfold calculateProductStockInWarehouse, batchMap, exitMap, supplier_of_map.
  by rewrite He, Hti, Hso, Hto, Hmap.
Qed.

(** ** The total as a sum over the batches of the ledger *)

Lemma Zsum_sub {A} (f : A → Z) (L K : list A) :
  NoDup L → NoDup K → (∀ x, x ∈ L → x ∈ K) → (∀ x, x ∈ K → x ∉ L → f x = 0) →
  Zsum f L = Zsum f K.
Proof.
  intros HL HK Hsub Hzero.
  destruct (submseteq_Permutation L K) as [k Hk]; [by apply NoDup_submseteq|].
  rewrite (Zsum_perm f K (L ++ k)) by done. rewrite Zsum_app.
  rewrite Hk in HK. apply NoDup_app in HK as (_ & Hdisj & _).
  rewrite (Zsum_ext f (λ _, 0) k), Zsum_zero; [lia|].
  intros x Hx. apply Hzero.
  - rewrite Hk. apply elem_of_app. by right.
  - intros HxL. by apply (Hdisj x).
Qed.

Lemma bucket_batch_facts db w p t k bucket :
  well_dated db → (k, bucket) ∈ batchMap db w p t →
  ∃ d price,
    bucket_batch (k, bucket) = (d, price)
    ∧ has_receipt db w p t d price ∧ underscore_free d = true
    ∧ k = batch_key d price
    ∧ bucket_quantity bucket = received db w p t d price.
Proof.
  intros Hwd Hin.
  destruct (bucket_facts db w p t k bucket Hwd Hin)
    as (d & price & Hrec & Hd & -> & Hprice & Hq & _).
  exists d, price. unfold bucket_batch, date_of_key. simpl.
  rewrite batch_key_date by done. by rewrite Hprice.
Qed.

Lemma bucket_batch_NoDup db w p t :
  well_dated db → NoDup (bucket_batch <$> batchMap db w p t).
Proof.
  intros Hwd. apply NoDup_fmap_2_strong.
  - intros [k1 b1] [k2 b2] H1 H2 Heq.
    destruct (bucket_batch_facts db w p t k1 b1 Hwd H1) as (d1 & p1 & E1 & _ & _ & K1 & _).
    destruct (bucket_batch_facts db w p t k2 b2 Hwd H2) as (d2 & p2 & E2 & _ & _ & K2 & _).
    assert (k1 = k2) as -> by congruence.
    f_equal.
    pose proof (elem_get _ _ _ (batchMap_NoDup db w p t) H1).
    pose proof (elem_get _ _ _ (batchMap_NoDup db w p t) H2).
    congruence.
  - eapply NoDup_fmap_1. apply batchMap_NoDup.
Qed.

Lemma received_no_receipt db w p t d price :
  ¬ has_receipt db w p t d price → received db w p t d price = 0.
Proof.
  intros Hno. rewrite received_receipts.
  rewrite filter_none; [done|].
  intros r Hr [Hd Hp]. apply Hno. by exists r.
Qed.

(** The total over any duplicate-free list of batches that covers the
    receipts. *)
Lemma total_over db w p t (K : list (string * Z)) :
  well_dated db → (∀ d, 0 ≤ decreased db w p t d) →
  NoDup K → (∀ r, r ∈ receipts db w p t → receipt_batch r ∈ K) →
  totalQuantity (calculateProductStockInWarehouse db w p t)
  = Zsum (stock_of_batch db w p t) K.
Proof.
  intros Hwd Hdec HK Hcover. rewrite total_clamped.
  rewrite (Zsum_ext _ (stock_of_batch db w p t ∘ bucket_batch)).
  2:{ intros [k b] Hin.
      destruct (bucket_batch_facts db w p t k b Hwd Hin) as (d & price & E & _ & _ & _ & Hq).
      unfold compose, stock_of_batch. rewrite E. simpl. rewrite Hq.
      pose proof (f_equal fst E) as Hd. simpl in Hd. by rewrite Hd. }
  rewrite <-Zsum_fmap. apply Zsum_sub; [by apply bucket_batch_NoDup|done|..].
  - intros x ([k b] & -> & Hin)%list_elem_of_fmap.
    destruct (bucket_batch_facts db w p t k b Hwd Hin)
      as (d & price & -> & (r & Hr & <- & <-) & _).
    by apply Hcover.
  - intros [d price] _ Hnot. unfold stock_of_batch. simpl.
    rewrite received_no_receipt; [specialize (Hdec d); lia|].
    intros Hrec. apply Hnot.
    destruct (bucket_exists db w p t d price Hrec) as [bucket Hin].
    apply list_elem_of_fmap. exists (batch_key d price, bucket). split; [|done].
    destruct (bucket_batch_facts db w p t _ bucket Hwd Hin)
      as (d' & price' & -> & _ & Hd' & Hk & _).
    destruct Hrec as (r & Hr & <- & <-).
    apply batch_key_inj in Hk as [-> ->]; [done| |done].
    by eapply receipts_well_dated.
Qed.

(** The batches of the receipts of two ledgers. *)
Lemma batches_cover db db' w p t :
  ∃ K : list (string * Z),
    NoDup K
    ∧ (∀ r, r ∈ receipts db w p t → receipt_batch r ∈ K)
    ∧ (∀ r, r ∈ receipts db' w p t → receipt_batch r ∈ K).
Proof.
  exists (remove_dups (receipt_batch <$> (receipts db w p t ++ receipts db' w p t))).
  split_and!; [apply NoDup_remove_dups|..];
    intros r Hr; apply elem_of_remove_dups, list_elem_of_fmap_2, elem_of_app; auto.
Qed.

Lemma Zsum_grouped_by {A K} `{EqDecision K} (key : A → K) (f : A → Z)
    (D : list K) (xs : list A) :
  NoDup D → (∀ x, x ∈ xs → key x ∈ D) →
  Zsum (λ d, Zsum f (filter (λ x, key x = d) xs)) D = Zsum f xs.
Proof.
  intros Hnd. induction xs as [|x xs IH]; intros Hcover.
  - rewrite (Zsum_ext _ (λ _, 0)), Zsum_zero; done.
  - rewrite (Zsum_ext _ (λ d, (if decide (key x = d) then f x else 0)
                              + Zsum f (filter (λ x, key x = d) xs))).
    + rewrite Zsum_plus, IH, Zsum_cons.
      2:{ intros y Hy. apply Hcover. by right. }
      f_equal.
      assert (Hx : key x ∈ D) by (apply Hcover; left).
      clear IH Hcover. induction D as [|d D IHD]; [by apply elem_of_nil in Hx|].
      apply NoDup_cons in Hnd as [Hd Hnd]. rewrite Zsum_cons.
      apply elem_of_cons in Hx as [->|Hx].
      * rewrite decide_True by done.
        rewrite (Zsum_ext _ (λ _, 0)), Zsum_zero; [lia|].
        intros d' Hd'. rewrite decide_False; [done|]. intros Heq. by rewrite Heq in Hd.
      * rewrite decide_False; [rewrite IHD by done; lia|].
        intros Heq. by rewrite Heq in Hx.
    + intros d _. rewrite filter_cons.
      destruct (decide (key x = d)); rewrite ?Zsum_cons; lia.
Qed.

Lemma Zsum_received db w p t (K : list (string * Z)) :
  NoDup K → (∀ r, r ∈ receipts db w p t → receipt_batch r ∈ K) →
  Zsum (λ x, received db w p t x.1 x.2) K = Zsum r_quantity (receipts db w p t).
Proof.
  intros HK Hcover.
  rewrite <-(Zsum_grouped_by receipt_batch r_quantity K (receipts db w p t)) by done.
  apply Zsum_ext. intros [d price] _. simpl. rewrite received_receipts.
  f_equal. apply filter_ext_in. intros r _. unfold receipt_batch.
  split; [by intros [-> ->]|by intros [= -> ->]].
Qed.

(** More received and not more taken out: the total does not fall. *)
Lemma total_mono db db' w p t :
  well_dated db → well_dated db' →
  (∀ d, 0 ≤ decreased db' w p t d) →
  (∀ d, decreased db' w p t d ≤ decreased db w p t d) →
  (∀ d price, received db w p t d price ≤ received db' w p t d price) →
  totalQuantity (calculateProductStockInWarehouse db w p t)
  ≤ totalQuantity (calculateProductStockInWarehouse db' w p t).
Proof.
  intros Hwd Hwd' Hdec' Hdec Hrec.
  destruct (batches_cover db db' w p t) as (K & HK & Hc & Hc').
  rewrite (total_over db w p t K), (total_over db' w p t K); try done.
  - apply Zsum_le. intros [d price] _. unfold stock_of_batch. simpl.
    specialize (Hdec d). specialize (Hrec d price). lia.
  - intros d. specialize (Hdec d). specialize (Hdec' d). lia.
Qed.

(** The same decreases: the total grows by at most what the receipts grow. *)
Lemma total_growth_bound db db' w p t :
  well_dated db → well_dated db' →
  (∀ d, 0 ≤ decreased db w p t d) →
  (∀ d, decreased db' w p t d = decreased db w p t d) →
  (∀ d price, received db w p t d price ≤ received db' w p t d price) →
  totalQuantity (calculateProductStockInWarehouse db' w p t)
  - totalQuantity (calculateProductStockInWarehouse db w p t)
  ≤ Zsum r_quantity (receipts db' w p t) - Zsum r_quantity (receipts db w p t).
Proof.
  intros Hwd Hwd' Hdec0 Hdec Hrec.
  destruct (batches_cover db db' w p t) as (K & HK & Hc & Hc').
  rewrite (total_over db w p t K), (total_over db' w p t K); try done.
  2:{ intros d. rewrite Hdec. apply Hdec0. }
  rewrite <-(Zsum_received db w p t K), <-(Zsum_received db' w p t K) by done.
  assert (Zsum (stock_of_batch db' w p t) K
          ≤ Zsum (λ x, stock_of_batch db w p t x
                       + (received db' w p t x.1 x.2 - received db w p t x.1 x.2)) K).
  { apply Zsum_le. intros [d price] _. unfold stock_of_batch. simpl.
    rewrite Hdec. specialize (Hrec d price). lia. }
  rewrite Zsum_plus in H.
  assert (Zsum (λ x, received db' w p t x.1 x.2 - received db w p t x.1 x.2) K
          = Zsum (λ x, received db' w p t x.1 x.2) K
            - Zsum (λ x, received db w p t x.1 x.2) K).
  { clear. induction K as [|x K IH]; [done|]. rewrite !Zsum_cons. lia. }
  lia.
Qed.

(** ** The transfer form *)

Lemma Forall_imap_pres {A} (P : A → Prop) (f : nat → A → A) (l : list A) :
  (∀ i x, P x → P (f i x)) → Forall P l → Forall P (imap f l).
Proof.
  revert f. induction l as [|x l IH]; intros f Hf Hl; [constructor|].
  apply Forall_cons in Hl as [Hx Hl]. simpl. constructor; [by apply Hf|].
  apply IH; [|done]. intros i y. apply Hf.
Qed.

Lemma foldl_app_elem {A B} (f : B → list A) (l : list B) x : ∀ acc,
  x ∈ foldl (λ items b, items ++ f b) acc l ↔ x ∈ acc ∨ ∃ b, b ∈ l ∧ x ∈ f b.
Proof.
  induction l as [|b l IH]; intros acc; simpl.
  - split; [by left|]. intros [?|(b & Hb & _)]; [done|by apply elem_of_nil in Hb].
  - rewrite IH, elem_of_app. split.
    + intros [[?|?]|(b' & Hb' & ?)]; [by left|right; exists b|right; exists b'].
      * split; [left|done].
      * split; [by right|done].
    + intros [?|(b' & Hb' & ?)]; [by left; left|].
      apply elem_of_cons in Hb' as [->|Hb']; [by left; right|right; by exists b'].
Qed.

Lemma loaded_row db A row :
  row ∈ loadWarehouseStock db A →
  shows_batch db A row ∧ 0 < TransferRow.quantity row
  ∧ TransferRow.selected row = false ∧ TransferRow.transfer_quantity row = 0.
Proof.
  unfold loadWarehouseStock. rewrite sort_perm.
  intros [Hnil|(product & _ & Hrow)]%foldl_app_elem; [by apply elem_of_nil in Hnil|].
  unfold rows_of_product in Hrow.
  apply list_elem_of_fmap in Hrow as (b & -> & [Hpos Hb]%list_elem_of_filter). simpl.
  split_and!; try done. by exists b.
Qed.

Lemma set_selection_within db A row sel q :
  row_within db A row → q ≤ TransferRow.quantity row →
  row_within db A (set_selection row sel q).
Proof. intros (Hb & Hpos & _) Hq. by split_and!. Qed.

Lemma form_rows_within db A rows :
  form_rows db A rows → Forall (row_within db A) rows.
Proof.
  induction 1 as [|index rows _ IH|matches rows _ IH|index q rows _ IH].
  - apply Forall_forall. intros row Hrow.
    destruct (loaded_row db A row Hrow) as (Hb & Hpos & _ & Htq).
    split_and!; [done..|]. rewrite Htq. lia.
  - apply Forall_imap_pres; [|done]. intros i row Hrow.
    case_decide; [|done]. apply set_selection_within; [done|].
    destruct Hrow as (_ & Hpos & _). destruct (negb (TransferRow.selected row)); lia.
  - unfold toggleSelectAll. apply Forall_fmap. eapply Forall_impl; [exact IH|].
    intros row Hrow. simpl.
    destruct (existsb _ _); [|done]. apply set_selection_within; [done|].
    destruct Hrow as (_ & Hpos & _). destruct (negb _); lia.
  - apply Forall_imap_pres; [|done]. intros i row Hrow.
    case_decide; [|done]. apply set_selection_within; [done|]. lia.
Qed.

Lemma check_items_cases (items : list TransferRow.t) :
  Forall (λ item, 0 < TransferRow.transfer_quantity item) items →
  (check_items items = None
   ∧ Forall (λ item, TransferRow.transfer_quantity item ≤ TransferRow.quantity item) items)
  ∨ ∃ item, item ∈ items
            ∧ TransferRow.quantity item < TransferRow.transfer_quantity item
            ∧ check_items items = Some (ExceedsStock (TransferRow.product_name item)).
Proof.
  induction 1 as [|item items Hpos _ IH]; [by left|]. simpl.
  case_decide as Hex.
  - right. exists item. split_and!; [left|done..].
  - rewrite decide_False by lia.
    destruct IH as [[-> Hall]|(item' & Hin & Hlt & ->)].
    + left. split; [done|]. constructor; [lia|done].
    + right. exists item'. split_and!; [by right|done..].
Qed.

Lemma selectedItems_positive form :
  Forall (λ item, 0 < TransferRow.transfer_quantity item) (selectedItems form).
Proof. apply Forall_forall. intros item [[_ Hpos] _]%list_elem_of_filter. done. Qed.

Lemma foldl_sum {A} (f : A → Z) (l : list A) : ∀ acc,
  foldl (λ sum item, sum + f item) acc l = acc + Zsum f l.
Proof.
  induction l as [|x l IH]; intros acc; simpl.
  - rewrite Zsum_nil. lia.
  - rewrite IH, Zsum_cons. lia.
Qed.

(** The snapshot that an accepted submission yields. *)
Lemma handleSubmit_Submitted form db tid sid db' :
  handleSubmit form db tid sid = Submitted db' →
  fromWarehouse form ≠ EmptyString ∧ toWarehouse form ≠ EmptyString
  ∧ selectedItems form ≠ []
  ∧ fromWarehouse form ≠ toWarehouse form
  ∧ Forall (λ item, TransferRow.transfer_quantity item ≤ TransferRow.quantity item)
           (selectedItems form)
  ∧ db' =
      mkDatabase (tbl_warehouses db) (tbl_reagents db) (tbl_consumables db)
        (tbl_invoices db) (tbl_invoice_items db)
        (tbl_transfers db
         ++ [Transfer.mk tid (fromWarehouse form) (toWarehouse form) (date form)
               (Zsum (λ item, TransferRow.transfer_quantity item * TransferRow.unit_price item)
                     (selectedItems form))])
        (tbl_transfer_items db ++ (transfer_line tid <$> selectedItems form))
        (tbl_stock_out db
         ++ [StockOut.mk sid (fromWarehouse form) (date form) "transfer"
               (Zsum (λ item, TransferRow.transfer_quantity item * TransferRow.unit_price item)
                     (selectedItems form))
               (Some tid)])
        (tbl_stock_out_items db ++ (exit_line sid <$> selectedItems form)).
Proof.
  unfold handleSubmit. case_decide as Hmissing; [done|]. case_decide as Hsame; [done|].
  destruct (check_items_cases (selectedItems form) (selectedItems_positive form))
    as [[Hnone Hall]|(item & _ & _ & Hsome)]; rewrite ?Hsome; [|done].
  rewrite Hnone. intros [= <-].
  split_and!; try done; try tauto.
  - intros Hnil. apply Hmissing. right. right. by rewrite Hnil.
  - rewrite foldl_sum, Z.add_0_l. simpl. rewrite <-list_fmap_compose. done.
Qed.

(** X6.  The handlers of the transfer form keep every row within the batch
    it shows.  On a stock list reached from the list loaded for the source
    warehouse by [toggleSelection], [toggleSelectAll] and
    [updateTransferQuantity], every row shows a batch of the computed stock
    of the source with a positive quantity, and its transfer quantity does
    not exceed that quantity; so [handleSubmit] never rejects such a list
    for a quantity above the stock. *)
Theorem form_quantities_within_stock db A rows :
  form_rows db A rows →
  Forall (λ row, shows_batch db A row ∧ 0 < TransferRow.quantity row
                 ∧ TransferRow.transfer_quantity row ≤ TransferRow.quantity row) rows
  ∧ ∀ to date db' tid sid name,
      handleSubmit (mkForm A to date rows) db' tid sid ≠ ExceedsStock name.
Proof.
  intros Hrows. pose proof (form_rows_within db A rows Hrows) as Hall.
  split; [exact Hall|].
  intros to date db' tid sid name. unfold handleSubmit.
  case_decide; [done|]. case_decide; [done|].
  destruct (check_items_cases (selectedItems (mkForm A to date rows))
              (selectedItems_positive _)) as [[-> _]|(item & Hin & Hlt & _)]; [done|].
  apply list_elem_of_filter in Hin as [_ Hin]. simpl in Hin.
  rewrite Forall_forall in Hall. destruct (Hall item Hin) as (_ & _ & Hle). lia.
Qed.

Lemma form_quantities_within_stock_witness :
  Forall (λ row, shows_batch ledger_example "W1" row ∧ 0 < TransferRow.quantity row
                 ∧ TransferRow.transfer_quantity row ≤ TransferRow.quantity row)
         (availableStock example_form)
  ∧ ∀ to date db' tid sid name,
      handleSubmit (mkForm "W1" to date (availableStock example_form)) db' tid sid
      ≠ ExceedsStock name.
Proof.
  apply (form_quantities_within_stock ledger_example "W1").
  apply rows_updated, rows_toggled, rows_loaded.
Defined.

(** X7.  What an accepted transfer writes, and the check that never fires.
    [handleSubmit] never reports a quantity that is not positive: the rows it
    checks were selected with a positive quantity.  When it accepts the
    form, source and destination are set and differ, at least one row is
    selected, no selected row asks for more than it shows, and the ledger is
    extended by one transfer and one stock-out tagged [transfer] that names
    it, both of the source and the date of the form, with one transfer line
    and one stock-out line for each selected row, carrying the batch date and
    the price of the row and its transfer quantity; the amount of both
    documents is the sum of the totals of the lines, and no other table
    changes. *)
Theorem handleSubmit_writes form db tid sid :
  (∀ name, handleSubmit form db tid sid ≠ NotPositive name)
  ∧ ∀ db', handleSubmit form db tid sid = Submitted db' →
      let items := selectedItems form in
      let lines := transfer_line tid <$> items in
      let exits := exit_line sid <$> items in
      fromWarehouse form ≠ EmptyString ∧ toWarehouse form ≠ EmptyString
      ∧ fromWarehouse form ≠ toWarehouse form
      ∧ items ≠ []
      ∧ Forall (λ item, 0 < TransferRow.transfer_quantity item
                        ∧ TransferRow.transfer_quantity item ≤ TransferRow.quantity item)
               items
      ∧ tbl_transfers db' =
          tbl_transfers db
          ++ [Transfer.mk tid (fromWarehouse form) (toWarehouse form) (date form)
                (Zsum TransferItem.total_price lines)]
      ∧ tbl_transfer_items db' = tbl_transfer_items db ++ lines
      ∧ tbl_stock_out db' =
          tbl_stock_out db
          ++ [StockOut.mk sid (fromWarehouse form) (date form) "transfer"
                (Zsum StockOutItem.total_price exits) (Some tid)]
      ∧ tbl_stock_out_items db' = tbl_stock_out_items db ++ exits
      ∧ tbl_invoices db' = tbl_invoices db
      ∧ tbl_invoice_items db' = tbl_invoice_items db
      ∧ tbl_warehouses db' = tbl_warehouses db
      ∧ tbl_reagents db' = tbl_reagents db
      ∧ tbl_consumables db' = tbl_consumables db.
Proof.
  split.
  - intros name. unfold handleSubmit.
    case_decide; [done|]. case_decide; [done|].
    by destruct (check_items_cases (selectedItems form) (selectedItems_positive form))
      as [[-> _]|(item & _ & _ & ->)].
  - intros db' Hsub.
    destruct (handleSubmit_Submitted form db tid sid db' Hsub)
      as (Hfrom & Hto & Hsel & Hdiff & Hall & ->).
    simpl. rewrite !Zsum_fmap. split_and!; try done.
    pose proof (selectedItems_positive form) as Hpos.
    rewrite Forall_forall in Hpos. rewrite Forall_forall in Hall.
    apply Forall_forall. intros item Hitem. split; [by apply Hpos|by apply Hall].
Qed.

Lemma handleSubmit_writes_witness :
  tbl_transfer_items ledger_after_transfer =
    tbl_transfer_items ledger_example
    ++ (transfer_line "T1" <$> selectedItems example_form).
Proof.
  pose proof (proj2 (handleSubmit_writes example_form ledger_example "T1" "S1")
                ledger_after_transfer eq_refl) as H.
  simpl in H. exact (proj1 (proj2 (proj2 (proj2 (proj2 (proj2 (proj2 H))))))).
Defined.

(** ** Receipts and decreases of a grown ledger *)

Lemma received_grown db db' w p t E T :
  or_empty (entries db' w p t) = or_empty (entries db w p t) ++ E →
  or_empty (transferItemsIn db' w p t) = or_empty (transferItemsIn db w p t) ++ T →
  ∀ d price,
    received db' w p t d price =
      received db w p t d price
      + Zsum InvoiceItem.quantity
          (filter (λ it, InvoiceItem.batch_date it = d ∧ InvoiceItem.unit_price it = price) E)
      + Zsum TransferItem.quantity
          (filter (λ it, TransferItem.batch_date it = d ∧ TransferItem.unit_price it = price) T).
Proof. intros He Ht d price. unfold received. rewrite He, Ht, !filter_app, !Zsum_app. lia. Qed.

Lemma receipts_grown db db' w p t E T :
  or_empty (entries db' w p t) = or_empty (entries db w p t) ++ E →
  or_empty (transferItemsIn db' w p t) = or_empty (transferItemsIn db w p t) ++ T →
  Zsum r_quantity (receipts db' w p t) =
    Zsum r_quantity (receipts db w p t)
    + Zsum InvoiceItem.quantity E + Zsum TransferItem.quantity T.
Proof. intros He Ht. rewrite !Zsum_receipts, He, Ht, !Zsum_app. lia. Qed.

Lemma decreased_grown db db' w p t S O :
  or_empty (stockOutItems db' w p t) = or_empty (stockOutItems db w p t) ++ S →
  or_empty (transferItemsOut db' w p t) = or_empty (transferItemsOut db w p t) ++ O →
  ∀ d,
    decreased db' w p t d =
      decreased db w p t d
      + Zsum StockOutItem.quantity (filter (λ it, StockOutItem.batch_date it = d) S)
      + Zsum TransferItem.quantity (filter (λ it, TransferItem.batch_date it = d) O).
Proof. intros Hs Ho d. unfold decreased. rewrite Hs, Ho, !filter_app, !Zsum_app. lia. Qed.

Lemma Zsum_minus {A} (f g : A → Z) (l : list A) :
  Zsum (λ x, f x - g x) l = Zsum f l - Zsum g l.
Proof. induction l as [|x l IH]; [done|]. rewrite !Zsum_cons. lia. Qed.

(** The same decreases, and every batch that receives more was not in
    deficit: the total grows by exactly what the receipts grow. *)
Lemma total_growth_exact db db' w p t :
  well_dated db → well_dated db' →
  (∀ d, 0 ≤ decreased db w p t d) →
  (∀ d, decreased db' w p t d = decreased db w p t d) →
  (∀ d price, received db w p t d price ≤ received db' w p t d price) →
  (∀ d price, received db w p t d price ≠ received db' w p t d price →
     decreased db w p t d ≤ received db w p t d price) →
  totalQuantity (calculateProductStockInWarehouse db' w p t)
  - totalQuantity (calculateProductStockInWarehouse db w p t)
  = Zsum r_quantity (receipts db' w p t) - Zsum r_quantity (receipts db w p t).
Proof.
  intros Hwd Hwd' Hdec0 Hdec Hrec Hcov.
  destruct (batches_cover db db' w p t) as (K & HK & Hc & Hc').
  rewrite (total_over db w p t K), (total_over db' w p t K); try done.
  2:{ intros d. rewrite Hdec. apply Hdec0. }
  rewrite <-(Zsum_received db w p t K), <-(Zsum_received db' w p t K) by done.
  rewrite <-!Zsum_minus. apply Zsum_ext. intros [d price] _.
  unfold stock_of_batch. simpl. rewrite Hdec.
  specialize (Hrec d price). specialize (Hcov d price).
  destruct (decide (received db w p t d price = received db' w p t d price)) as [->|Hne];
    [lia|]. specialize (Hcov Hne). lia.
Qed.

Lemma well_dated_prefix db db' E T :
  tbl_invoice_items db' = tbl_invoice_items db ++ E →
  tbl_transfer_items db' = tbl_transfer_items db ++ T →
  well_dated db' → well_dated db.
Proof.
  intros He Ht [H1 H2]. rewrite He in H1. rewrite Ht in H2.
  apply Forall_app in H1 as [H1 _]. apply Forall_app in H2 as [H2 _]. by split.
Qed.

(** ** The stock after a transfer of several rows *)

Lemma Zsum_filter_nonneg {A} (f : A → Z) (P : A → Prop) `{!∀ x, Decision (P x)} (l : list A) :
  (∀ x, x ∈ l → 0 ≤ f x) → 0 ≤ Zsum f (filter P l).
Proof. intros Hf. apply Zsum_nonneg. intros x [_ Hx]%list_elem_of_filter. by apply Hf. Qed.

Lemma Zsum_filter_pos {A} (f : A → Z) (P : A → Prop) `{!∀ x, Decision (P x)} (l : list A) :
  Zsum f (filter P l) ≠ 0 → ∃ x, x ∈ l ∧ P x.
Proof.
  intros Hne. destruct (filter P l) as [|x l'] eqn:Hfilter; [done|].
  assert (Hx : x ∈ filter P l) by (rewrite Hfilter; left).
  apply list_elem_of_filter in Hx. exists x. tauto.
Qed.

Section transfer_submitted.
Context (form : TransferForm) (db : Database) (tid sid : string) (db' : Database).
Context (Hsub : handleSubmit form db tid sid = Submitted db').
Context (Hfresh : fresh_ids db tid sid).

Lemma transfer_lines_at (P : Transfer.t → Prop) `{!∀ x, Decision (P x)}
    (transfer : Transfer.t) p t :
  Transfer.id transfer = tid →
  filter (λ it, TransferItem.product_type it = t ∧ TransferItem.product_id it = p
                ∧ TransferItem.transfer_id it ∈ (Transfer.id <$> filter P [transfer]))
         (transfer_line tid <$> selectedItems form)
  = if decide (P transfer) then transfer_line tid <$> selected_of form p t else [].
Proof.
  intros Hid. destruct (decide (P transfer)) as [HP|HP].
  - unfold selected_of. induction (selectedItems form) as [|item items IH]; [done|].
    rewrite (fmap_cons (transfer_line tid)).
    rewrite (filter_cons _ (transfer_line tid item)), (filter_cons _ item items), IH. simpl.
    destruct (decide (TransferRow.product_type item = t ∧ TransferRow.product_id item = p))
      as [Hitem|Hitem].
    + rewrite decide_True; [done|]. split_and!; try tauto.
      rewrite filter_cons, decide_True by done. simpl. rewrite Hid. left.
    + rewrite decide_False; [done|]. tauto.
  - apply filter_none. intros it _ (_ & _ & Hin).
    rewrite filter_cons, decide_False in Hin by done. by apply elem_of_nil in Hin.
Qed.

Lemma transfer_fetches w p t :
  or_empty (entries db' w p t) = or_empty (entries db w p t)
  ∧ invoiceMap db' w = invoiceMap db w
  ∧ or_empty (stockOutItems db' w p t) = or_empty (stockOutItems db w p t)
  ∧ or_empty (transferItemsIn db' w p t) =
      or_empty (transferItemsIn db w p t)
      ++ (if decide (toWarehouse form = w)
          then transfer_line tid <$> selected_of form p t else [])
  ∧ or_empty (transferItemsOut db' w p t) =
      or_empty (transferItemsOut db w p t)
      ++ (if decide (fromWarehouse form = w)
          then transfer_line tid <$> selected_of form p t else []).
Proof.
  destruct (handleSubmit_Submitted form db tid sid db' Hsub) as (_ & _ & _ & _ & _ & ->).
  destruct Hfresh as (Htid & Hrefs & Hsid).
  set (transfer := Transfer.mk tid (fromWarehouse form) (toWarehouse form) (date form) _).
  set (stockOut := StockOut.mk sid _ _ _ _ _).
  assert (Hold : ∀ it, it ∈ tbl_transfer_items db →
                   TransferItem.transfer_id it ∉ (Transfer.id <$> [transfer])).
  { intros it Hit Hin. apply list_elem_of_singleton in Hin. by apply (Hrefs it Hit). }
  assert (Hnew : ∀ it, it ∈ transfer_line tid <$> selectedItems form →
                   TransferItem.transfer_id it ∉ (Transfer.id <$> tbl_transfers db)).
  { by intros it (item & -> & _)%list_elem_of_fmap. }
  split_and!.
  - by rewrite (entries_same db _ w p t).
  - by apply invoiceMap_same.
  - apply (stockOutItems_appended_transfer db _ w p t [stockOut]
             (exit_line sid <$> selectedItems form)); try done.
    + by repeat constructor.
    + by intros it (item & -> & _)%list_elem_of_fmap.
  - rewrite (transferItemsIn_appended db _ w p t [transfer]
               (transfer_line tid <$> selectedItems form)) by done.
    f_equal.
    pose proof (transfer_lines_at (λ tr, Transfer.to_warehouse_id tr = w) transfer p t eq_refl)
      as Hlines.
    cbv beta in Hlines. exact Hlines.
  - rewrite (transferItemsOut_appended db _ w p t [transfer]
               (transfer_line tid <$> selectedItems form)) by done.
    f_equal.
    pose proof (transfer_lines_at (λ tr, Transfer.from_warehouse_id tr = w) transfer p t
                  eq_refl) as Hlines.
    cbv beta in Hlines. exact Hlines.
Qed.

Lemma transfer_line_quantities p t :
  Zsum TransferItem.quantity (transfer_line tid <$> selected_of form p t)
  = Zsum TransferRow.transfer_quantity (selected_of form p t).
Proof. by rewrite Zsum_fmap. Qed.

Lemma selected_of_positive p t item :
  item ∈ selected_of form p t → 0 < TransferRow.transfer_quantity item.
Proof.
  intros [_ Hitem]%list_elem_of_filter.
  pose proof (selectedItems_positive form) as Hpos. rewrite Forall_forall in Hpos. auto.
Qed.

Lemma well_dated_before_transfer : well_dated db' → well_dated db.
Proof.
  destruct (handleSubmit_Submitted form db tid sid db' Hsub) as (_ & _ & _ & _ & _ & ->).
  apply (well_dated_prefix db _ [] (transfer_line tid <$> selectedItems form)); [|done].
  simpl. by rewrite app_nil_r.
Qed.
End transfer_submitted.

(** X8.  What a transfer does to the computed stock.  After an accepted
    submission with new document ids: the result of a warehouse that is
    neither source nor destination, and the result of a product of which no
    row was selected, are those of before; the total of the source does not
    grow; the total of the destination does not fall and grows by at most the
    transferred quantity of the product, and by exactly this quantity when,
    at the destination, the decreases recorded under the date of each
    transferred batch do not exceed what this batch had received. *)
Theorem transfer_moves_stock form db tid sid db' w p t :
  handleSubmit form db tid sid = Submitted db' →
  fresh_ids db tid sid → well_dated db' → checked_ledger db →
  let total ledger := totalQuantity (calculateProductStockInWarehouse ledger w p t) in
  let moved := Zsum TransferRow.transfer_quantity (selected_of form p t) in
  ((w ≠ fromWarehouse form ∧ w ≠ toWarehouse form) ∨ selected_of form p t = [] →
     calculateProductStockInWarehouse db' w p t = calculateProductStockInWarehouse db w p t)
  ∧ (w = fromWarehouse form → total db' ≤ total db)
  ∧ (w = toWarehouse form →
       total db ≤ total db' ∧ total db' ≤ total db + moved
       ∧ ((∀ item, item ∈ selected_of form p t →
             decreased db w p t (TransferRow.batch_date item)
             ≤ received db w p t (TransferRow.batch_date item) (TransferRow.unit_price item)) →
          total db' = total db + moved)).
Proof.
  intros Hsub Hfresh Hwd' Hck total moved.
  pose proof (well_dated_before_transfer form db tid sid db' Hsub Hwd') as Hwd.
  destruct (transfer_fetches form db tid sid db' Hsub Hfresh w p t)
    as (He & Hmap & Hso & Hti & Hto).
  destruct (handleSubmit_Submitted form db tid sid db' Hsub) as (_ & _ & _ & Hdiff & _ & _).
  assert (Hdec0 : ∀ d, 0 ≤ decreased db w p t d) by (intros d; by apply decreased_nonneg).
  assert (Hpos : ∀ it, it ∈ transfer_line tid <$> selected_of form p t →
                   0 ≤ TransferItem.quantity it).
  { intros it (item & -> & Hitem)%list_elem_of_fmap. simpl.
    apply selected_of_positive in Hitem. lia. }
  split_and!.
  - intros Hframe. apply calculate_ext; try done.
    + rewrite Hti. destruct Hframe as [[_ Hw]|Hnone].
      * rewrite decide_False by done. by rewrite app_nil_r.
      * rewrite Hnone, fmap_nil.
        destruct (decide (toWarehouse form = w)); by rewrite app_nil_r.
    + rewrite Hto. destruct Hframe as [[Hw _]|Hnone].
      * rewrite decide_False by done. by rewrite app_nil_r.
      * rewrite Hnone, fmap_nil.
        destruct (decide (fromWarehouse form = w)); by rewrite app_nil_r.
  - intros ->. unfold total.
    rewrite decide_False, app_nil_r in Hti by (by intros Heq; apply Hdiff).
    rewrite decide_True in Hto by done.
    apply total_mono; try done.
    + intros d. rewrite <-(app_nil_r (or_empty (stockOutItems db _ p t))) in Hso.
      rewrite (decreased_grown _ _ _ _ _ _ _ Hso Hto d), filter_nil, Zsum_nil.
      pose proof (Zsum_filter_nonneg TransferItem.quantity
                    (λ it, TransferItem.batch_date it = d) _ Hpos).
      lia.
    + intros d price. unfold received. by rewrite He, Hti.
  - intros ->. unfold total, moved.
    rewrite decide_True in Hti by done.
    rewrite decide_False, app_nil_r in Hto by done.
    rewrite <-(app_nil_r (or_empty (entries db _ p t))) in He.
    pose proof (received_grown _ _ _ _ _ _ _ He Hti) as Hrec.
    pose proof (receipts_grown _ _ _ _ _ _ _ He Hti) as Hsum.
    rewrite Zsum_nil, transfer_line_quantities in Hsum.
    assert (Hdec : ∀ d, decreased db' (toWarehouse form) p t d
                        = decreased db (toWarehouse form) p t d).
    { intros d. unfold decreased. by rewrite Hso, Hto. }
    assert (Hle : ∀ d price, received db (toWarehouse form) p t d price
                             ≤ received db' (toWarehouse form) p t d price).
    { intros d price. rewrite Hrec, filter_nil, Zsum_nil.
      pose proof (Zsum_filter_nonneg TransferItem.quantity
                    (λ it, TransferItem.batch_date it = d ∧ TransferItem.unit_price it = price)
                    _ Hpos).
      lia. }
    split_and!.
    + apply total_mono; try done.
      * intros d. rewrite Hdec. apply Hdec0.
      * intros d. rewrite Hdec. lia.
    + pose proof (total_growth_bound db db' (toWarehouse form) p t Hwd Hwd' Hdec0 Hdec Hle).
      lia.
    + intros Hcov.
      pose proof (total_growth_exact db db' (toWarehouse form) p t Hwd Hwd' Hdec0 Hdec Hle)
        as Hexact.
      rewrite Hsum in Hexact.
      enough (Hc : ∀ d price,
                received db (toWarehouse form) p t d price
                ≠ received db' (toWarehouse form) p t d price →
                decreased db (toWarehouse form) p t d
                ≤ received db (toWarehouse form) p t d price)
        by (specialize (Hexact Hc); lia).
      intros d price Hne. rewrite Hrec, filter_nil, Zsum_nil in Hne.
      destruct (Zsum_filter_pos TransferItem.quantity
                  (λ it, TransferItem.batch_date it = d ∧ TransferItem.unit_price it = price)
                  (transfer_line tid <$> selected_of form p t)) as (it & Hit & Hd & Hp); [lia|].
      apply list_elem_of_fmap in Hit as (item & -> & Hitem). simpl in Hd, Hp. subst d price.
      by apply Hcov.
Qed.

Lemma transfer_moves_stock_witness :
  handleSubmit example_form ledger_example "T1" "S1" = Submitted ledger_after_transfer
  ∧ fresh_ids ledger_example "T1" "S1"
  ∧ well_dated ledger_after_transfer
  ∧ checked_ledger ledger_example
  ∧ totalQuantity (calculateProductStockInWarehouse ledger_after_transfer "W2" "P1" reagent)
    = totalQuantity (calculateProductStockInWarehouse ledger_example "W2" "P1" reagent)
      + Zsum TransferRow.transfer_quantity (selected_of example_form "P1" reagent).
Proof.
  assert (Hsubmit : handleSubmit example_form ledger_example "T1" "S1"
                    = Submitted ledger_after_transfer) by (vm_compute; reflexivity).
  assert (Hfresh : fresh_ids ledger_example "T1" "S1").
  { split_and!; [apply not_elem_of_nil|by intros it ?%elem_of_nil|apply not_elem_of_nil]. }
  assert (Hwd : well_dated ledger_after_transfer) by (split; repeat constructor).
  assert (Hck : checked_ledger ledger_example).
  { apply (bool_decide_unpack _). vm_compute. reflexivity. }
  split_and!; [exact Hsubmit|exact Hfresh|exact Hwd|exact Hck|].
  destruct (transfer_moves_stock example_form ledger_example "T1" "S1" ledger_after_transfer
              "W2" "P1" reagent Hsubmit Hfresh Hwd Hck) as (_ & _ & Hto).
  destruct (Hto eq_refl) as (_ & _ & Hexact). apply Hexact.
  intros item Hitem.
  change (item ∈ [example_row]) in Hitem. apply list_elem_of_singleton in Hitem as ->.
  vm_compute. discriminate.
Defined.

(** ** The stock list of the transfer form *)

Lemma total_batch_sum db w p t :
  totalQuantity (calculateProductStockInWarehouse db w p t)
  = Zsum quantity (batches (calculateProductStockInWarehouse db w p t)).
Proof.
  rewrite (Zsum_perm _ _ _ (batches_perm db w p t)).
  rewrite calculate_unfold. simpl. unfold emitted. by rewrite Zsum_fmap.
Qed.

Lemma filter_all {A} (P : A → Prop) `{!∀ x, Decision (P x)} (l : list A) :
  (∀ x, x ∈ l → P x) → filter P l = l.
Proof.
  induction l as [|x l IH]; intros HP; [done|].
  rewrite filter_cons, decide_True by (apply HP; left).
  rewrite IH; [done|]. intros y Hy. apply HP. by right.
Qed.

Lemma batches_all_positive db w p t :
  filter (λ batch : Batch, 0 < quantity batch)
         (batches (calculateProductStockInWarehouse db w p t))
  = batches (calculateProductStockInWarehouse db w p t).
Proof.
  apply filter_all. intros b Hb.
  rewrite batches_perm in Hb. apply list_elem_of_fmap in Hb as (kv & -> & Hkv).
  by apply kept_positive in Hkv.
Qed.

Lemma rows_of_product_batches db A product :
  rows_of_product db A product
  = row_of_batch product
    <$> batches (calculateProductStockInWarehouse db A (Product.id product)
                   (Product.type product)).
Proof.
  unfold rows_of_product. rewrite batches_all_positive.
  apply list_fmap_ext. intros _ b _. unfold row_of_batch. by rewrite or_empty_string_Some.
Qed.

Lemma foldl_app_bind {A B} (f : B → list A) (l : list B) : ∀ acc,
  foldl (λ items b, items ++ f b) acc l = acc ++ (l ≫= f).
Proof.
  induction l as [|b l IH]; intros acc; simpl.
  - by rewrite app_nil_r.
  - by rewrite IH, <-app_assoc.
Qed.

Lemma loadWarehouseStock_perm db A :
  loadWarehouseStock db A ≡ₚ listed_products db ≫= rows_of_product db A.
Proof. unfold loadWarehouseStock. rewrite sort_perm. by rewrite foldl_app_bind. Qed.

Lemma Zsum_bind {A B} (g : A → Z) (f : B → list A) (l : list B) :
  Zsum g (l ≫= f) = Zsum (λ x, Zsum g (f x)) l.
Proof.
  induction l as [|x l IH]; [done|].
  rewrite bind_cons, Zsum_app, Zsum_cons, IH. done.
Qed.

Lemma filter_bind {A B} (P : A → Prop) `{!∀ x, Decision (P x)} (f : B → list A) (l : list B) :
  filter P (l ≫= f) = l ≫= (λ x, filter P (f x)).
Proof.
  induction l as [|x l IH]; [done|].
  by rewrite !bind_cons, filter_app, IH.
Qed.

Lemma Zsum_indicator_by {A K} `{EqDecision K} (key : A → K) (k : K) (c : Z) (l : list A) :
  NoDup (key <$> l) → k ∈ key <$> l →
  Zsum (λ x, if decide (key x = k) then c else 0) l = c.
Proof.
  induction l as [|x l IH]; intros Hnd Hk; [by apply elem_of_nil in Hk|].
  rewrite fmap_cons in Hnd, Hk. apply NoDup_cons in Hnd as [Hx Hnd]. rewrite Zsum_cons.
  destruct (decide (key x = k)) as [Heq|Hne].
  - rewrite (Zsum_ext _ (λ _, 0)), Zsum_zero; [lia|].
    intros y Hy. rewrite decide_False; [done|]. intros Hy'. apply Hx.
    rewrite Heq, <-Hy'. by apply list_elem_of_fmap_2.
  - apply elem_of_cons in Hk as [Hk|Hk]; [done|]. rewrite IH by done. lia.
Qed.

Lemma listed_products_keyed db :
  catalogue_keyed db →
  NoDup ((λ product, (Product.id product, Product.type product)) <$> listed_products db).
Proof.
  intros [Hr Hc]. unfold listed_products, allProducts.
  assert (Hperm : ∀ rows, or_empty (order_by_code rows) ≡ₚ or_empty rows).
  { intros [rows|]; simpl; [apply sort_perm|done]. }
  rewrite !Hperm, fmap_app, <-!list_fmap_compose.
  apply NoDup_app. split_and!.
  - apply (NoDup_fmap_1 fst). by rewrite <-list_fmap_compose.
  - intros x (r & -> & _)%list_elem_of_fmap (c & [=] & _)%list_elem_of_fmap.
  - apply (NoDup_fmap_1 fst). by rewrite <-list_fmap_compose.
Qed.



(** * The entry form *)

Lemma update_row_consistent reagents consumables fv row :
  match fv with
  | WarehouseEntry.field_product_type _ | WarehouseEntry.field_product_id _
  | WarehouseEntry.field_quantity _ | WarehouseEntry.field_unit_price _ => True
  | _ => False
  end →
  row_consistent reagents consumables row →
  row_consistent reagents consumables (WarehouseEntry.update_row reagents consumables fv row).
Proof.
  intros Hfv [Hprice Hname]. unfold row_consistent, found_product in *.
  (* the product type clears the product; quantity and price reprice the row *)
  destruct fv as [v|v|v|v|v|v|v|v]; try done; unfold WarehouseEntry.update_row; simpl.
  - (* product_id *)
    destruct (decide (v ≠ EmptyString)) as [Hv|Hv]; simpl.
    + destruct (List.find (λ p, bool_decide (CatalogRow.id p = v)) _)
        as [product|] eqn:Hfind; simpl.
      * split; [done|]. intros _ product'. rewrite Hfind. by intros [= <-].
      * split; [done|]. intros _ product'. by rewrite Hfind.
    + split; [done|]. intros Hne. by destruct Hv.
Qed.

Lemma updateRow_consistent reagents consumables id fv rows :
  match fv with
  | WarehouseEntry.field_product_type _ | WarehouseEntry.field_product_id _
  | WarehouseEntry.field_quantity _ | WarehouseEntry.field_unit_price _ => True
  | _ => False
  end →
  Forall (row_consistent reagents consumables) rows →
  Forall (row_consistent reagents consumables)
         (WarehouseEntry.updateRow reagents consumables id fv rows).
Proof.
  intros Hfv Hrows. unfold WarehouseEntry.updateRow. apply Forall_fmap.
  eapply Forall_impl; [exact Hrows|]. intros row Hrow. simpl.
  case_decide; [done|]. by apply update_row_consistent.
Qed.

(** X10.  The rows of the entry form stay consistent.  On every row list
    that [addRow], [removeRow] and the calls of [updateRow] made by the
    inputs of the form (product type, product, quantity, unit price) reach
    from the empty list, the total price of each row is its quantity times
    its unit price, and a row that names a product found in the catalogue
    table of its type carries the code and the name of that product. *)
Theorem entry_rows_consistent reagents consumables rows :
  entry_rows reagents consumables rows →
  Forall (λ row,
            ProductRow.total_price row = ProductRow.quantity row * ProductRow.unit_price row
            ∧ (ProductRow.product_id row ≠ EmptyString →
               ∀ product, found_product reagents consumables row = Some product →
                 ProductRow.product_code row = CatalogRow.code product
                 ∧ ProductRow.product_name row = CatalogRow.name product))
         rows.
Proof.
  change (entry_rows reagents consumables rows →
          Forall (row_consistent reagents consumables) rows).
  induction 1 as [|uuid rows _ IH|id rows _ IH|id v rows _ IH|id v rows _ IH
                  |id v rows _ IH|id v rows _ IH].
  - constructor.
  - unfold WarehouseEntry.addRow. apply Forall_app. split; [done|].
    constructor; [|constructor]. split; [done|]. by intros H.
  - unfold WarehouseEntry.removeRow. rewrite Forall_forall in IH.
    apply Forall_forall. intros row [_ Hrow]%list_elem_of_filter. by apply IH.
  - by apply updateRow_consistent.
  - by apply updateRow_consistent.
  - by apply updateRow_consistent.
  - by apply updateRow_consistent.
Qed.

Lemma entry_rows_consistent_witness :
  Forall (λ row,
            ProductRow.total_price row = ProductRow.quantity row * ProductRow.unit_price row
            ∧ (ProductRow.product_id row ≠ EmptyString →
               ∀ product,
                 found_product [CatalogRow.mk "P1" "R-001" "Buffer"] [] row = Some product →
                 ProductRow.product_code row = CatalogRow.code product
                 ∧ ProductRow.product_name row = CatalogRow.name product))
         (WarehouseEntry.updateRow [CatalogRow.mk "P1" "R-001" "Buffer"] [] "u1"
            (WarehouseEntry.field_quantity 7)
            (WarehouseEntry.updateRow [CatalogRow.mk "P1" "R-001" "Buffer"] [] "u1"
               (WarehouseEntry.field_product_id "P1")
               (WarehouseEntry.addRow "u1" []))).
Proof.
  apply (entry_rows_consistent [CatalogRow.mk "P1" "R-001" "Buffer"] []).
  apply row_quantity, row_product, row_added, no_rows.
Defined.

(** The lines of one new document among the lines fetched through the ids
    of the documents that pass the filter [P]. *)
Lemma lines_of_new_doc {A D R} (Q1 Q2 : A → Prop)
    `{!∀ x, Decision (Q1 x), !∀ x, Decision (Q2 x)}
    (P : D → Prop) `{!∀ x, Decision (P x)}
    (S : R → Prop) `{!∀ x, Decision (S x)}
    (ref : A → string) (id : D → string) (doc : D) (line : R → A) (rows : list R) :
  (∀ r, ref (line r) = id doc) → (∀ r, Q1 (line r) ∧ Q2 (line r) ↔ S r) →
  filter (λ a, Q1 a ∧ Q2 a ∧ ref a ∈ (id <$> filter P [doc])) (line <$> rows)
  = if decide (P doc) then line <$> filter S rows else [].
Proof.
  intros Href HS. destruct (decide (P doc)) as [HP|HP].
  - induction rows as [|r rows IH]; [done|].
    rewrite (fmap_cons line), (filter_cons _ (line r)), (filter_cons S r), IH.
    destruct (decide (S r)) as [Hr|Hr].
    + rewrite decide_True; [done|]. apply HS in Hr. split_and!; try tauto.
      rewrite filter_cons, decide_True by done. simpl. rewrite Href. left.
    + rewrite decide_False; [done|]. intros (Hq1 & Hq2 & _). apply Hr, HS. tauto.
  - apply filter_none. intros a _ (_ & _ & Hin).
    rewrite filter_cons, decide_False in Hin by done. by apply elem_of_nil in Hin.
Qed.

Lemma calculate_ext_suppliers db db' w p t :
  or_empty (entries db' w p t) = or_empty (entries db w p t) →
  or_empty (transferItemsIn db' w p t) = or_empty (transferItemsIn db w p t) →
  or_empty (stockOutItems db' w p t) = or_empty (stockOutItems db w p t) →
  or_empty (transferItemsOut db' w p t) = or_empty (transferItemsOut db w p t) →
  (∀ i, i ∈ invoiceIds db w → invoiceMap db' w !! i = invoiceMap db w !! i) →
  calculateProductStockInWarehouse db' w p t = calculateProductStockInWarehouse db w p t.
Proof.
  intros He Hti Hso Hto Hmap.
  assert (Hbatch : batchMap db' w p t = batchMap db w p t).
  { unfold batchMap. by rewrite He, Hti. }
  assert (Hexit : exitMap db' w p t = exitMap db w p t).
  { unfold exitMap. by rewrite Hso, Hto. }
  rewrite !calculate_unfold, Hbatch, Hexit. f_equal. f_equal.
  unfold emitted. rewrite Hbatch, Hexit.
  apply list_fmap_ext. intros _ [k bucket] Hkv%list_elem_of_lookup_2.
  apply list_elem_of_filter in Hkv as [_ Hkv].
  unfold batch_of. f_equal. simpl. unfold supplier_of_map.
  destruct (bucket_invoiceIds bucket) as [|first rest] eqn:Hids; [done|].
  rewrite Hmap; [done|].
  apply (bucket_invoiceIds_fetched db w p t k bucket); [done|]. rewrite Hids. left.
Qed.

Section entry_saved.
Context (form : WarehouseEntry.Form) (db : Database) (iid : string) (db' : Database).
Context (Hsaved : WarehouseEntry.handleSubmit form db iid = WarehouseEntry.Saved db').

Lemma entry_Saved :
  WarehouseEntry.selectedWarehouse form ≠ EmptyString
  ∧ WarehouseEntry.invoiceCode form ≠ EmptyString
  ∧ WarehouseEntry.supplier form ≠ EmptyString
  ∧ WarehouseEntry.rows form ≠ []
  ∧ Forall (λ row, ProductRow.product_id row ≠ EmptyString ∧ 0 < ProductRow.quantity row
                   ∧ 0 ≤ ProductRow.unit_price row)
           (WarehouseEntry.rows form)
  ∧ db' =
      mkDatabase (tbl_warehouses db) (tbl_reagents db) (tbl_consumables db)
        (tbl_invoices db
         ++ [Invoice.mk iid (WarehouseEntry.supplier form)
               (WarehouseEntry.selectedWarehouse form) "active"])
        (tbl_invoice_items db
         ++ (entry_line iid (WarehouseEntry.date form) <$> WarehouseEntry.rows form))
        (tbl_transfers db) (tbl_transfer_items db)
        (tbl_stock_out db) (tbl_stock_out_items db).
Proof.
  revert Hsaved. unfold WarehouseEntry.handleSubmit.
  case_decide as Hmissing; [done|]. case_decide as Hinvalid; [done|].
  intros [= <-]. split_and!; try tauto.
  - intros Hnil. apply Hmissing. do 3 right. by rewrite Hnil.
  - apply Forall_forall. intros row Hrow.
    destruct (decide (ProductRow.product_id row = EmptyString ∨ ProductRow.quantity row ≤ 0
                      ∨ ProductRow.unit_price row < 0)) as [Hbad|Hok].
    + exfalso. apply Hinvalid. unfold WarehouseEntry.invalidRows.
      assert (Hin : row ∈ filter (λ r, ProductRow.product_id r = EmptyString
                                       ∨ ProductRow.quantity r ≤ 0
                                       ∨ ProductRow.unit_price r < 0)
                                 (WarehouseEntry.rows form))
        by (by apply list_elem_of_filter).
      destruct (filter _ _); [by apply elem_of_nil in Hin|simpl; lia].
    + split_and!; [tauto|lia|lia].
Qed.

Lemma entry_fetches (Hfresh : fresh_invoice_id db iid) w p t :
  or_empty (entries db' w p t) =
    or_empty (entries db w p t)
    ++ (if decide (WarehouseEntry.selectedWarehouse form = w)
        then entry_line iid (WarehouseEntry.date form) <$> rows_of form p t else [])
  ∧ or_empty (transferItemsIn db' w p t) = or_empty (transferItemsIn db w p t)
  ∧ or_empty (stockOutItems db' w p t) = or_empty (stockOutItems db w p t)
  ∧ or_empty (transferItemsOut db' w p t) = or_empty (transferItemsOut db w p t)
  ∧ (∀ i, i ∈ invoiceIds db w → invoiceMap db' w !! i = invoiceMap db w !! i).
Proof.
  destruct entry_Saved as (_ & _ & _ & _ & _ & ->).
  destruct Hfresh as [Hiid Hrefs].
  set (invoice := Invoice.mk iid _ _ _).
  split_and!.
  - rewrite (entries_appended db _ w p t [invoice]
               (entry_line iid (WarehouseEntry.date form) <$> WarehouseEntry.rows form));
      try done.
    + f_equal.
      pose proof (lines_of_new_doc
                    (λ it, InvoiceItem.product_type it = t) (λ it, InvoiceItem.product_id it = p)
                    (λ inv, Invoice.warehouse_id inv = w ∧ Invoice.status inv = "active")
                    (λ row, ProductRow.product_type row = t ∧ ProductRow.product_id row = p)
                    InvoiceItem.invoice_id Invoice.id invoice
                    (entry_line iid (WarehouseEntry.date form)) (WarehouseEntry.rows form))
        as Hlines.
      cbv beta in Hlines. unfold rows_of. rewrite Hlines by done.
      destruct (decide (WarehouseEntry.selectedWarehouse form = w)) as [Hw|Hw].
      * by rewrite decide_True.
      * rewrite decide_False; [done|]. by intros [? _].
    + intros it Hit Hin. apply list_elem_of_singleton in Hin. by apply (Hrefs it Hit).
    + by intros it (row & -> & _)%list_elem_of_fmap.
  - reflexivity.
  - reflexivity.
  - reflexivity.
  - intros i Hi. unfold invoiceMap, invoices. simpl.
    rewrite filter_app, foldl_app, filter_cons, filter_nil.
    destruct (decide _); [|done]. simpl. rewrite lookup_insert_ne; [done|].
    intros <-. apply Hiid.
    unfold invoiceIds, invoices in Hi. simpl in Hi.
    apply list_elem_of_fmap in Hi as (inv & -> & Hinv%list_elem_of_filter).
    apply list_elem_of_fmap_2. tauto.
Qed.

Lemma well_dated_before_entry : well_dated db' → well_dated db.
Proof.
  destruct entry_Saved as (_ & _ & _ & _ & _ & ->).
  apply (well_dated_prefix db _
           (entry_line iid (WarehouseEntry.date form) <$> WarehouseEntry.rows form) []);
    [done|].
  simpl. by rewrite app_nil_r.
Qed.
End entry_saved.

(** X11.  What the entry form writes.  [handleSubmit] saves exactly when
    warehouse, invoice code and supplier are set, there is a row, and every
    row names a product, has a positive quantity and a unit price that is
    not negative.  It then extends the ledger by one active invoice of the
    chosen warehouse and supplier and by one invoice line for each row, all
    dated with the date of the form, and changes no other table; the new
    lines meet the CHECK constraints of the schema, so a ledger that meets
    them still does. *)
Theorem entry_submit_writes form db iid db' :
  (WarehouseEntry.handleSubmit form db iid = WarehouseEntry.Saved db' ↔
   WarehouseEntry.selectedWarehouse form ≠ EmptyString
   ∧ WarehouseEntry.invoiceCode form ≠ EmptyString
   ∧ WarehouseEntry.supplier form ≠ EmptyString
   ∧ WarehouseEntry.rows form ≠ []
   ∧ Forall (λ row, ProductRow.product_id row ≠ EmptyString ∧ 0 < ProductRow.quantity row
                    ∧ 0 ≤ ProductRow.unit_price row)
            (WarehouseEntry.rows form)
   ∧ db' =
       mkDatabase (tbl_warehouses db) (tbl_reagents db) (tbl_consumables db)
         (tbl_invoices db
          ++ [Invoice.mk iid (WarehouseEntry.supplier form)
                (WarehouseEntry.selectedWarehouse form) "active"])
         (tbl_invoice_items db
          ++ (entry_line iid (WarehouseEntry.date form) <$> WarehouseEntry.rows form))
         (tbl_transfers db) (tbl_transfer_items db)
         (tbl_stock_out db) (tbl_stock_out_items db))
  ∧ (WarehouseEntry.handleSubmit form db iid = WarehouseEntry.Saved db' →
     checked_ledger db → checked_ledger db').
Proof.
  split; [split|].
  - apply entry_Saved.
  - intros (Hw & Hc & Hs & Hrows & Hvalid & ->). unfold WarehouseEntry.handleSubmit.
    rewrite decide_False.
    2:{ intros [?|[?|[?|Hlen]]]; try done. by destruct (WarehouseEntry.rows form). }
    rewrite decide_False; [done|].
    unfold WarehouseEntry.invalidRows. rewrite filter_none; [simpl; lia|].
    intros row Hrow Hbad. rewrite Forall_forall in Hvalid.
    destruct (Hvalid row Hrow) as (? & ? & ?). destruct Hbad as [?|[?|?]]; [done|lia|lia].
  - intros Hsaved (Hii & Hti & Hsi).
    destruct (entry_Saved form db iid db' Hsaved) as (_ & _ & _ & _ & Hvalid & ->).
    split_and!; simpl; try done.
    apply Forall_app. split; [done|]. apply Forall_fmap.
    eapply Forall_impl; [exact Hvalid|]. intros row (_ & ? & ?). simpl. by split.
Qed.

Lemma entry_submit_writes_witness :
  WarehouseEntry.handleSubmit entry_form_example ledger_example "I2"
  = WarehouseEntry.Saved ledger_after_entry
  ∧ checked_ledger ledger_example
  ∧ checked_ledger ledger_after_entry.
Proof.
  assert (Hsaved : WarehouseEntry.handleSubmit entry_form_example ledger_example "I2"
                   = WarehouseEntry.Saved ledger_after_entry) by (vm_compute; reflexivity).
  assert (Hck : checked_ledger ledger_example).
  { apply (bool_decide_unpack _). vm_compute. reflexivity. }
  split_and!; [exact Hsaved|exact Hck|].
  exact (proj2 (entry_submit_writes entry_form_example ledger_example "I2"
                  ledger_after_entry) Hsaved Hck).
Defined.

(** X12.  What an entry does to the computed stock.  After a saved entry
    with a new invoice id: the result of every other warehouse, and the
    result of a product that no row names, are those of before; at the
    warehouse of the entry the total of a product does not fall and grows by
    at most the quantity entered for it, and by exactly this quantity when
    the decreases recorded under the date of the entry do not exceed what
    the batch of that date and of the price of each row had received. *)
Theorem entry_adds_stock form db iid db' w p t :
  WarehouseEntry.handleSubmit form db iid = WarehouseEntry.Saved db' →
  fresh_invoice_id db iid → well_dated db' → checked_ledger db →
  let total ledger := totalQuantity (calculateProductStockInWarehouse ledger w p t) in
  let entered := Zsum ProductRow.quantity (rows_of form p t) in
  (w ≠ WarehouseEntry.selectedWarehouse form ∨ rows_of form p t = [] →
     calculateProductStockInWarehouse db' w p t = calculateProductStockInWarehouse db w p t)
  ∧ (w = WarehouseEntry.selectedWarehouse form →
       total db ≤ total db' ∧ total db' ≤ total db + entered
       ∧ ((∀ row, row ∈ rows_of form p t →
             decreased db w p t (WarehouseEntry.date form)
             ≤ received db w p t (WarehouseEntry.date form) (ProductRow.unit_price row)) →
          total db' = total db + entered)).
Proof.
  intros Hsaved Hfresh Hwd' Hck total entered.
  pose proof (well_dated_before_entry form db iid db' Hsaved Hwd') as Hwd.
  destruct (entry_fetches form db iid db' Hsaved Hfresh w p t)
    as (He & Hti & Hso & Hto & Hmap).
  destruct (entry_Saved form db iid db' Hsaved) as (_ & _ & _ & _ & Hvalid & _).
  assert (Hdec0 : ∀ d, 0 ≤ decreased db w p t d) by (intros d; by apply decreased_nonneg).
  assert (Hpos : ∀ it, it ∈ entry_line iid (WarehouseEntry.date form) <$> rows_of form p t →
                   0 ≤ InvoiceItem.quantity it).
  { intros it (row & -> & [_ Hrow]%list_elem_of_filter)%list_elem_of_fmap. simpl.
    rewrite Forall_forall in Hvalid. destruct (Hvalid row Hrow) as (_ & ? & _). lia. }
  split.
  - intros Hframe. apply calculate_ext_suppliers; try done.
    rewrite He. destruct Hframe as [Hw|Hnone].
    + rewrite decide_False by done. by rewrite app_nil_r.
    + rewrite Hnone, fmap_nil.
      destruct (decide (WarehouseEntry.selectedWarehouse form = w)); by rewrite app_nil_r.
  - intros ->. unfold total, entered.
    rewrite decide_True in He by done.
    rewrite <-(app_nil_r (or_empty (transferItemsIn db _ p t))) in Hti.
    pose proof (received_grown _ _ _ _ _ _ _ He Hti) as Hrec.
    pose proof (receipts_grown _ _ _ _ _ _ _ He Hti) as Hsum.
    rewrite Zsum_nil, Zsum_fmap in Hsum.
    change (Zsum (InvoiceItem.quantity ∘ entry_line iid (WarehouseEntry.date form))
                 (rows_of form p t))
      with (Zsum ProductRow.quantity (rows_of form p t)) in Hsum.
    assert (Hdec : ∀ d, decreased db' (WarehouseEntry.selectedWarehouse form) p t d
                        = decreased db (WarehouseEntry.selectedWarehouse form) p t d).
    { intros d. unfold decreased. by rewrite Hso, Hto. }
    assert (Hle : ∀ d price,
              received db (WarehouseEntry.selectedWarehouse form) p t d price
              ≤ received db' (WarehouseEntry.selectedWarehouse form) p t d price).
    { intros d price. rewrite Hrec, filter_nil, Zsum_nil.
      pose proof (Zsum_filter_nonneg InvoiceItem.quantity
                    (λ it, InvoiceItem.batch_date it = d ∧ InvoiceItem.unit_price it = price)
                    _ Hpos).
      lia. }
    split_and!.
    + apply total_mono; try done.
      * intros d. rewrite Hdec. apply Hdec0.
      * intros d. rewrite Hdec. lia.
    + pose proof (total_growth_bound db db' (WarehouseEntry.selectedWarehouse form) p t
                    Hwd Hwd' Hdec0 Hdec Hle).
      lia.
    + intros Hcov.
      pose proof (total_growth_exact db db' (WarehouseEntry.selectedWarehouse form) p t
                    Hwd Hwd' Hdec0 Hdec Hle) as Hexact.
      rewrite Hsum in Hexact.
      enough (Hc : ∀ d price,
                received db (WarehouseEntry.selectedWarehouse form) p t d price
                ≠ received db' (WarehouseEntry.selectedWarehouse form) p t d price →
                decreased db (WarehouseEntry.selectedWarehouse form) p t d
                ≤ received db (WarehouseEntry.selectedWarehouse form) p t d price)
        by (specialize (Hexact Hc); lia).
      intros d price Hne. rewrite Hrec, filter_nil, Zsum_nil in Hne.
      destruct (Zsum_filter_pos InvoiceItem.quantity
                  (λ it, InvoiceItem.batch_date it = d ∧ InvoiceItem.unit_price it = price)
                  (entry_line iid (WarehouseEntry.date form) <$> rows_of form p t))
        as (it & Hit & Hd & Hp); [lia|].
      apply list_elem_of_fmap in Hit as (row & -> & Hrow). simpl in Hd, Hp. subst d price.
      by apply Hcov.
Qed.

Lemma entry_adds_stock_witness :
  WarehouseEntry.handleSubmit entry_form_example ledger_example "I2"
  = WarehouseEntry.Saved ledger_after_entry
  ∧ fresh_invoice_id ledger_example "I2"
  ∧ well_dated ledger_after_entry
  ∧ checked_ledger ledger_example
  ∧ totalQuantity (calculateProductStockInWarehouse ledger_after_entry "W1" "P1" reagent)
    = totalQuantity (calculateProductStockInWarehouse ledger_example "W1" "P1" reagent)
      + Zsum ProductRow.quantity (rows_of entry_form_example "P1" reagent).
Proof.
  assert (Hsaved : WarehouseEntry.handleSubmit entry_form_example ledger_example "I2"
                   = WarehouseEntry.Saved ledger_after_entry) by (vm_compute; reflexivity).
  assert (Hfresh : fresh_invoice_id ledger_example "I2").
  { split.
    - intros Hin. by apply list_elem_of_singleton in Hin.
    - intros it Hit. by apply list_elem_of_singleton in Hit as ->. }
  assert (Hwd : well_dated ledger_after_entry) by (split; repeat constructor).
  assert (Hck : checked_ledger ledger_example).
  { apply (bool_decide_unpack _). vm_compute. reflexivity. }
  split_and!; [exact Hsaved|exact Hfresh|exact Hwd|exact Hck|].
  destruct (entry_adds_stock entry_form_example ledger_example "I2" ledger_after_entry
              "W1" "P1" reagent Hsaved Hfresh Hwd Hck) as (_ & Hat).
  destruct (Hat eq_refl) as (_ & _ & Hexact). apply Hexact.
  intros row Hrow. vm_compute. discriminate.
Defined.

(** * The inventory count *)

(** X13.  The rows of a count.  [updateRealQty] changes the rows of the
    product it is given and no other row, and of those only the real
    quantity, the loss and its amount.  On every list that it reaches from a
    loaded list on which each loss is the system quantity less the real
    quantity and each amount the loss times the unit price, this still holds
    of every row, and product, system quantity and unit price of each row
    are those of the loaded row. *)
Theorem count_rows_consistent loaded rows :
  Forall (λ row, CountRow.loss_qty row = CountRow.system_qty row - CountRow.real_qty row
                 ∧ CountRow.loss_amount row = CountRow.loss_qty row * CountRow.unit_price row)
         loaded →
  count_rows loaded rows →
  Forall2 (λ row first,
             CountRow.product_id row = CountRow.product_id first
             ∧ CountRow.product_type row = CountRow.product_type first
             ∧ CountRow.product_code row = CountRow.product_code first
             ∧ CountRow.product_name row = CountRow.product_name first
             ∧ CountRow.system_qty row = CountRow.system_qty first
             ∧ CountRow.unit_price row = CountRow.unit_price first
             ∧ CountRow.loss_qty row = CountRow.system_qty row - CountRow.real_qty row
             ∧ CountRow.loss_amount row = CountRow.loss_qty row * CountRow.unit_price row)
          rows loaded
  ∧ ∀ productId realQty,
      Forall2 (λ row updated,
                 if decide (CountRow.product_id row = productId)
                 then CountRow.real_qty updated = realQty
                 else updated = row)
              rows (InventoryCount.updateRealQty productId realQty rows).
Proof.
  intros Hloaded Hrows. split.
  - induction Hrows as [|productId realQty rows _ IH].
    + apply Forall_Forall2_diag. eapply Forall_impl; [exact Hloaded|].
      intros row [? ?]. by split_and!.
    + unfold InventoryCount.updateRealQty. apply Forall2_fmap_l.
      eapply Forall2_impl; [exact IH|]. intros row first. simpl.
      intros (? & ? & ? & ? & ? & ? & ? & ?).
      case_decide; simpl; by split_and!.
  - intros productId realQty. unfold InventoryCount.updateRealQty.
    apply Forall2_fmap_r, Forall_Forall2_diag, Forall_forall. intros row _.
    cbv beta.
    destruct (decide (CountRow.product_id row = productId)) as [Heq|Hne]; simpl.
    + by destruct (decide (CountRow.product_id row ≠ productId)).
    + by destruct (decide (CountRow.product_id row ≠ productId)).
Qed.

Lemma count_rows_consistent_witness :
  Forall2 (λ row first,
             CountRow.product_id row = CountRow.product_id first
             ∧ CountRow.product_type row = CountRow.product_type first
             ∧ CountRow.product_code row = CountRow.product_code first
             ∧ CountRow.product_name row = CountRow.product_name first
             ∧ CountRow.system_qty row = CountRow.system_qty first
             ∧ CountRow.unit_price row = CountRow.unit_price first
             ∧ CountRow.loss_qty row = CountRow.system_qty row - CountRow.real_qty row
             ∧ CountRow.loss_amount row = CountRow.loss_qty row * CountRow.unit_price row)
          (InventoryCount.updateRealQty "P1" 95
             [CountRow.mk "P1" "R-001" "Buffer" reagent 100 100 0 0 5])
          [CountRow.mk "P1" "R-001" "Buffer" reagent 100 100 0 0 5].
Proof.
  apply (count_rows_consistent [CountRow.mk "P1" "R-001" "Buffer" reagent 100 100 0 0 5]).
  - repeat constructor.
  - apply count_typed, count_loaded.
Defined.

Section count_saved.
Context (form : InventoryCount.Form) (store : InventoryCount.Store).
Context (cid sid : string) (store' : InventoryCount.Store).
Context (Hsaved : InventoryCount.handleSubmit form store cid sid = InventoryCount.Saved store').

Lemma count_Saved :
  InventoryCount.selectedWarehouse form ≠ EmptyString
  ∧ InventoryCount.countRows form ≠ []
  ∧ InventoryCount.countCode form ≠ EmptyString
  ∧ InventoryCount.tbl_inventory_count store' =
      InventoryCount.tbl_inventory_count store
      ++ [Count.mk cid (InventoryCount.selectedWarehouse form) (InventoryCount.date form)
            (InventoryCount.countCode form)
            (Zsum CountRow.loss_amount (InventoryCount.countRows form))]
  ∧ InventoryCount.tbl_inventory_count_items store' =
      InventoryCount.tbl_inventory_count_items store
      ++ ((λ row, CountItem.mk cid (CountRow.product_type row) (CountRow.product_id row)
                    (CountRow.system_qty row) (CountRow.real_qty row)
                    (CountRow.loss_qty row) (CountRow.loss_amount row))
          <$> InventoryCount.countRows form)
  ∧ (lossItems form = [] → InventoryCount.ledger store' = InventoryCount.ledger store)
  ∧ (lossItems form ≠ [] →
     InventoryCount.ledger store' =
       let db := InventoryCount.ledger store in
       mkDatabase (tbl_warehouses db) (tbl_reagents db) (tbl_consumables db)
         (tbl_invoices db) (tbl_invoice_items db)
         (tbl_transfers db) (tbl_transfer_items db)
         (tbl_stock_out db
          ++ [StockOut.mk sid (InventoryCount.selectedWarehouse form)
                (InventoryCount.date form) "inventory_loss"
                (Zsum CountRow.loss_amount (lossItems form)) None])
         (tbl_stock_out_items db
          ++ (loss_line sid (InventoryCount.date form) <$> lossItems form))).
Proof.
  revert Hsaved. unfold InventoryCount.handleSubmit.
  case_decide as Hlist; [done|]. case_decide as Hcode; [done|].
  intros [= <-]. simpl. rewrite !foldl_sum, !Z.add_0_l.
  fold (lossItems form).
  split_and!; try tauto.
  - intros Hnil. apply Hlist. right. by rewrite Hnil.
  - intros ->. by rewrite decide_False by (simpl; lia).
  - intros Hsome. rewrite decide_True; [done|].
    destruct (lossItems form); [done|simpl; lia].
Qed.

Lemma count_fetches (Hfresh : fresh_stockout_id (InventoryCount.ledger store) sid) w p t :
  let db := InventoryCount.ledger store in
  let db' := InventoryCount.ledger store' in
  entries db' w p t = entries db w p t
  ∧ transferItemsIn db' w p t = transferItemsIn db w p t
  ∧ transferItemsOut db' w p t = transferItemsOut db w p t
  ∧ invoiceMap db' w = invoiceMap db w
  ∧ or_empty (stockOutItems db' w p t) =
      or_empty (stockOutItems db w p t)
      ++ (if decide (InventoryCount.selectedWarehouse form = w)
          then loss_line sid (InventoryCount.date form) <$> losses_of form p t else []).
Proof.
  intros db db'. unfold db, db'.
  destruct count_Saved as (_ & _ & _ & _ & _ & Hnone & Hsome).
  destruct (decide (lossItems form = [])) as [Hnil|Hloss].
  - rewrite (Hnone Hnil). split_and!; try done.
    unfold losses_of. rewrite Hnil, filter_nil, fmap_nil.
    destruct (decide _); by rewrite app_nil_r.
  - rewrite (Hsome Hloss). destruct Hfresh as [Hsid Hrefs].
    set (stockOut := StockOut.mk sid _ _ _ _ _).
    split_and!; try reflexivity.
    rewrite (stockOutItems_appended (InventoryCount.ledger store) _ w p t [stockOut]
               (loss_line sid (InventoryCount.date form) <$> lossItems form)); try done.
    + f_equal.
      pose proof (lines_of_new_doc
                    (λ it, StockOutItem.product_type it = t)
                    (λ it, StockOutItem.product_id it = p)
                    (λ so, StockOut.warehouse_id so = w ∧ StockOut.reason so ≠ "transfer")
                    (λ row, CountRow.product_type row = t ∧ CountRow.product_id row = p)
                    StockOutItem.stockout_id StockOut.id stockOut
                    (loss_line sid (InventoryCount.date form)) (lossItems form))
        as Hlines.
      cbv beta in Hlines. unfold losses_of. rewrite Hlines by done.
      destruct (decide (InventoryCount.selectedWarehouse form = w)) as [Hw|Hw].
      * by rewrite decide_True.
      * rewrite decide_False; [done|]. by intros [? _].
    + intros it Hit Hin. apply list_elem_of_singleton in Hin. by apply (Hrefs it Hit).
    + by intros it (row & -> & _)%list_elem_of_fmap.
Qed.

Lemma count_well_dated :
  well_dated (InventoryCount.ledger store) → well_dated (InventoryCount.ledger store').
Proof.
  destruct count_Saved as (_ & _ & _ & _ & _ & Hnone & Hsome).
  destruct (decide (lossItems form = [])) as [Hnil|Hloss].
  - by rewrite (Hnone Hnil).
  - by rewrite (Hsome Hloss).
Qed.
End count_saved.



(** The result depends on the decreases only through the totals of the
    dates of the receipts. *)
Lemma calculate_ext_decreases db db' w p t :
  well_dated db →
  or_empty (entries db' w p t) = or_empty (entries db w p t) →
  or_empty (transferItemsIn db' w p t) = or_empty (transferItemsIn db w p t) →
  (∀ i, i ∈ invoiceIds db w → invoiceMap db' w !! i = invoiceMap db w !! i) →
  (∀ r, r ∈ receipts db w p t →
     decreased db' w p t (r_date r) = decreased db w p t (r_date r)) →
  calculateProductStockInWarehouse db' w p t = calculateProductStockInWarehouse db w p t.
Proof.
  intros Hwd He Hti Hmap Hdec.
  assert (Hbatch : batchMap db' w p t = batchMap db w p t).
  { unfold batchMap. by rewrite He, Hti. }
  assert (Hnet : ∀ kv, kv ∈ batchMap db w p t →
                   net_quantity (exitMap db' w p t) kv = net_quantity (exitMap db w p t) kv).
  { intros [k bucket] Hkv. rewrite !net_quantity_date, !exitMap_decreased.
    destruct (bucket_batch_facts db w p t k bucket Hwd Hkv)
      as (d & price & Hpair & (r & Hr & Hd & _) & _).
    pose proof (f_equal fst Hpair) as Hdate. simpl in Hdate.
    rewrite Hdate, <-Hd, Hdec; done. }
  assert (Hkept : kept (exitMap db' w p t) (batchMap db w p t)
                  = kept (exitMap db w p t) (batchMap db w p t)).
  { unfold kept. apply filter_ext_in. intros kv Hkv. by rewrite Hnet. }
  assert (Hin : ∀ kv, kv ∈ kept (exitMap db w p t) (batchMap db w p t) →
                  kv ∈ batchMap db w p t).
  { intros kv Hkv. apply list_elem_of_filter in Hkv. tauto. }
  rewrite !calculate_unfold. unfold emitted. rewrite Hbatch, Hkept. f_equal.
  - apply Zsum_ext. intros kv Hkv. by apply Hnet, Hin.
  - apply Zsum_ext. intros kv Hkv. by rewrite Hnet by (by apply Hin).
  - f_equal. apply list_fmap_ext. intros _ [k bucket] Hkv%list_elem_of_lookup_2.
    unfold batch_of. rewrite Hnet by (by apply Hin). f_equal. simpl.
    unfold supplier_of_map.
    destruct (bucket_invoiceIds bucket) as [|first rest] eqn:Hids; [done|].
    rewrite Hmap; [done|].
    apply (bucket_invoiceIds_fetched db w p t k bucket); [by apply Hin|].
    rewrite Hids. left.
Qed.

(** X15.  What a count does to the computed stock.  After a saved count
    with a new stock-out id, the decreases of a product at the warehouse of
    the count grow, under the date of the count and under no other date, by
    the losses recorded for the product; no total grows; and the result of
    a product is the one of before, whatever loss the count records for it,
    when no receipt of the product at the warehouse carries the date of the
    count (as for every other warehouse and every product without a loss). *)
Theorem count_effect_on_stock form store cid sid store' w p t :
  InventoryCount.handleSubmit form store cid sid = InventoryCount.Saved store' →
  fresh_stockout_id (InventoryCount.ledger store) sid →
  well_dated (InventoryCount.ledger store) → checked_ledger (InventoryCount.ledger store) →
  let db := InventoryCount.ledger store in
  let db' := InventoryCount.ledger store' in
  (∀ d, decreased db' w p t d =
          decreased db w p t d
          + (if decide (InventoryCount.selectedWarehouse form = w
                        ∧ d = InventoryCount.date form)
             then Zsum CountRow.loss_qty (losses_of form p t) else 0))
  ∧ totalQuantity (calculateProductStockInWarehouse db' w p t)
    ≤ totalQuantity (calculateProductStockInWarehouse db w p t)
  ∧ (w ≠ InventoryCount.selectedWarehouse form ∨ losses_of form p t = []
     ∨ (∀ r, r ∈ receipts db w p t → r_date r ≠ InventoryCount.date form) →
     calculateProductStockInWarehouse db' w p t = calculateProductStockInWarehouse db w p t).
Proof.
  intros Hsaved Hfresh Hwd Hck db db'.
  destruct (count_fetches form store cid sid store' Hsaved Hfresh w p t)
    as (He & Hti & Hto & Hmap & Hso).
  fold db db' in He, Hti, Hto, Hmap, Hso.
  pose proof (count_well_dated form store cid sid store' Hsaved Hwd) as Hwd'. fold db' in Hwd'.
  assert (Hdec : ∀ d, decreased db' w p t d =
            decreased db w p t d
            + (if decide (InventoryCount.selectedWarehouse form = w
                          ∧ d = InventoryCount.date form)
               then Zsum CountRow.loss_qty (losses_of form p t) else 0)).
  { intros d.
    assert (Hnew : Zsum StockOutItem.quantity
                     (filter (λ it, StockOutItem.batch_date it = d)
                        (if decide (InventoryCount.selectedWarehouse form = w)
                         then loss_line sid (InventoryCount.date form) <$> losses_of form p t
                         else []))
                   = if decide (InventoryCount.selectedWarehouse form = w
                                ∧ d = InventoryCount.date form)
                     then Zsum CountRow.loss_qty (losses_of form p t) else 0).
    { destruct (decide (InventoryCount.selectedWarehouse form = w)) as [Hw|Hw].
      - destruct (decide (d = InventoryCount.date form)) as [->|Hd].
        + rewrite decide_True by done.
          rewrite filter_all by (by intros it (row & -> & _)%list_elem_of_fmap).
          by rewrite Zsum_fmap.
        + rewrite decide_False by (by intros [_ ?]).
          rewrite filter_none; [done|].
          intros it (row & -> & _)%list_elem_of_fmap Hdate. simpl in Hdate. by destruct Hd.
      - by rewrite decide_False by (by intros [? _]). }
    unfold decreased. rewrite Hso, Hto, filter_app, Zsum_app, Hnew. lia. }
  assert (Hloss : 0 ≤ Zsum CountRow.loss_qty (losses_of form p t)).
  { apply Zsum_nonneg. intros row [_ [Hpos _]%list_elem_of_filter]%list_elem_of_filter. lia. }
  assert (Hdec0 : ∀ d, 0 ≤ decreased db w p t d) by (intros d; by apply decreased_nonneg).
  split_and!.
  - exact Hdec.
  - apply total_mono; try done.
    + intros d. pose proof (Hdec d) as Hd.
      destruct (decide (InventoryCount.selectedWarehouse form = w
                        ∧ d = InventoryCount.date form)); lia.
    + intros d price. unfold received. rewrite He, Hti. lia.
  - intros Hframe. apply calculate_ext_decreases; try done.
    + by rewrite He.
    + by rewrite Hti.
    + intros i _. by rewrite Hmap.
    + intros r Hr. rewrite Hdec.
      destruct (decide (InventoryCount.selectedWarehouse form = w
                        ∧ r_date r = InventoryCount.date form)) as [[Hw Hd]|_]; [|lia].
      destruct Hframe as [Hne|[Hnone|Hdates]].
      * by destruct Hne.
      * rewrite Hnone, Zsum_nil. lia.
      * by destruct (Hdates r Hr).
Qed.

Lemma count_effect_on_stock_witness :
  calculateProductStockInWarehouse ledger_inventory_loss "W1" "P1" reagent
  = calculateProductStockInWarehouse ledger_before_count "W1" "P1" reagent.
Proof.
  assert (Hsaved : InventoryCount.handleSubmit count_form_example
                     (InventoryCount.mkStore ledger_before_count [] []) "C1" "S1"
                   = InventoryCount.Saved
                       (InventoryCount.mkStore ledger_inventory_loss
                          [Count.mk "C1" "W1" "2024-02-01" "COUNT-2024-001" 25]
                          [CountItem.mk "C1" reagent "P1" 100 95 5 25]))
    by (vm_compute; reflexivity).
  assert (Hfresh : fresh_stockout_id ledger_before_count "S1").
  { split; [apply not_elem_of_nil|by intros it ?%elem_of_nil]. }
  assert (Hwd : well_dated ledger_before_count) by (split; repeat constructor).
  assert (Hck : checked_ledger ledger_before_count).
  { apply (bool_decide_unpack _). vm_compute. reflexivity. }
  apply (count_effect_on_stock _ _ _ _ _ "W1" "P1" reagent Hsaved Hfresh Hwd Hck).
  right. right. intros r Hr.
  change (r ∈ [mkReceipt "2024-01-10" 5 100 (Some "I1")]) in Hr.
  by apply list_elem_of_singleton in Hr as ->.
Defined.

(** * The return of an invoice *)

Lemma find_none_forall {A} (f : A → bool) (l : list A) :
  List.find f l = None ↔ Forall (λ x, f x = false) l.
Proof.
  induction l as [|x l IH]; simpl; [by split; [constructor|]|].
  destruct (f x) eqn:Hfx.
  - split; [done|]. intros H. apply Forall_cons in H as [H _]. congruence.
  - rewrite IH. split; [by constructor|]. by intros [_ ?]%Forall_cons.
Qed.

Lemma find_some_first {A} (f : A → bool) (l : list A) x :
  List.find f l = Some x → x ∈ l ∧ f x = true.
Proof.
  induction l as [|y l IH]; simpl; [done|].
  destruct (f y) eqn:Hfy.
  - intros [= <-]. split; [left|done].
  - intros H. destruct (IH H). split; [by right|done].
Qed.



(** ** The stock after a return *)

Lemma marked_invoices id w (l : list Invoice.t) :
  filter (λ inv, Invoice.warehouse_id inv = w ∧ Invoice.status inv = "active")
         (InvoiceList.mark_returned id <$> l)
  = filter (λ inv, Invoice.id inv ≠ id)
      (filter (λ inv, Invoice.warehouse_id inv = w ∧ Invoice.status inv = "active") l).
Proof.
  induction l as [|inv l IH]; [done|].
  rewrite fmap_cons, (filter_cons _ (InvoiceList.mark_returned id inv)), IH.
  rewrite (filter_cons _ inv l). unfold InvoiceList.mark_returned.
  destruct (decide (Invoice.id inv = id)) as [Heq|Hne]; simpl.
  - rewrite decide_False by (by intros [_ ?]).
    destruct (decide (Invoice.warehouse_id inv = w ∧ Invoice.status inv = "active"));
      [|done].
    rewrite filter_cons, decide_False; [done|]. by intros Hne.
  - destruct (decide (Invoice.warehouse_id inv = w ∧ Invoice.status inv = "active"));
      [|done].
    by rewrite filter_cons, decide_True.
Qed.

Lemma foldl_insert_lookup_filter {A V} (f : A → string) (g : A → V) (k0 : string)
    (l : list A) k : ∀ m m' : gmap string V,
  k ≠ k0 → m !! k = m' !! k →
  foldl (λ (m : gmap string V) y, <[f y := g y]> m) m (filter (λ y, f y ≠ k0) l) !! k
  = foldl (λ (m : gmap string V) y, <[f y := g y]> m) m' l !! k.
Proof.
  induction l as [|y l IH]; intros m m' Hk Hm; simpl; [done|].
  rewrite filter_cons. destruct (decide (f y ≠ k0)) as [Hy|Hy]; simpl.
  - apply IH; [done|]. destruct (decide (f y = k)) as [->|Hne].
    + by rewrite !lookup_insert_eq.
    + by rewrite !lookup_insert_ne.
  - apply IH; [done|]. rewrite lookup_insert_ne; [done|].
    intros Heq. apply Hy. intros Hy'. apply Hk. by rewrite <-Heq, Hy'.
Qed.

(** The result depends on the supplier map only at the invoices of the
    fetched invoice lines. *)
Lemma calculate_ext_general db db' w p t :
  well_dated db →
  or_empty (entries db' w p t) = or_empty (entries db w p t) →
  or_empty (transferItemsIn db' w p t) = or_empty (transferItemsIn db w p t) →
  (∀ it, it ∈ or_empty (entries db w p t) →
     invoiceMap db' w !! InvoiceItem.invoice_id it
     = invoiceMap db w !! InvoiceItem.invoice_id it) →
  (∀ r, r ∈ receipts db w p t →
     decreased db' w p t (r_date r) = decreased db w p t (r_date r)) →
  calculateProductStockInWarehouse db' w p t = calculateProductStockInWarehouse db w p t.
Proof.
  intros Hwd He Hti Hmap Hdec.
  assert (Hbatch : batchMap db' w p t = batchMap db w p t).
  { unfold batchMap. by rewrite He, Hti. }
  assert (Hnet : ∀ kv, kv ∈ batchMap db w p t →
                   net_quantity (exitMap db' w p t) kv = net_quantity (exitMap db w p t) kv).
  { intros [k bucket] Hkv. rewrite !net_quantity_date, !exitMap_decreased.
    destruct (bucket_batch_facts db w p t k bucket Hwd Hkv)
      as (d & price & Hpair & (r & Hr & Hd & _) & _).
    pose proof (f_equal fst Hpair) as Hdate. simpl in Hdate.
    rewrite Hdate, <-Hd, Hdec; done. }
  assert (Hkept : kept (exitMap db' w p t) (batchMap db w p t)
                  = kept (exitMap db w p t) (batchMap db w p t)).
  { unfold kept. apply filter_ext_in. intros kv Hkv. by rewrite Hnet. }
  assert (Hin : ∀ kv, kv ∈ kept (exitMap db w p t) (batchMap db w p t) →
                  kv ∈ batchMap db w p t).
  { intros kv Hkv. apply list_elem_of_filter in Hkv. tauto. }
  rewrite !calculate_unfold. unfold emitted. rewrite Hbatch, Hkept. f_equal.
  - apply Zsum_ext. intros kv Hkv. by apply Hnet, Hin.
  - apply Zsum_ext. intros kv Hkv. by rewrite Hnet by (by apply Hin).
  - f_equal. apply list_fmap_ext. intros _ [k bucket] Hkv%list_elem_of_lookup_2.
    unfold batch_of. rewrite Hnet by (by apply Hin). f_equal. simpl.
    unfold supplier_of_map.
    destruct (bucket_invoiceIds bucket) as [|first rest] eqn:Hids; [done|].
    apply Hin in Hkv.
    pose proof (elem_get _ _ _ (batchMap_NoDup db w p t) Hkv) as Hget.
    rewrite batchMap_receipts in Hget.
    apply bucket_from_foldl in Hget as [_ Hfrom].
    destruct (Hfrom first) as (r & Hr & Hinv); [rewrite Hids; left|].
    unfold receipts in Hr.
    apply elem_of_app in Hr as [Hr|Hr]; apply list_elem_of_fmap in Hr as (it & -> & Hit);
      [|done].
    simpl in Hinv. injection Hinv as <-. by rewrite Hmap.
Qed.

Lemma NoDup_fmap_eq {A B} (f : A → B) (l : list A) x y :
  NoDup (f <$> l) → x ∈ l → y ∈ l → f x = f y → x = y.
Proof.
  induction l as [|z l IH]; intros Hnd Hx Hy Hf; [by apply elem_of_nil in Hx|].
  rewrite fmap_cons in Hnd. apply NoDup_cons in Hnd as [Hz Hnd].
  apply elem_of_cons in Hx as [->|Hx]; apply elem_of_cons in Hy as [->|Hy]; try done.
  - destruct Hz. rewrite Hf. by apply list_elem_of_fmap_2.
  - destruct Hz. rewrite <-Hf. by apply list_elem_of_fmap_2.
  - by apply IH.
Qed.

Section invoice_returned.
Context (total_price : InvoiceItem.t → Z) (today : string) (invoice : Invoice.t).
Context (db : Database) (sid : string) (db' : Database).
Context (Hreturned : InvoiceList.returnInvoice total_price today true invoice db sid
                     = InvoiceList.Returned db').

Lemma return_Returned :
  db' =
    mkDatabase (tbl_warehouses db) (tbl_reagents db) (tbl_consumables db)
      (InvoiceList.mark_returned (Invoice.id invoice) <$> tbl_invoices db)
      (tbl_invoice_items db)
      (tbl_transfers db) (tbl_transfer_items db)
      (tbl_stock_out db
       ++ [StockOut.mk sid (Invoice.warehouse_id invoice) today "invoice_return"
             (Zsum total_price (invoice_lines db invoice)) None])
      (tbl_stock_out_items db ++ (return_line total_price sid <$> invoice_lines db invoice)).
Proof.
  revert Hreturned. unfold InvoiceList.returnInvoice. cbn [negb].
  fold (invoice_lines db invoice).
  case_decide; [done|]. destruct (List.find _ _); [done|].
  rewrite foldl_sum, Z.add_0_l. by intros [= <-].
Qed.

Lemma returned_invoiceIds w i :
  i ∈ invoiceIds db' w ↔ i ∈ invoiceIds db w ∧ i ≠ Invoice.id invoice.
Proof.
  rewrite return_Returned. unfold invoiceIds, invoices. simpl.
  rewrite marked_invoices, !list_elem_of_fmap. split.
  - intros (inv & -> & [Hne Hinv]%list_elem_of_filter). split; [by exists inv|done].
  - intros [(inv & -> & Hinv) Hne]. exists inv. split; [done|].
    by apply list_elem_of_filter.
Qed.

Lemma return_entries w p t :
  or_empty (entries db' w p t)
  = filter (λ it, InvoiceItem.invoice_id it ≠ Invoice.id invoice)
           (or_empty (entries db w p t)).
Proof.
  rewrite !entries_filter, list_filter_filter.
  assert (Hitems : tbl_invoice_items db' = tbl_invoice_items db)
    by (by rewrite return_Returned).
  rewrite Hitems. apply filter_ext_in. intros it _.
  rewrite returned_invoiceIds. tauto.
Qed.

Lemma return_fetches (Hfresh : fresh_stockout_id db sid) w p t :
  transferItemsIn db' w p t = transferItemsIn db w p t
  ∧ transferItemsOut db' w p t = transferItemsOut db w p t
  ∧ or_empty (stockOutItems db' w p t) =
      or_empty (stockOutItems db w p t)
      ++ (if decide (Invoice.warehouse_id invoice = w)
          then return_line total_price sid <$> invoice_lines_of db invoice p t else [])
  ∧ (∀ i, i ≠ Invoice.id invoice → invoiceMap db' w !! i = invoiceMap db w !! i).
Proof.
  rewrite return_Returned. destruct Hfresh as [Hsid Hrefs].
  set (stockOut := StockOut.mk sid _ _ _ _ _).
  split_and!; try reflexivity.
  - rewrite (stockOutItems_appended db _ w p t [stockOut]
               (return_line total_price sid <$> invoice_lines db invoice)); try done.
    + f_equal.
      pose proof (lines_of_new_doc
                    (λ it, StockOutItem.product_type it = t)
                    (λ it, StockOutItem.product_id it = p)
                    (λ so, StockOut.warehouse_id so = w ∧ StockOut.reason so ≠ "transfer")
                    (λ it, InvoiceItem.product_type it = t ∧ InvoiceItem.product_id it = p)
                    StockOutItem.stockout_id StockOut.id stockOut
                    (return_line total_price sid) (invoice_lines db invoice))
        as Hlines.
      cbv beta in Hlines. unfold invoice_lines_of. rewrite Hlines by done.
      destruct (decide (Invoice.warehouse_id invoice = w)) as [Hw|Hw].
      * by rewrite decide_True.
      * rewrite decide_False; [done|]. by intros [? _].
    + intros it Hit Hin. apply list_elem_of_singleton in Hin. by apply (Hrefs it Hit).
    + by intros it (row & -> & _)%list_elem_of_fmap.
  - intros i Hi. unfold invoiceMap, invoices. simpl. rewrite marked_invoices.
    by apply foldl_insert_lookup_filter.
Qed.

(** The lines of the invoice among the fetched invoice lines. *)
Lemma returned_lines_fetched (Hlisted : listed_active db invoice) w p t :
  filter (λ it, InvoiceItem.invoice_id it = Invoice.id invoice) (or_empty (entries db w p t))
  = if decide (Invoice.warehouse_id invoice = w) then invoice_lines_of db invoice p t else [].
Proof.
  destruct Hlisted as (Hin & Hactive & Hnd).
  rewrite entries_filter, list_filter_filter.
  unfold invoice_lines_of, invoice_lines. rewrite list_filter_filter.
  assert (Hids : Invoice.id invoice ∈ invoiceIds db w ↔ Invoice.warehouse_id invoice = w).
  { unfold invoiceIds, invoices. simpl. rewrite list_elem_of_fmap. split.
    - intros (inv & Hid & [[Hw _] Hinv]%list_elem_of_filter).
      assert (inv = invoice) as ->; [|done].
      apply (NoDup_fmap_eq Invoice.id (tbl_invoices db)); done.
    - intros Hw. exists invoice. split; [done|]. by apply list_elem_of_filter. }
  destruct (decide (Invoice.warehouse_id invoice = w)) as [Hw|Hw].
  - apply filter_ext_in. intros it _. split.
    + tauto.
    + intros ((? & ?) & Hid). split_and!; try done. rewrite Hid. by apply Hids.
  - apply filter_none. intros it _ (Hid & _ & _ & Hfetched).
    rewrite Hid in Hfetched. by apply Hw, Hids.
Qed.
End invoice_returned.

Lemma filter_comm {A} (P Q : A → Prop) `{!∀ x, Decision (P x), !∀ x, Decision (Q x)}
    (l : list A) :
  filter P (filter Q l) = filter Q (filter P l).
Proof. rewrite !list_filter_filter. apply filter_ext_in. intros x _. tauto. Qed.

Section return_quantities.
Context (total_price : InvoiceItem.t → Z) (today : string) (invoice : Invoice.t).
Context (db : Database) (sid : string) (db' : Database).
Context (Hreturned : InvoiceList.returnInvoice total_price today true invoice db sid
                     = InvoiceList.Returned db').
Context (Hfresh : fresh_stockout_id db sid) (Hlisted : listed_active db invoice).
Context (w p : string) (t : ProductType).

(** The lines of the invoice that count for the product at the warehouse. *)
Let returned : list InvoiceItem.t :=
  if decide (Invoice.warehouse_id invoice = w) then invoice_lines_of db invoice p t else [].

Lemma return_received d price :
  received db' w p t d price =
    received db w p t d price
    - Zsum InvoiceItem.quantity
        (filter (λ it, InvoiceItem.batch_date it = d ∧ InvoiceItem.unit_price it = price)
                returned).
Proof.
  destruct (return_fetches total_price today invoice db sid db' Hreturned Hfresh w p t)
    as (Hti & _).
  unfold received, returned.
  rewrite (return_entries total_price today invoice db sid db' Hreturned), Hti.
  rewrite <-(returned_lines_fetched invoice db Hlisted w p t).
  rewrite (filter_comm _ (λ it, InvoiceItem.invoice_id it ≠ Invoice.id invoice)).
  rewrite (filter_comm _ (λ it, InvoiceItem.invoice_id it = Invoice.id invoice)).
  rewrite (Zsum_filter_split (λ it, InvoiceItem.invoice_id it = Invoice.id invoice)
             InvoiceItem.quantity
             (filter (λ it, InvoiceItem.batch_date it = d ∧ InvoiceItem.unit_price it = price)
                     (or_empty (entries db w p t)))).
  lia.
Qed.

Lemma return_decreased d :
  decreased db' w p t d =
    decreased db w p t d
    + Zsum StockOutItem.quantity
        (filter (λ it, StockOutItem.batch_date it = d)
                (return_line total_price sid <$> returned)).
Proof.
  destruct (return_fetches total_price today invoice db sid db' Hreturned Hfresh w p t)
    as (_ & Hto & Hso & _).
  unfold decreased, returned. rewrite Hso, Hto, filter_app, Zsum_app.
  destruct (decide (Invoice.warehouse_id invoice = w)); simpl; lia.
Qed.

Lemma return_decreased_lines d :
  decreased db' w p t d =
    decreased db w p t d
    + Zsum InvoiceItem.quantity (filter (λ it, InvoiceItem.batch_date it = d) returned).
Proof.
  rewrite return_decreased. f_equal.
  induction returned as [|it l IH]; [done|].
  rewrite fmap_cons, !filter_cons. simpl.
  destruct (decide (InvoiceItem.batch_date it = d)); rewrite ?Zsum_cons, IH; done.
Qed.

Lemma returned_fetched it :
  it ∈ returned →
  it ∈ or_empty (entries db w p t) ∧ InvoiceItem.invoice_id it = Invoice.id invoice.
Proof.
  unfold returned. rewrite <-(returned_lines_fetched invoice db Hlisted w p t).
  intros [? ?]%list_elem_of_filter. done.
Qed.

Lemma return_well_dated : well_dated db → well_dated db'.
Proof.
  by rewrite (return_Returned total_price today invoice db sid db' Hreturned).
Qed.

Lemma return_receipts_subset r : r ∈ receipts db' w p t → r ∈ receipts db w p t.
Proof.
  destruct (return_fetches total_price today invoice db sid db' Hreturned Hfresh w p t)
    as (Hti & _).
  unfold receipts.
  rewrite (return_entries total_price today invoice db sid db' Hreturned), Hti.
  rewrite !elem_of_app, !list_elem_of_fmap.
  intros [(it & -> & [_ Hit]%list_elem_of_filter)|Hr]; [left; by exists it|by right].
Qed.
End return_quantities.

(** X17.  What a return does to the computed stock.  After the return of an
    active invoice of the ledger with a new stock-out id, at the warehouse of
    the invoice the lines of the invoice no longer count as receipts of
    their batches and, in addition, count as decreases under their batch
    dates; no total grows; and the result of a product that the invoice
    does not name, and every result of another warehouse, is the one of
    before. *)
Theorem return_effect_on_stock total_price today invoice db sid db' w p t :
  InvoiceList.returnInvoice total_price today true invoice db sid = InvoiceList.Returned db' →
  fresh_stockout_id db sid → listed_active db invoice →
  well_dated db → checked_ledger db →
  let returned :=
    if decide (Invoice.warehouse_id invoice = w) then invoice_lines_of db invoice p t
    else [] in
  (∀ d price,
     received db' w p t d price =
       received db w p t d price
       - Zsum InvoiceItem.quantity
           (filter (λ it, InvoiceItem.batch_date it = d ∧ InvoiceItem.unit_price it = price)
                   returned))
  ∧ (∀ d,
       decreased db' w p t d =
         decreased db w p t d
         + Zsum InvoiceItem.quantity
             (filter (λ it, InvoiceItem.batch_date it = d) returned))
  ∧ totalQuantity (calculateProductStockInWarehouse db' w p t)
    ≤ totalQuantity (calculateProductStockInWarehouse db w p t)
  ∧ (returned = [] →
     calculateProductStockInWarehouse db' w p t = calculateProductStockInWarehouse db w p t).
Proof.
  intros Hreturned Hfresh Hlisted Hwd Hck returned.
  pose proof (return_received total_price today invoice db sid db' Hreturned Hfresh Hlisted
                w p t) as Hrec.
  fold returned in Hrec.
  assert (Hdec : ∀ d,
            decreased db' w p t d =
              decreased db w p t d
              + Zsum InvoiceItem.quantity
                  (filter (λ it, InvoiceItem.batch_date it = d) returned)).
  { exact (return_decreased_lines total_price today invoice db sid db' Hreturned Hfresh
             w p t). }
  assert (Hqty : ∀ it, it ∈ returned → 0 ≤ InvoiceItem.quantity it).
  { intros it Hit.
    apply (returned_fetched invoice db Hlisted w p t) in Hit as [Hit _].
    destruct (fetched_lines_checked db w p t Hck) as (He & _).
    apply He in Hit. lia. }
  assert (Hdec0 : ∀ d, 0 ≤ decreased db w p t d) by (intros d; by apply decreased_nonneg).
  split_and!; [exact Hrec|exact Hdec|..].
  - apply total_mono; try done.
    + by apply (return_well_dated total_price today invoice db sid db' Hreturned).
    + intros d. rewrite Hdec.
      pose proof (Zsum_filter_nonneg InvoiceItem.quantity
                    (λ it, InvoiceItem.batch_date it = d) returned Hqty).
      lia.
    + intros d price. rewrite Hrec.
      pose proof (Zsum_filter_nonneg InvoiceItem.quantity
                    (λ it, InvoiceItem.batch_date it = d ∧ InvoiceItem.unit_price it = price)
                    returned Hqty).
      lia.
  - intros Hnone.
    destruct (return_fetches total_price today invoice db sid db' Hreturned Hfresh w p t)
      as (Hti & _ & _ & Hmap).
    assert (Hother : ∀ it, it ∈ or_empty (entries db w p t) →
                       InvoiceItem.invoice_id it ≠ Invoice.id invoice).
    { intros it Hit Hid.
      assert (Hin : it ∈ returned).
      { unfold returned. rewrite <-(returned_lines_fetched invoice db Hlisted w p t).
        by apply list_elem_of_filter. }
      rewrite Hnone in Hin. by apply elem_of_nil in Hin. }
    apply calculate_ext_general; try done.
    + rewrite (return_entries total_price today invoice db sid db' Hreturned).
      by apply filter_all.
    + by rewrite Hti.
    + intros it Hit. by apply Hmap, Hother.
    + intros r _. rewrite Hdec, Hnone, filter_nil, Zsum_nil. lia.
Qed.

Lemma return_effect_on_stock_witness :
  totalQuantity (calculateProductStockInWarehouse ledger_after_return "W1" "P1" reagent)
  ≤ totalQuantity (calculateProductStockInWarehouse ledger_two_invoices "W1" "P1" reagent).
Proof.
  assert (Hfresh : fresh_stockout_id ledger_two_invoices "S1").
  { split; [apply not_elem_of_nil|by intros it ?%elem_of_nil]. }
  assert (Hlisted : listed_active ledger_two_invoices (Invoice.mk "I1" "Acme" "W1" "active")).
  { split_and!; [left|done|]. apply (bool_decide_unpack _). vm_compute. reflexivity. }
  assert (Hwd : well_dated ledger_two_invoices) by (split; repeat constructor).
  assert (Hck : checked_ledger ledger_two_invoices).
  { apply (bool_decide_unpack _). vm_compute. reflexivity. }
  apply (return_effect_on_stock line_amount "2024-03-01"
           (Invoice.mk "I1" "Acme" "W1" "active") ledger_two_invoices "S1"
           ledger_after_return "W1" "P1" reagent eq_refl Hfresh Hlisted Hwd Hck).
Defined.



(** * A transfer built with the form *)

Lemma Forall2_imap_pres {A B} (R : A → B → Prop) (f : nat → A → A) (l : list A) (k : list B) :
  (∀ i x y, R x y → R (f i x) y) → Forall2 R l k → Forall2 R (imap f l) k.
Proof.
  intros Hf Hlk. revert f Hf.
  induction Hlk as [|x y l k Hxy _ IH]; intros f Hf; [constructor|].
  simpl. constructor; [by apply Hf|]. apply IH. intros i. apply Hf.
Qed.

(** Every row of a reached list is the loaded row of its position, up to
    the selection and the transfer quantity. *)
Lemma form_rows_loaded db A rows :
  form_rows db A rows →
  Forall2 (λ row loaded, set_selection row false 0 = loaded) rows (loadWarehouseStock db A).
Proof.
  induction 1 as [|index rows _ IH|matches rows _ IH|index q rows _ IH].
  - apply Forall_Forall2_diag, Forall_forall. intros row Hrow.
    destruct (loaded_row db A row Hrow) as (_ & _ & Hsel & Htq).
    destruct row. simpl in *. by subst.
  - apply Forall2_imap_pres; [|done]. intros i row loaded <-. by case_decide.
  - unfold toggleSelectAll. apply Forall2_fmap_l.
    eapply Forall2_impl; [exact IH|]. intros row loaded <-. simpl. by destruct (existsb _ _).
  - apply Forall2_imap_pres; [|done]. intros i row loaded <-. by case_decide.
Qed.

Lemma Zsum_filter_Forall2 {A} (R : A → A → Prop) (P : A → Prop) `{!∀ x, Decision (P x)}
    (f : A → Z) (l k : list A) :
  (∀ x y, R x y → (P x ↔ P y) ∧ f x = f y) → Forall2 R l k →
  Zsum f (filter P l) = Zsum f (filter P k).
Proof.
  intros HR. induction 1 as [|x y l k Hxy _ IH]; [done|].
  destruct (HR x y Hxy) as [HP Hf]. rewrite !filter_cons.
  destruct (decide (P x)), (decide (P y)); try tauto; rewrite ?Zsum_cons, IH, ?Hf; done.
Qed.

Lemma Zsum_filter_le {A} (f g : A → Z) (P Q : A → Prop)
    `{!∀ x, Decision (P x), !∀ x, Decision (Q x)} (l : list A) :
  (∀ x, x ∈ l → f x ≤ g x ∧ 0 ≤ g x) → (∀ x, P x → Q x) →
  Zsum f (filter P l) ≤ Zsum g (filter Q l).
Proof.
  intros Hfg HPQ. induction l as [|x l IH]; [done|].
  assert (f x ≤ g x ∧ 0 ≤ g x) as [? ?] by (apply Hfg; left).
  assert (Zsum f (filter P l) ≤ Zsum g (filter Q l)).
  { apply IH. intros y Hy. apply Hfg. by right. }
  rewrite !filter_cons. specialize (HPQ x).
  destruct (decide (P x)), (decide (Q x)); try tauto; rewrite ?Zsum_cons; lia.
Qed.

Lemma Zsum_filter_indicator {A} (f : A → Z) (P : A → Prop) `{!∀ x, Decision (P x)}
    (l : list A) :
  Zsum f (filter P l) = Zsum (λ x, if decide (P x) then f x else 0) l.
Proof.
  induction l as [|x l IH]; [done|].
  rewrite filter_cons, (Zsum_cons _ x l), <-IH.
  destruct (decide (P x)); rewrite ?Zsum_cons; lia.
Qed.

Lemma Zsum_indicator_by_le {A K} `{EqDecision K} (key : A → K) (k : K) (c : Z) (l : list A) :
  NoDup (key <$> l) → 0 ≤ c →
  Zsum (λ x, if decide (key x = k) then c else 0) l ≤ c.
Proof.
  intros Hnd Hc. destruct (decide (k ∈ key <$> l)) as [Hk|Hk].
  - by rewrite Zsum_indicator_by.
  - rewrite (Zsum_ext _ (λ _, 0)), Zsum_zero; [done|].
    intros x Hx. rewrite decide_False; [done|]. intros <-. apply Hk.
    by apply list_elem_of_fmap_2.
Qed.

(** Under one price per date, the batches of a date that the result shows
    hold together what the batch of that date stands for. *)
Lemma batches_of_date db w p t r :
  well_dated db → one_price_per_date db w p t → r ∈ receipts db w p t →
  Zsum quantity
       (filter (λ b, batch_date b = r_date r)
               (batches (calculateProductStockInWarehouse db w p t)))
  ≤ stock_of_batch db w p t (receipt_batch r).
Proof.
  intros Hwd Hone Hr.
  rewrite (Zsum_perm _ _ _ (filter_Permutation _ _ _ (batches_perm db w p t))).
  unfold emitted. rewrite Zsum_filter_fmap. unfold kept.
  rewrite list_filter_filter, Zsum_filter_indicator.
  etrans; [|apply (Zsum_indicator_by_le bucket_batch (receipt_batch r)
                     (stock_of_batch db w p t (receipt_batch r)) (batchMap db w p t))].
  - apply Zsum_le. intros [k bucket] Hkv.
    destruct (bucket_facts db w p t k bucket Hwd Hkv)
      as (d & price & (r' & Hr' & Hd' & Hp') & Hd & Hk & Hprice & Hq & Hnet).
    assert (Hbb : bucket_batch (k, bucket) = (d, price)).
    { unfold bucket_batch, date_of_key. simpl. by rewrite Hk, batch_key_date, Hprice. }
    assert (Hstock : 0 ≤ stock_of_batch db w p t (receipt_batch r))
      by (unfold stock_of_batch; lia).
    destruct (decide (_ ∧ _)) as [[Hdate Hpos]|_].
    + unfold compose in Hdate. simpl in Hdate. rewrite Hk, batch_key_date in Hdate by done.
      assert (price = r_price r) as ->.
      { rewrite <-Hp'. apply Hone; [done..|]. by rewrite Hd', Hdate. }
      rewrite Hbb, Hdate, decide_True by done.
      unfold compose. simpl. rewrite Hnet. unfold stock_of_batch, receipt_batch. simpl.
      rewrite Hdate. lia.
    + destruct (decide _); lia.
  - by apply bucket_batch_NoDup.
  - unfold stock_of_batch. lia.
Qed.

Section transfer_from_form.
Context (db : Database) (A B date : string) (rows : list TransferRow.t).
Context (tid sid : string) (db' : Database).
Context (Hrows : form_rows db A rows).
Context (Hkeyed : catalogue_keyed db) (Hwd : well_dated db).
Context (p : string) (t : ProductType).

Let form : TransferForm := mkForm A B date rows.

(** What the selected rows of the product ask of the batches of one date. *)
Let asked (d : string) : Z :=
  Zsum TransferRow.transfer_quantity
       (filter (λ item, TransferRow.batch_date item = d) (selected_of form p t)).

Lemma asked_le_listed d :
  asked d ≤
  Zsum TransferRow.quantity
       (filter (λ row, (TransferRow.product_type row = t ∧ TransferRow.product_id row = p)
                       ∧ TransferRow.batch_date row = d)
               (loadWarehouseStock db A)).
Proof.
  unfold asked, selected_of, selectedItems. simpl. rewrite !list_filter_filter.
  etrans.
  - apply (Zsum_filter_le TransferRow.transfer_quantity TransferRow.quantity _
             (λ row, (TransferRow.product_type row = t ∧ TransferRow.product_id row = p)
                     ∧ TransferRow.batch_date row = d)).
    + intros row Hrow. pose proof (form_rows_within db A rows Hrows) as Hall.
      rewrite Forall_forall in Hall. destruct (Hall row Hrow) as (_ & ? & ?). lia.
    + tauto.
  - apply Z.eq_le_incl.
    apply (Zsum_filter_Forall2 (λ row loaded, set_selection row false 0 = loaded));
      [|by apply form_rows_loaded].
    intros row loaded <-. done.
Qed.

Lemma listed_le_batches d :
  Zsum TransferRow.quantity
       (filter (λ row, (TransferRow.product_type row = t ∧ TransferRow.product_id row = p)
                       ∧ TransferRow.batch_date row = d)
               (loadWarehouseStock db A))
  ≤ Zsum quantity
         (filter (λ b, batch_date b = d)
                 (batches (calculateProductStockInWarehouse db A p t))).
Proof.
  rewrite (Zsum_perm _ _ _ (filter_Permutation _ _ _ (loadWarehouseStock_perm db A))).
  rewrite filter_bind, Zsum_bind.
  set (S := Zsum quantity
              (filter (λ b, batch_date b = d)
                      (batches (calculateProductStockInWarehouse db A p t)))).
  assert (HS : 0 ≤ S).
  { apply Zsum_nonneg. intros b [_ Hb]%list_elem_of_filter.
    rewrite batches_perm in Hb. apply list_elem_of_fmap in Hb as (kv & -> & Hkv).
    apply kept_positive in Hkv. simpl. lia. }
  etrans; [|apply (Zsum_indicator_by_le (λ x, (Product.id x, Product.type x)) (p, t) S
                     (listed_products db)); [by apply listed_products_keyed|done]].
  apply Z.eq_le_incl, Zsum_ext. intros x _. rewrite rows_of_product_batches.
  destruct (decide ((Product.id x, Product.type x) = (p, t))) as [[= Hid Hty]|Hne].
  - unfold S. rewrite <-Hid, <-Hty. clear.
    induction (batches _) as [|b l IH]; [done|].
    rewrite fmap_cons, !filter_cons. simpl.
    destruct (decide (batch_date b = d)).
    + rewrite decide_True by done. by rewrite !Zsum_cons, IH.
    + rewrite decide_False by tauto. done.
  - rewrite filter_none; [done|].
    intros row (b & -> & _)%list_elem_of_fmap [[Hty Hid] _]. simpl in Hid, Hty.
    apply Hne. by rewrite Hid, Hty.
Qed.

Lemma asked_le_stock r :
  one_price_per_date db A p t → r ∈ receipts db A p t →
  asked (r_date r) ≤ stock_of_batch db A p t (receipt_batch r).
Proof.
  intros Hone Hr.
  etrans; [apply asked_le_listed|]. etrans; [apply listed_le_batches|].
  by apply batches_of_date.
Qed.

Lemma asked_nonneg d : 0 ≤ asked d.
Proof.
  unfold asked. apply Zsum_nonneg. intros item [_ Hitem]%list_elem_of_filter.
  apply selected_of_positive in Hitem. lia.
Qed.

Lemma selected_has_receipt item :
  item ∈ selected_of form p t →
  ∃ r, r ∈ receipts db A p t ∧ r_date r = TransferRow.batch_date item.
Proof.
  intros [[Hty Hid] [_ Hitem]%list_elem_of_filter]%list_elem_of_filter. simpl in Hitem.
  pose proof (form_rows_within db A rows Hrows) as Hall. rewrite Forall_forall in Hall.
  destruct (Hall item Hitem) as ((b & Hb & Hdate & _) & _).
  rewrite Hid, Hty in Hb.
  destruct (batch_in_batches db A p t b Hwd Hb) as ((r & Hr & Hd & _) & _).
  exists r. split; [done|]. by rewrite Hd.
Qed.

Lemma asked_total (K : list (string * Z)) :
  NoDup (fst <$> K) →
  (∀ r, r ∈ receipts db A p t → receipt_batch r ∈ K) →
  Zsum (λ x, asked x.1) K = Zsum TransferRow.transfer_quantity (selected_of form p t).
Proof.
  intros HK Hc.
  change (λ x : string * Z, asked x.1) with (asked ∘ (fst : string * Z → string)).
  rewrite <-Zsum_fmap. unfold asked.
  apply (Zsum_grouped TransferRow.batch_date); [done|].
  intros item Hitem. destruct (selected_has_receipt item Hitem) as (r & Hr & <-).
  apply (list_elem_of_fmap_2 (fst : string * Z → string) K (receipt_batch r)). by apply Hc.
Qed.
End transfer_from_form.



(** * The stock list *)

Lemma take_add_app {A} (n m : nat) (l : list A) :
  take (n + m) l = take n l ++ take m (drop n l).
Proof.
  revert l. induction n as [|n IH]; intros [|x l]; simpl; try done.
  - by rewrite take_nil.
  - by rewrite IH.
Qed.

Lemma slices_concat {A} (size : nat) (l : list A) :
  (0 < size)%nat → concat (WarehouseList.slices size l) = l.
Proof.
  intros Hsize. unfold WarehouseList.slices.
  assert (Hm : ∀ m, concat ((λ k, take size (drop (k * size) l)) <$> seq 0 m)
                    = take (m * size) l).
  { induction m as [|m IH]; [done|].
    rewrite seq_S, fmap_app, concat_app, IH. simpl. rewrite app_nil_r.
    rewrite <-take_add_app. f_equal. lia. }
  rewrite Hm. apply take_ge.
  pose proof (Nat.div_mod_eq (length l + size - 1) size) as Hdiv.
  pose proof (Nat.mod_upper_bound (length l + size - 1) size) as Hmod.
  nia.
Qed.

Lemma foldl_sort_perm {A B} (cmp : A → A → comparison) (f : B → list A) (cs : list B) :
  ∀ acc, foldl (λ acc c, sort cmp (acc ++ f c)) acc cs ≡ₚ acc ++ (cs ≫= f).
Proof.
  induction cs as [|c cs IH]; intros acc; simpl.
  - by rewrite app_nil_r.
  - by rewrite IH, sort_perm, <-app_assoc.
Qed.

Lemma foldl_sort_sorted {A B} (cmp : A → A → comparison) (f : B → list A) (cs : list B) :
  (∀ a b, cmp a b = Gt → cmp b a ≠ Gt) →
  (∀ a b c, in_order cmp a b → in_order cmp b c → in_order cmp a c) →
  ∀ acc, StronglySorted (in_order cmp) acc →
         StronglySorted (in_order cmp) (foldl (λ acc c, sort cmp (acc ++ f c)) acc cs).
Proof.
  intros Htotal Htrans. induction cs as [|c cs IH]; intros acc Hacc; simpl; [done|].
  apply IH. by apply sort_sorted.
Qed.

Lemma push_app db w warehouse results product :
  WarehouseList.push db w warehouse results product
  = results ++ WarehouseList.push db w warehouse [] product.
Proof. unfold WarehouseList.push. by case_decide; rewrite ?app_nil_r. Qed.

Lemma foldl_push db w warehouse products : ∀ results,
  foldl (WarehouseList.push db w warehouse) results products
  = results ++ (products ≫= WarehouseList.push db w warehouse []).
Proof.
  induction products as [|product products IH]; intros results; simpl.
  - by rewrite app_nil_r.
  - by rewrite IH, push_app, <-app_assoc.
Qed.

Lemma bind_app_perm {A B} (f g : A → list B) (l : list A) :
  l ≫= (λ x, f x ++ g x) ≡ₚ (l ≫= f) ++ (l ≫= g).
Proof.
  induction l as [|x l IH]; [done|].
  rewrite !bind_cons, IH, <-!app_assoc. apply Permutation_app_head.
  rewrite !app_assoc. apply Permutation_app_tail, Permutation_app_comm.
Qed.

Lemma bind_swap_perm {A B C} (f : A → B → list C) (xs : list A) (ys : list B) :
  xs ≫= (λ x, ys ≫= f x) ≡ₚ ys ≫= (λ y, xs ≫= (λ x, f x y)).
Proof.
  induction xs as [|x xs IH].
  - simpl. induction ys as [|y ys IHy]; [done|]. by rewrite bind_cons, <-IHy.
  - rewrite bind_cons, IH.
    rewrite <-(bind_app_perm (f x) (λ y, xs ≫= (λ x', f x' y)) ys).
    done.
Qed.

Lemma bind_concat {A B} (f : A → list B) (cs : list (list A)) :
  cs ≫= (λ c, c ≫= f) = concat cs ≫= f.
Proof.
  induction cs as [|c cs IH]; [done|].
  by rewrite bind_cons, IH, concat_cons, bind_app.
Qed.

Lemma foldl_warehouses db products warehouses : ∀ results,
  foldl (λ results warehouse,
           foldl (WarehouseList.push db (Warehouse.id warehouse) (Some warehouse))
                 results products)
        results warehouses
  = results
    ++ (warehouses ≫= λ warehouse,
          products ≫= WarehouseList.push db (Warehouse.id warehouse) (Some warehouse) []).
Proof.
  induction warehouses as [|w ws IH]; intros results; simpl.
  - by rewrite app_nil_r.
  - by rewrite IH, foldl_push, <-app_assoc.
Qed.

Lemma processProductBatch_bind db warehouses selected products :
  WarehouseList.processProductBatch db warehouses selected products
  = stock_places warehouses selected ≫= (λ place, products ≫= summary_of db place).
Proof.
  unfold WarehouseList.processProductBatch, stock_places, summary_of.
  case_decide.
  - rewrite foldl_warehouses. simpl.
    induction warehouses as [|w ws IH]; [done|].
    by rewrite fmap_cons, !bind_cons, IH.
  - rewrite foldl_push. simpl. by rewrite app_nil_r.
Qed.

Lemma bind_perm_ext {A B} (f g : A → list B) (l : list A) :
  (∀ x, f x ≡ₚ g x) → l ≫= f ≡ₚ l ≫= g.
Proof.
  intros Hfg. induction l as [|x l IH]; [done|]. by rewrite !bind_cons, IH, Hfg.
Qed.

Lemma loadStocks_perm db warehouses selected reagents consumables stocks :
  WarehouseList.loadStocks db warehouses selected reagents consumables = Some stocks →
  stocks ≡ₚ
    stock_places warehouses selected ≫= (λ place,
      allProducts reagents consumables ≫= summary_of db place).
Proof.
  unfold WarehouseList.loadStocks. case_decide; [done|]. intros [= <-].
  rewrite foldl_sort_perm. simpl.
  rewrite (list_bind_ext _ (λ c, stock_places warehouses selected ≫=
                                   (λ place, c ≫= summary_of db place)) _ _
             (λ c, processProductBatch_bind db warehouses selected c) eq_refl).
  rewrite bind_swap_perm.
  apply bind_perm_ext. intros place.
  rewrite bind_concat, slices_concat; [done|]. unfold WarehouseList.batchSize. lia.
Qed.

Lemma StronglySorted_mono {A} (R R' : A → A → Prop) (l : list A) :
  (∀ a b, R a b → R' a b) → StronglySorted R l → StronglySorted R' l.
Proof.
  intros HR. induction 1 as [|x l _ IH Hx]; constructor; [done|].
  eapply Forall_impl; [exact Hx|]. intros y. apply HR.
Qed.

Lemma date_le_refl a : date_le a a.
Proof.
  unfold date_le, localeCompare. pose proof (String.compare_antisym a a) as H.
  destruct (String.compare a a); simpl in H; done.
Qed.

Lemma localeCompare_lt_trans a b c :
  localeCompare a b = Lt → localeCompare b c = Lt → localeCompare a c = Lt.
Proof.
  intros Hab Hbc.
  assert (Hle : date_le a c).
  { apply (date_le_trans a b c); unfold date_le; congruence. }
  destruct (localeCompare a c) eqn:Hac; [|done|by destruct Hle].
  apply String.compare_eq_iff in Hac. subst c.
  unfold localeCompare in *. rewrite (String.compare_antisym a b), Hbc in Hab. done.
Qed.

Lemma by_warehouse_then_code_in_order a b :
  in_order WarehouseList.by_warehouse_then_code a b ↔
  localeCompare (or_empty_string (StockSummary.warehouse_name a))
                (or_empty_string (StockSummary.warehouse_name b)) = Lt
  ∨ (or_empty_string (StockSummary.warehouse_name a)
     = or_empty_string (StockSummary.warehouse_name b)
     ∧ date_le (StockSummary.product_code a) (StockSummary.product_code b)).
Proof.
  unfold in_order, WarehouseList.by_warehouse_then_code, date_le.
  destruct (localeCompare (or_empty_string (StockSummary.warehouse_name a))
                          (or_empty_string (StockSummary.warehouse_name b))) eqn:Hw.
  - apply String.compare_eq_iff in Hw. split; [by right|]. by intros [?|[_ ?]].
  - split; [by left|done].
  - split; [done|]. intros [?|[Heq _]]; [done|].
    rewrite Heq in Hw. pose proof (date_le_refl (or_empty_string (StockSummary.warehouse_name b))).
    unfold date_le in *. congruence.
Qed.

Lemma by_warehouse_then_code_total a b :
  WarehouseList.by_warehouse_then_code a b = Gt →
  WarehouseList.by_warehouse_then_code b a ≠ Gt.
Proof.
  unfold WarehouseList.by_warehouse_then_code, localeCompare.
  rewrite (String.compare_antisym (or_empty_string (StockSummary.warehouse_name a))),
          (String.compare_antisym (StockSummary.product_code a)).
  destruct (String.compare (or_empty_string (StockSummary.warehouse_name b)) _),
           (String.compare (StockSummary.product_code b) _); simpl; done.
Qed.

Lemma by_warehouse_then_code_trans a b c :
  in_order WarehouseList.by_warehouse_then_code a b →
  in_order WarehouseList.by_warehouse_then_code b c →
  in_order WarehouseList.by_warehouse_then_code a c.
Proof.
  rewrite !by_warehouse_then_code_in_order.
  intros [Hab|[Hab Hcab]] [Hbc|[Hbc Hcbc]].
  - left. by eapply localeCompare_lt_trans.
  - left. by rewrite <-Hbc.
  - left. by rewrite Hab.
  - right. split; [congruence|]. by eapply date_le_trans.
Qed.

Lemma value_batch_sum db w p t :
  totalValue (calculateProductStockInWarehouse db w p t)
  = Zsum total_price (batches (calculateProductStockInWarehouse db w p t)).
Proof.
  rewrite (Zsum_perm _ _ _ (batches_perm db w p t)).
  rewrite calculate_unfold. simpl. unfold emitted. by rewrite Zsum_fmap.
Qed.

Lemma batches_below_first db w p t :
  match batches (calculateProductStockInWarehouse db w p t) with
  | first :: rest =>
      Forall (λ b, date_le (batch_date b) (batch_date first)) (first :: rest)
  | [] => True
  end.
Proof.
  pose proof (sort_sorted by_batch_date_desc by_batch_date_desc_total
                by_batch_date_desc_trans (emitted db w p t)) as Hsorted.
  rewrite calculate_unfold. simpl.
  destruct (sort by_batch_date_desc (emitted db w p t)) as [|first rest]; [done|].
  apply StronglySorted_inv in Hsorted as [_ Hrest].
  constructor; [apply date_le_refl|exact Hrest].
Qed.



(** * The order of the rows *)

Lemma value_clamped db w p t :
  totalValue (calculateProductStockInWarehouse db w p t) =
    Zsum (λ kv, Z.max 0 (bucket_quantity kv.2 - decreased db w p t (date_of_key kv))
                * bucket_price kv.2)
         (batchMap db w p t).
Proof.
  rewrite calculate_unfold. simpl. unfold kept.
  induction (batchMap db w p t) as [|kv m IH]; [done|].
  rewrite filter_cons, (Zsum_cons _ kv m), <-IH.
  pose proof (net_quantity_date (exitMap db w p t) kv) as Hnet.
  rewrite exitMap_decreased in Hnet.
  destruct (decide (0 < net_quantity (exitMap db w p t) kv)); rewrite ?Zsum_cons; nia.
Qed.

(** The value over any duplicate-free list of batches that covers the
    receipts. *)
Lemma value_over db w p t (K : list (string * Z)) :
  well_dated db → (∀ d, 0 ≤ decreased db w p t d) →
  NoDup K → (∀ r, r ∈ receipts db w p t → receipt_batch r ∈ K) →
  totalValue (calculateProductStockInWarehouse db w p t)
  = Zsum (λ x, stock_of_batch db w p t x * x.2) K.
Proof.
  intros Hwd Hdec HK Hcover. rewrite value_clamped.
  rewrite (Zsum_ext _ ((λ x, stock_of_batch db w p t x * x.2) ∘ bucket_batch)).
  2:{ intros [k b] Hin.
      destruct (bucket_batch_facts db w p t k b Hwd Hin) as (d & price & E & _ & _ & _ & Hq).
      unfold compose, stock_of_batch. rewrite E. simpl. rewrite Hq.
      pose proof (f_equal fst E) as Hd. pose proof (f_equal snd E) as Hp.
      simpl in Hd, Hp. by rewrite Hd, Hp. }
  rewrite <-Zsum_fmap. apply Zsum_sub; [by apply bucket_batch_NoDup|done|..].
  - intros x ([k b] & -> & Hin)%list_elem_of_fmap.
    destruct (bucket_batch_facts db w p t k b Hwd Hin)
      as (d & price & -> & (r & Hr & <- & <-) & _).
    by apply Hcover.
  - intros [d price] _ Hnot. unfold stock_of_batch. simpl.
    rewrite received_no_receipt; [specialize (Hdec d); lia|].
    intros Hrec. apply Hnot.
    destruct (bucket_exists db w p t d price Hrec) as [bucket Hin].
    apply list_elem_of_fmap. exists (batch_key d price, bucket). split; [|done].
    destruct (bucket_batch_facts db w p t _ bucket Hwd Hin)
      as (d' & price' & -> & _ & Hd' & Hk & _).
    destruct Hrec as (r & Hr & <- & <-).
    apply batch_key_inj in Hk as [-> ->]; [done| |done].
    by eapply receipts_well_dated.
Qed.

Lemma filter_refs_perm {A D} (Q1 Q2 : A → Prop)
    `{!∀ x, Decision (Q1 x), !∀ x, Decision (Q2 x)}
    (P : D → Prop) `{!∀ x, Decision (P x)}
    (ref : A → string) (id : D → string) (docs docs' : list D) (rows rows' : list A) :
  docs' ≡ₚ docs → rows' ≡ₚ rows →
  filter (λ r, Q1 r ∧ Q2 r ∧ ref r ∈ (id <$> filter P docs')) rows'
  ≡ₚ filter (λ r, Q1 r ∧ Q2 r ∧ ref r ∈ (id <$> filter P docs)) rows.
Proof.
  intros Hdocs Hrows. rewrite Hrows.
  rewrite (filter_ext_in (λ r, Q1 r ∧ Q2 r ∧ ref r ∈ (id <$> filter P docs'))
             (λ r, Q1 r ∧ Q2 r ∧ ref r ∈ (id <$> filter P docs))); [done|].
  intros r _. by rewrite Hdocs.
Qed.

Section same_rows.
Context (db db' : Database) (Hsame : same_rows db db').
Context (w p : string) (t : ProductType).

Lemma entries_perm : or_empty (entries db' w p t) ≡ₚ or_empty (entries db w p t).
Proof.
  destruct Hsame as (Hi & Hii & _). rewrite !entries_filter.
  unfold invoiceIds, invoices. simpl.
  pose proof (filter_refs_perm
                (λ it, InvoiceItem.product_type it = t) (λ it, InvoiceItem.product_id it = p)
                (λ inv, Invoice.warehouse_id inv = w ∧ Invoice.status inv = "active")
                InvoiceItem.invoice_id Invoice.id _ _ _ _ Hi Hii) as Hperm.
  cbv beta in Hperm. exact Hperm.
Qed.

Lemma transferItemsIn_perm :
  or_empty (transferItemsIn db' w p t) ≡ₚ or_empty (transferItemsIn db w p t).
Proof.
  destruct Hsame as (_ & _ & Ht & Hti & _). rewrite !transferItemsIn_filter.
  unfold transferInIds, transfersIn. simpl.
  pose proof (filter_refs_perm
                (λ it, TransferItem.product_type it = t)
                (λ it, TransferItem.product_id it = p)
                (λ tr, Transfer.to_warehouse_id tr = w)
                TransferItem.transfer_id Transfer.id _ _ _ _ Ht Hti) as Hperm.
  cbv beta in Hperm. exact Hperm.
Qed.

Lemma transferItemsOut_perm :
  or_empty (transferItemsOut db' w p t) ≡ₚ or_empty (transferItemsOut db w p t).
Proof.
  destruct Hsame as (_ & _ & Ht & Hti & _). rewrite !transferItemsOut_filter.
  unfold transferOutIds, transfersOut. simpl.
  pose proof (filter_refs_perm
                (λ it, TransferItem.product_type it = t)
                (λ it, TransferItem.product_id it = p)
                (λ tr, Transfer.from_warehouse_id tr = w)
                TransferItem.transfer_id Transfer.id _ _ _ _ Ht Hti) as Hperm.
  cbv beta in Hperm. exact Hperm.
Qed.

Lemma stockOutItems_perm :
  or_empty (stockOutItems db' w p t) ≡ₚ or_empty (stockOutItems db w p t).
Proof.
  destruct Hsame as (_ & _ & _ & _ & Hs & Hsi). rewrite !stockOutItems_filter.
  unfold stockOutIds, stockOuts. simpl.
  pose proof (filter_refs_perm
                (λ it, StockOutItem.product_type it = t)
                (λ it, StockOutItem.product_id it = p)
                (λ so, StockOut.warehouse_id so = w ∧ StockOut.reason so ≠ "transfer")
                StockOutItem.stockout_id StockOut.id _ _ _ _ Hs Hsi) as Hperm.
  cbv beta in Hperm. exact Hperm.
Qed.

Lemma received_perm d price : received db' w p t d price = received db w p t d price.
Proof.
  unfold received. f_equal; apply Zsum_perm, filter_Permutation;
    [apply entries_perm|apply transferItemsIn_perm].
Qed.

Lemma decreased_perm d : decreased db' w p t d = decreased db w p t d.
Proof.
  unfold decreased. f_equal; apply Zsum_perm, filter_Permutation;
    [apply stockOutItems_perm|apply transferItemsOut_perm].
Qed.

Lemma receipts_perm : receipts db' w p t ≡ₚ receipts db w p t.
Proof. unfold receipts. by rewrite entries_perm, transferItemsIn_perm. Qed.

Lemma well_dated_perm : well_dated db → well_dated db'.
Proof.
  destruct Hsame as (_ & Hii & _ & Hti & _). intros [H1 H2].
  split; [by rewrite Hii|by rewrite Hti].
Qed.
End same_rows.

Lemma stock_of_batch_perm db db' w p t x :
  same_rows db db' → stock_of_batch db' w p t x = stock_of_batch db w p t x.
Proof.
  intros Hsame. unfold stock_of_batch.
  by rewrite (received_perm db db' Hsame), (decreased_perm db db' Hsame).
Qed.

(** A batch without its supplier. *)
Lemma batch_rows_NoDup db w p t :
  well_dated db →
  NoDup ((λ b, (batch_date b, unit_price b, quantity b, total_price b))
         <$> batches (calculateProductStockInWarehouse db w p t)).
Proof.
  intros Hwd. rewrite batches_perm. unfold emitted. rewrite <-list_fmap_compose.
  apply NoDup_fmap_2_strong.
  - intros kv1 kv2 [_ H1]%list_elem_of_filter [_ H2]%list_elem_of_filter Heq.
    apply (kept_batch_id_inj db w p t kv1 kv2 Hwd H1 H2).
    unfold compose, batch_of in Heq. simpl in Heq. injection Heq as Hd Hp _ _.
    unfold batch_id, batch_of. simpl. congruence.
  - apply NoDup_filter. eapply NoDup_fmap_1. apply batchMap_NoDup.
Qed.

Lemma batch_rows_elem db w p t d price q total :
  well_dated db →
  (d, price, q, total)
    ∈ ((λ b, (batch_date b, unit_price b, quantity b, total_price b))
       <$> batches (calculateProductStockInWarehouse db w p t))
  ↔ has_receipt db w p t d price
    ∧ q = received db w p t d price - decreased db w p t d
    ∧ 0 < q ∧ total = q * price.
Proof.
  intros Hwd. rewrite list_elem_of_fmap. split.
  - intros (b & [= -> -> -> ->] & Hb).
    by destruct (batch_in_batches db w p t b Hwd Hb) as (? & ? & ? & ?).
  - intros (Hrec & -> & Hpos & ->).
    destruct (batches_has_batch db w p t d price Hwd Hrec Hpos) as (b & Hb & <- & <- & Hq).
    exists b. split; [|done].
    destruct (batch_in_batches db w p t b Hwd Hb) as (_ & _ & _ & Htotal).
    by rewrite Htotal, Hq.
Qed.



(** * Transferring everything *)

Lemma Zsum_elem_le {A} (f : A → Z) (l : list A) x :
  (∀ y, y ∈ l → 0 ≤ f y) → x ∈ l → f x ≤ Zsum f l.
Proof.
  induction l as [|y l IH]; intros Hf Hx; [by apply elem_of_nil in Hx|].
  rewrite Zsum_cons.
  assert (0 ≤ f y) by (apply Hf; left).
  assert (0 ≤ Zsum f l) by (apply Zsum_nonneg; intros z Hz; apply Hf; by right).
  apply elem_of_cons in Hx as [->|Hx]; [lia|].
  assert (f x ≤ Zsum f l) by (apply IH; [intros z Hz; apply Hf; by right|done]).
  lia.
Qed.

(** With an empty search term every row matches: on a freshly loaded list
    [toggleSelectAll] selects every row with its whole quantity. *)
Lemma toggleSelectAll_loaded db A :
  toggleSelectAll (λ _, true) (loadWarehouseStock db A)
  = (λ item, set_selection item true (TransferRow.quantity item))
    <$> loadWarehouseStock db A.
Proof.
  unfold toggleSelectAll.
  rewrite (filter_all (λ stock : TransferRow.t, true = true)) by done.
  assert (Hnone : ∀ row, row ∈ loadWarehouseStock db A → TransferRow.selected row = false).
  { intros row Hrow. by destruct (loaded_row db A row Hrow) as (_ & _ & ? & _). }
  destruct (loadWarehouseStock db A) as [|first rest] eqn:Hl; [done|].
  assert (Hall : forallb TransferRow.selected (first :: rest) = false).
  { simpl. rewrite (Hnone first); [done|left]. }
  rewrite Hall. cbn [negb].
  apply list_fmap_ext. intros i item Hitem%list_elem_of_lookup_2.
  assert (Hex : existsb
                  (λ f, bool_decide
                          (TransferRow.product_id f = TransferRow.product_id item
                           ∧ TransferRow.batch_date f = TransferRow.batch_date item))
                  (first :: rest) = true).
  { apply existsb_exists. exists item. split; [by apply list_elem_of_In|].
    by apply bool_decide_eq_true. }
  by rewrite Hex.
Qed.

Section transfer_everything.
Context (db : Database) (A B date : string).
Context (Hwd : well_dated db).
Context (product : Product.t) (Hlisted : product ∈ listed_products db).

Let rows : list TransferRow.t := toggleSelectAll (λ _, true) (loadWarehouseStock db A).
Let form : TransferForm := mkForm A B date rows.
Let p : string := Product.id product.
Let t : ProductType := Product.type product.

Lemma everything_selected b :
  b ∈ batches (calculateProductStockInWarehouse db A p t) →
  set_selection (row_of_batch product b) true (quantity b) ∈ selected_of form p t.
Proof.
  intros Hb. unfold selected_of, selectedItems, form, rows. simpl.
  rewrite toggleSelectAll_loaded.
  assert (Hpos : 0 < quantity b).
  { rewrite batches_perm in Hb. apply list_elem_of_fmap in Hb as (kv & -> & Hkv).
    by apply kept_positive in Hkv. }
  apply list_elem_of_filter. split; [done|].
  apply list_elem_of_filter. split; [done|].
  apply (list_elem_of_fmap_2 (λ item, set_selection item true (TransferRow.quantity item))
           _ (row_of_batch product b)).
  rewrite loadWarehouseStock_perm. apply list_elem_of_bind. exists product.
  split; [|done]. rewrite rows_of_product_batches. by apply list_elem_of_fmap_2.
Qed.

Lemma everything_asked r :
  r ∈ receipts db A p t →
  stock_of_batch db A p t (receipt_batch r)
  ≤ Zsum TransferRow.transfer_quantity
         (filter (λ item, TransferRow.batch_date item = r_date r) (selected_of form p t)).
Proof.
  intros Hr.
  assert (Hnn : 0 ≤ Zsum TransferRow.transfer_quantity
                      (filter (λ item, TransferRow.batch_date item = r_date r)
                              (selected_of form p t))).
  { apply Zsum_nonneg. intros item [_ Hitem]%list_elem_of_filter.
    apply selected_of_positive in Hitem. lia. }
  unfold stock_of_batch, receipt_batch. simpl.
  destruct (decide (0 < received db A p t (r_date r) (r_price r)
                        - decreased db A p t (r_date r))) as [Hpos|Hnone]; [|lia].
  destruct (batches_has_batch db A p t (r_date r) (r_price r) Hwd) as (b & Hb & Hd & _ & Hq);
    [by exists r|done|].
  rewrite Z.max_r by lia. rewrite <-Hq.
  apply (Zsum_elem_le TransferRow.transfer_quantity _
           (set_selection (row_of_batch product b) true (quantity b))).
  - intros item [_ Hitem]%list_elem_of_filter. apply selected_of_positive in Hitem. lia.
  - apply list_elem_of_filter. split; [done|]. by apply everything_selected.
Qed.
End transfer_everything.



(** X23.  The return of the only receipts of a product.  When every fetched
    invoice line of a product at the warehouse of the returned invoice is a
    line of that invoice and no transfer brought the product in, the
    product has no stock there after the return: the result is zero totals
    and no batch. *)
Theorem return_of_only_receipts total_price today invoice db sid db' p t :
  InvoiceList.returnInvoice total_price today true invoice db sid = InvoiceList.Returned db' →
  (∀ it, it ∈ or_empty (entries db (Invoice.warehouse_id invoice) p t) →
     InvoiceItem.invoice_id it = Invoice.id invoice) →
  or_empty (transferItemsIn db (Invoice.warehouse_id invoice) p t) = [] →
  calculateProductStockInWarehouse db' (Invoice.warehouse_id invoice) p t = mkResult 0 0 [].
Proof.
  intros Hreturned Honly Hnone.
  assert (He : or_empty (entries db' (Invoice.warehouse_id invoice) p t) = []).
  { rewrite (return_entries total_price today invoice db sid db' Hreturned).
    apply filter_none. intros it Hit Hne. by apply Hne, Honly. }
  assert (Hti : or_empty (transferItemsIn db' (Invoice.warehouse_id invoice) p t) = []).
  { rewrite <-Hnone.
    by rewrite (return_Returned total_price today invoice db sid db' Hreturned). }
  unfold calculateProductStockInWarehouse, batchMap. by rewrite He, Hti.
Qed.

Lemma return_of_only_receipts_witness :
  ∃ db',
    InvoiceList.returnInvoice line_amount "2024-03-01" true
      (Invoice.mk "I1" "Acme" "W1" "active") ledger_example "S1"
    = InvoiceList.Returned db'
    ∧ calculateProductStockInWarehouse db' "W1" "P1" reagent = mkResult 0 0 [].
Proof.
  destruct (InvoiceList.returnInvoice line_amount "2024-03-01" true
              (Invoice.mk "I1" "Acme" "W1" "active") ledger_example "S1")
    as [| | |db'] eqn:Hreturned; try (vm_compute in Hreturned; discriminate).
  exists db'. split; [done|].
  apply (return_of_only_receipts line_amount "2024-03-01"
           (Invoice.mk "I1" "Acme" "W1" "active") ledger_example "S1" db' "P1" reagent
           Hreturned).
  - intros it Hit.
    change (it ∈ [InvoiceItem.mk "I1" reagent "P1" 100 5 "2024-01-10"]) in Hit.
    by apply list_elem_of_singleton in Hit as ->.
  - reflexivity.
Defined.

(** * Selecting and deselecting all rows *)

Lemma set_selection_unselected row :
  TransferRow.selected row = false → TransferRow.transfer_quantity row = 0 →
  set_selection row false 0 = row.
Proof. destruct row. simpl. by intros -> ->. Qed.

Lemma forallb_unselected (rows : list TransferRow.t) :
  rows ≠ [] → Forall (λ row, TransferRow.selected row = false) rows →
  forallb TransferRow.selected rows = false.
Proof.
  intros Hne Hall. destruct rows as [|row rows]; [done|].
  apply Forall_cons in Hall as [Hrow _]. simpl. by rewrite Hrow.
Qed.

Lemma forallb_selected (rows : list TransferRow.t) :
  Forall (λ row, TransferRow.selected row = true) rows →
  forallb TransferRow.selected rows = true.
Proof. induction 1 as [|row rows Hrow _ IH]; [done|]. simpl. by rewrite Hrow, IH. Qed.

(** The test [isInFiltered] looks at the product and the batch date only. *)
Lemma isInFiltered_fmap (g : TransferRow.t → TransferRow.t) (F : list TransferRow.t) item item' :
  (∀ f, TransferRow.product_id (g f) = TransferRow.product_id f
        ∧ TransferRow.batch_date (g f) = TransferRow.batch_date f) →
  TransferRow.product_id item' = TransferRow.product_id item →
  TransferRow.batch_date item' = TransferRow.batch_date item →
  existsb (λ f, bool_decide (TransferRow.product_id f = TransferRow.product_id item'
                             ∧ TransferRow.batch_date f = TransferRow.batch_date item'))
          (g <$> F)
  = existsb (λ f, bool_decide (TransferRow.product_id f = TransferRow.product_id item
                               ∧ TransferRow.batch_date f = TransferRow.batch_date item))
            F.
Proof.
  intros Hg Hid Hdate. induction F as [|f F IH]; [done|].
  rewrite fmap_cons. simpl. rewrite IH. f_equal.
  destruct (Hg f) as [-> ->]. by rewrite Hid, Hdate.
Qed.

Lemma isInFiltered_self (F : list TransferRow.t) item :
  item ∈ F →
  existsb (λ f, bool_decide (TransferRow.product_id f = TransferRow.product_id item
                             ∧ TransferRow.batch_date f = TransferRow.batch_date item))
          F = true.
Proof.
  intros Hin. apply existsb_exists. exists item. split; [by apply list_elem_of_In|].
  by apply bool_decide_eq_true.
Qed.

Lemma filter_fmap_invariant {A} (m : A → bool) (g : A → A) (l : list A) :
  (∀ x, m (g x) = m x) →
  filter (λ x, m x = true) (g <$> l) = g <$> filter (λ x, m x = true) l.
Proof.
  intros Hg. induction l as [|x l IH]; [done|].
  rewrite fmap_cons, !filter_cons, IH, Hg.
  by destruct (decide (m x = true)).
Qed.

(** X24.  Selecting all and deselecting all.  On a stock list on which no
    row is selected, as [loadWarehouseStock] builds it, two calls of
    [toggleSelectAll] under the same search term give back the list: the
    first selects the rows that match the search, each with its whole
    quantity, and the second deselects them and sets their transfer
    quantities to 0.  (The search looks at the code and the name of the
    product, not at the selection.) *)
Theorem toggleSelectAll_twice matches rows :
  (∀ row sel q, matches (set_selection row sel q) = matches row) →
  Forall (λ row, TransferRow.selected row = false ∧ TransferRow.transfer_quantity row = 0)
         rows →
  toggleSelectAll matches (toggleSelectAll matches rows) = rows
  ∧ Forall (λ row, matches row = true →
                   TransferRow.selected row = true
                   ∧ TransferRow.transfer_quantity row = TransferRow.quantity row)
           (toggleSelectAll matches rows).
Proof.
  intros Hmatches Hrows.
  set (F := filter (λ stock, matches stock = true) rows).
  set (hit := λ (G : list TransferRow.t) (item : TransferRow.t),
         existsb (λ f, bool_decide
                         (TransferRow.product_id f = TransferRow.product_id item
                          ∧ TransferRow.batch_date f = TransferRow.batch_date item)) G).
  set (g := λ item, if hit F item
                    then set_selection item true (TransferRow.quantity item) else item).
  assert (Hunsel : ∀ row, row ∈ rows → set_selection row false 0 = row).
  { intros row Hrow. rewrite Forall_forall in Hrows.
    destruct (Hrows row Hrow). by apply set_selection_unselected. }
  destruct (decide (F = [])) as [Hnil|Hsome].
  - (* no row matches: nothing changes *)
    assert (Hsame : toggleSelectAll matches rows = rows).
    { unfold toggleSelectAll. fold F. rewrite Hnil. simpl.
      rewrite <-(list_fmap_id rows) at 2. by apply list_fmap_ext. }
    rewrite !Hsame. split; [done|].
    apply Forall_forall. intros row Hrow Hm.
    assert (Hin : row ∈ F) by (by apply list_elem_of_filter).
    rewrite Hnil in Hin. by apply elem_of_nil in Hin.
  - assert (Hfirst : toggleSelectAll matches rows = g <$> rows).
    { unfold toggleSelectAll. fold F.
      rewrite forallb_unselected; [done..|].
      apply Forall_forall. intros row [_ Hrow]%list_elem_of_filter.
      rewrite Forall_forall in Hrows. by destruct (Hrows row Hrow). }
    assert (Hg : ∀ item, TransferRow.product_id (g item) = TransferRow.product_id item
                         ∧ TransferRow.batch_date (g item) = TransferRow.batch_date item
                         ∧ matches (g item) = matches item).
    { intros item. unfold g. destruct (hit F item); [|done].
      by rewrite Hmatches. }
    assert (HF' : filter (λ stock, matches stock = true) (g <$> rows) = g <$> F).
    { apply filter_fmap_invariant. intros item. by destruct (Hg item) as (_ & _ & ?). }
    assert (Hselected : ∀ f, f ∈ F → TransferRow.selected (g f) = true
                                      ∧ TransferRow.transfer_quantity (g f)
                                        = TransferRow.quantity (g f)).
    { intros f Hf. unfold g, hit. by rewrite isInFiltered_self. }
    split.
    + rewrite Hfirst. unfold toggleSelectAll at 1. rewrite HF'.
      rewrite forallb_selected.
      2:{ apply Forall_fmap, Forall_forall. intros f Hf. by apply Hselected. }
      rewrite <-list_fmap_compose. rewrite <-(list_fmap_id rows) at 2.
      apply list_fmap_ext. intros i item Hitem%list_elem_of_lookup_2.
      unfold compose. cbn [negb].
      destruct (Hg item) as (Hid & Hdate & _).
      rewrite (isInFiltered_fmap g F item (g item));
        [|intros f; destruct (Hg f) as (? & ? & _); by split|done..].
      fold (hit F item). unfold g, id. destruct (hit F item) eqn:Hhit; [|done].
      transitivity (set_selection item false 0); [by destruct item|by apply Hunsel].
    + rewrite Hfirst. apply Forall_fmap, Forall_forall. intros row Hrow Hm.
      destruct (Hg row) as (_ & _ & Hmrow). rewrite Hmrow in Hm.
      apply Hselected. by apply list_elem_of_filter.
Qed.

Lemma toggleSelectAll_twice_witness :
  toggleSelectAll (λ _, true)
    (toggleSelectAll (λ _, true) (loadWarehouseStock ledger_same_date "W1"))
  = loadWarehouseStock ledger_same_date "W1".
Proof.
  apply (toggleSelectAll_twice (λ _, true) (loadWarehouseStock ledger_same_date "W1")).
  - done.
  - apply Forall_forall. intros row Hrow.
    by destruct (loaded_row ledger_same_date "W1" row Hrow) as (_ & _ & ? & ?).
Defined.
